(** * HomeShare: resumable transfer and safe-access engine

    A shallow embedding of [server.py] (path confinement, the on-disk
    upload-session store, ranged downloads, ZIP bundling and the request
    handlers that gate and translate errors), followed by the properties
    established about it.

    Conventions.
    - A Python [str] is a [string]; [bytes] is a [list byte]; [int] is [Z].
    - A [pathlib.Path] is the list of its [parts]; an absolute path starts
      with the part [/].
    - A raised exception is the [Raise] case of [Result]; [try/except]
      becomes a [match] on it.
    - The file system is a finite map from paths to nodes, threaded
      explicitly through every operation that touches the disk.
    - What the operating system or a library decides (symlink resolution,
      MIME guessing, the ZIP encoder, the JSON text of a record) is a
      [Variable] of the enclosing section. *)

From Stdlib Require Import ZArith String Ascii List Bool Lia.
From Stdlib Require Import DecimalString DecimalN.
From stdpp Require Import base option list gmap strings.

Open Scope string_scope.
Open Scope list_scope.
Open Scope Z_scope.

Abbreviation Path := (list string).
Abbreviation bytes := (list Byte.byte).

(** ** Exceptions and results *)

Inductive Exn : Type :=
| PermissionError (msg : string)
| ValueError (msg : string)
| JSONDecodeError                       (* a subclass of ValueError *)
| KeyError (key : string)
| FileNotFoundError (msg : string)
| FileExistsError (msg : string)
| IsADirectoryError
| NotADirectoryError
| OSError (msg : string)
| RuntimeError (msg : string)
| TypeError (msg : string)
| AttributeError (msg : string).

Inductive Result (A : Type) : Type :=
| Ok (a : A)
| Raise (e : Exn).
Arguments Ok {A} a.
Arguments Raise {A} e.

Definition bind {A B} (r : Result A) (k : A -> Result B) : Result B :=
  match r with
  | Ok a => k a
  | Raise e => Raise e
  end.

Notation "x <- c1 ;; c2" := (bind c1 (fun x => c2))
  (at level 100, c1 at next level, right associativity).

(** [isinstance(e, ValueError)], as the [except] clauses test it. *)
Definition is_ValueError (e : Exn) : bool :=
  match e with
  | ValueError _ | JSONDecodeError => true
  | _ => false
  end.

(** ** Python string primitives used by the server *)

Module Str.

Fixpoint lstrip (c : ascii) (s : string) : string :=
  match s with
  | String a s' => if Ascii.eqb a c then lstrip c s' else s
  | EmptyString => EmptyString
  end.

Definition rstrip (c : ascii) (s : string) : string :=
  String.rev (lstrip c (String.rev s)).

(** [s.strip(c)] for a one-character set. *)
Definition strip (c : ascii) (s : string) : string :=
  rstrip c (lstrip c s).

(** [s.split(sep)] for a one-character separator: never empty. *)
Fixpoint split (sep : ascii) (s : string) : list string :=
  match s with
  | EmptyString => [EmptyString]
  | String a s' =>
      if Ascii.eqb a sep then EmptyString :: split sep s'
      else match split sep s' with
           | w :: ws => String a w :: ws
           | [] => [String a EmptyString]
           end
  end.

(** [sep.join(l)]. *)
Definition join (sep : string) (l : list string) : string :=
  String.concat sep l.

Fixpoint startswith (p s : string) : bool :=
  match p, s with
  | EmptyString, _ => true
  | String a p', String b s' => Ascii.eqb a b && startswith p' s'
  | String _ _, EmptyString => false
  end.

Definition endswith (suf s : string) : bool :=
  startswith (String.rev suf) (String.rev s).

(** [str(n)] for a non-negative integer, and for any integer. *)
Definition of_N (n : N) : string :=
  NilEmpty.string_of_uint (N.to_uint n).

Definition of_Z (z : Z) : string :=
  match z with
  | Zneg p => "-" +:+ of_N (Npos p)
  | _ => of_N (Z.to_N z)
  end.

(** [int(s)] on a string of decimal digits ([None] when [s] is empty
    or holds another character). *)
Definition to_N (s : string) : option N :=
  match s with
  | EmptyString => None
  | _ => N.of_uint <$> NilEmpty.uint_of_string s
  end.

Definition is_digit (a : ascii) : bool :=
  let n := nat_of_ascii a in (48 <=? n)%nat && (n <=? 57)%nat.

(** The longest prefix of decimal digits, and what follows it: the
    greedy match of the regular expression [\d*]. *)
Fixpoint span_digits (s : string) : string * string :=
  match s with
  | String a s' =>
      if is_digit a then
        let '(d, r) := span_digits s' in (String a d, r)
      else (EmptyString, s)
  | EmptyString => (EmptyString, EmptyString)
  end.

Fixpoint drop_prefix (p s : string) : option string :=
  match p, s with
  | EmptyString, _ => Some s
  | String a p', String b s' =>
      if Ascii.eqb a b then drop_prefix p' s' else None
  | String _ _, EmptyString => None
  end.

End Str.

(** ** posixpath.normpath *)

Module posixpath.

(** One turn of the loop over [comps]; [new_comps] grows at its end. *)
Definition norm_step (initial_slashes : nat) (new_comps : list string)
    (comp : string) : list string :=
  if (comp =? "")%string || (comp =? ".")%string then new_comps
  else if negb (comp =? "..")%string
          || (Nat.eqb initial_slashes 0 && bool_decide (new_comps = []))
          || bool_decide (last new_comps = Some "..")
       then new_comps ++ [comp]
       else removelast new_comps.

Definition normpath (path : string) : string :=
  if (path =? "")%string then "."
  else
    let initial_slashes :=
      if Str.startswith "/" path then
        if Str.startswith "//" path && negb (Str.startswith "///" path)
        then 2%nat else 1%nat
      else 0%nat in
    let comps := Str.split "/" path in
    let new_comps := fold_left (norm_step initial_slashes) comps [] in
    let path' := Str.join "/" new_comps in
    let path' := Str.join "" (repeat "/" initial_slashes) +:+ path' in
    if (path' =? "")%string then "." else path'.

End posixpath.

(** ** pathlib: pure path operations *)

Module pathlib.

(** [root.joinpath( *parts )] for parts that are single names. *)
Definition joinpath (p : Path) (parts : list string) : Path := p ++ parts.

Definition is_absolute (p : Path) : bool :=
  match p with
  | x :: _ => (x =? "/")%string
  | [] => false
  end.

(** [p.relative_to(other)]: the remainder, or [ValueError]. *)
Fixpoint relative_to (p other : Path) {struct other} : Result Path :=
  match other, p with
  | [], _ => Ok p
  | o :: other', x :: p' =>
      if (o =? x)%string then relative_to p' other'
      else Raise (ValueError "path is not in the subpath")
  | _ :: _, [] => Raise (ValueError "path is not in the subpath")
  end.

(** [p.parent]; the parent of an anchor or of a single name is itself
    (respectively [.]). *)
Definition parent (p : Path) : Path :=
  match p with
  | [] => []
  | [x] => if (x =? "/")%string then p else []
  | _ => removelast p
  end.

Definition name (p : Path) : string :=
  match p with
  | [x] => if (x =? "/")%string then "" else x
  | _ => default "" (last p)
  end.

(** A name as the file system stores it. *)
Definition plain_name (s : string) : Prop :=
  s <> "" /\ s <> "." /\ s <> ".." /\ s <> "/".

(** An absolute path without [.], [..] or empty components. *)
Definition canonical (p : Path) : Prop :=
  exists names, p = "/" :: names /\ Forall plain_name names.

End pathlib.

(** ** Path confinement *)

Section PathResolver.

(** [Path.resolve(strict=False)]: the operating system's answer for a
    path, symlinks included. *)
Variable resolve : Path -> Result Path.

Definition escape_msg : string := "Requested path escapes share root".

Definition candidate_of (root : Path) (relative : string) : Path :=
  if (relative =? "")%string || (relative =? ".")%string then root
  else
    let parts :=
      List.filter (fun p => negb ((p =? ".")%string || (p =? "")%string))
                  (Str.split "/" relative) in
    match parts with
    | [] => root
    | _ => pathlib.joinpath root parts
    end.

Definition _safe_join (root : Path) (relative : string) : Result Path :=
  let relative := posixpath.normpath (Str.strip "/" relative) in
  let candidate := candidate_of root relative in
  resolved <-
    match resolve candidate with
    | Raise (FileNotFoundError _) => Ok candidate
    | r => r
    end ;;
  match pathlib.relative_to resolved root with
  | Raise e =>
      if is_ValueError e then Raise (PermissionError escape_msg)
      else Raise e
  | Ok _ => Ok resolved
  end.

End PathResolver.

(** A file system without symbolic links resolves a path lexically. *)
Module Lexical.

Definition step (acc : list string) (comp : string) : list string :=
  if (comp =? "")%string || (comp =? ".")%string || (comp =? "/")%string
  then acc
  else if (comp =? "..")%string then removelast acc
  else acc ++ [comp].

Definition resolve (cwd : list string) (p : Path) : Result Path :=
  if pathlib.is_absolute p
  then Ok ("/" :: fold_left step (tail p) [])
  else Ok ("/" :: fold_left step p cwd).

End Lexical.

(** ** The disk *)

(** The persisted record of one upload session (the JSON object written
    by [_store_state]). *)
Record Meta : Type := {
  upload_id : string;
  target_path : string;
  temp_file : Path;
  total_size : Z;
  received : Z;
  meta_overwrite : bool;
  created_at : Z;
}.

(** What [_public_state] hands out: the record without [temp_file], with
    the derived [completed] flag. *)
Record View : Type := {
  v_upload_id : string;
  v_target_path : string;
  v_total_size : Z;
  v_received : Z;
  v_overwrite : bool;
  v_created_at : Z;
  v_completed : bool;
}.

(** A regular file holds either a JSON session record (kept as the record
    it decodes to) or bytes that do not decode as one. *)
Inductive Content : Type :=
| Bytes (data : bytes)
| Json (m : Meta).

Inductive Node : Type :=
| Dir
| File (c : Content).

Abbreviation FS := (gmap (list string) Node).

Module fsops.

Definition path_exists (fs : FS) (p : Path) : bool :=
  bool_decide (is_Some (fs !! p)).

Definition is_dir (fs : FS) (p : Path) : bool :=
  match fs !! p with
  | Some Dir => true
  | _ => false
  end.

Definition is_file (fs : FS) (p : Path) : bool :=
  match fs !! p with
  | Some (File _) => true
  | _ => false
  end.

(** Why a new entry cannot be made at [p], if it cannot. *)
Definition parent_check (fs : FS) (p : Path) : Result unit :=
  match fs !! pathlib.parent p with
  | Some Dir => Ok tt
  | Some (File _) => Raise NotADirectoryError
  | None => Raise (FileNotFoundError "No such file or directory")
  end.

(** Opening [p] for writing, writing [c], closing. *)
Definition write_file (fs : FS) (p : Path) (c : Content) : Result FS :=
  match fs !! p with
  | Some Dir => Raise IsADirectoryError
  | Some (File _) => Ok (<[p := File c]> fs)
  | None => _ <- parent_check fs p ;; Ok (<[p := File c]> fs)
  end.

(** [p.touch()]: an existing entry is kept as it is. *)
Definition touch (fs : FS) (p : Path) : Result FS :=
  match fs !! p with
  | Some _ => Ok fs
  | None => _ <- parent_check fs p ;; Ok (<[p := File (Bytes [])]> fs)
  end.

(** [p.unlink()]. *)
Definition unlink (fs : FS) (p : Path) : Result FS :=
  match fs !! p with
  | Some (File _) => Ok (delete p fs)
  | Some Dir => Raise IsADirectoryError
  | None => Raise (FileNotFoundError "No such file or directory")
  end.

(** [p.mkdir(parents=True, exist_ok=True)], walking the prefixes of [p]
    from the anchor down. *)
Fixpoint mkdir_from (fs : FS) (made todo : list string) : Result FS :=
  match todo with
  | [] => Ok fs
  | x :: todo' =>
      let q := made ++ [x] in
      match fs !! q with
      | Some Dir => mkdir_from fs q todo'
      | Some (File _) =>
          match todo' with
          | [] => Raise (FileExistsError "File exists")
          | _ => Raise NotADirectoryError
          end
      | None => mkdir_from (<[q := Dir]> fs) q todo'
      end
  end.

Definition mkdir_parents (fs : FS) (p : Path) : Result FS :=
  mkdir_from fs [] p.

(** The bytes of a file after [seek(start); write(chunk)]; a gap past
    the old end reads as zeros. *)
Definition write_at (data : bytes) (start : nat) (chunk : bytes) : bytes :=
  match chunk with
  | [] => data
  | _ =>
      take start (data ++ repeat Byte.x00 (start - length data))
      ++ chunk ++ drop (start + length chunk) data
  end.

End fsops.

(** ** Upload sessions on disk *)

Section UploadManager.

Variable resolve : Path -> Result Path.

(** The text [json.dump] writes for a record; only its bytes matter,
    when a session file is read as plain data. *)
Variable json_dumps : Meta -> bytes.

Definition file_bytes (c : Content) : bytes :=
  match c with
  | Bytes data => data
  | Json m => json_dumps m
  end.

Record UploadManager : Type := {
  _state_dir : Path;
  _upload_dir : Path;
  _share_root : Path;
  _overwrite : bool;
}.

Variable self : UploadManager.

Definition _state_file (id : string) : Path :=
  _upload_dir self ++ [id +:+ ".json"].

Definition _temp_file (id : string) : Path :=
  _upload_dir self ++ [id +:+ ".part"].

Definition not_found_msg : string := "Upload session not found".

Definition _load_state (fs : FS) (id : string) : Result Meta :=
  match fs !! _state_file id with
  | None => Raise (FileNotFoundError not_found_msg)
  | Some Dir => Raise IsADirectoryError
  | Some (File (Bytes _)) => Raise JSONDecodeError
  | Some (File (Json m)) => Ok m
  end.

Definition _store_state (fs : FS) (id : string) (data : Meta) : Result FS :=
  fsops.write_file fs (_state_file id) (Json data).

Definition _public_state (meta : Meta) : View :=
  {| v_upload_id := upload_id meta;
     v_target_path := target_path meta;
     v_total_size := total_size meta;
     v_received := received meta;
     v_overwrite := meta_overwrite meta;
     v_created_at := created_at meta;
     v_completed := (total_size meta <=? received meta)
                    && (0 <? total_size meta) |}.

(** ** Python dict with insertion order *)

Fixpoint dict_set {V} (k : string) (v : V) (d : list (string * V))
  : list (string * V) :=
  match d with
  | [] => [(k, v)]
  | (k', v') :: d' =>
      if (k' =? k)%string then (k, v) :: d'
      else (k', v') :: dict_set k v d'
  end.

(** The name of [p] when it is an entry of [dir]. *)
Definition entry_name (dir p : Path) : option string :=
  match pathlib.relative_to p dir with
  | Ok [n] => Some n
  | _ => None
  end.

(** The entries of [dir] named [*.json], in the order the directory
    is enumerated. *)
Definition glob_json (fs : FS) (dir : Path) : list (Path * Node) :=
  List.filter
    (fun e => match entry_name dir (fst e) with
              | Some n => Str.endswith ".json" n
              | None => false
              end)
    (map_to_list fs).

Fixpoint scan_sessions (entries : list (Path * Node))
    (sessions : list (string * Meta)) : Result (list (string * Meta)) :=
  match entries with
  | [] => Ok sessions
  | (_, Dir) :: rest => Raise IsADirectoryError
  | (_, File (Bytes _)) :: rest => scan_sessions rest sessions
  | (_, File (Json data)) :: rest =>
      scan_sessions rest (dict_set (upload_id data) data sessions)
  end.

Definition _list_sessions (fs : FS) : Result (list (string * Meta)) :=
  scan_sessions (glob_json fs (_upload_dir self)) [].

Definition session_matches (target_relative : string) (size : Z)
    (state : Meta) : bool :=
  (target_path state =? target_relative)%string
  && (total_size state =? size).

Definition dir_target_msg : string := "Target path points to a directory".

(** The record of a session just created. *)
Definition fresh_meta (uuid : string) (now : Z) (target_relative : string)
    (size : Z) (overwrite : bool) : Meta :=
  {| upload_id := uuid;
     target_path := target_relative;
     temp_file := _temp_file uuid;
     total_size := size;
     received := 0;
     meta_overwrite := overwrite;
     created_at := now |}.

(** [uuid] stands for [uuid.uuid4().hex] and [now] for [time.time()],
    as drawn by this call. The result pairs what the call returns or
    raises with the disk it leaves. *)
Definition create_session (fs : FS) (uuid : string) (now : Z)
    (target_relative : string) (size : Z) (resume : bool)
    (overwrite : option bool) : Result View * FS :=
  match _safe_join resolve (_share_root self) target_relative with
  | Raise e => (Raise e, fs)
  | Ok tp =>
      if fsops.is_dir fs tp then (Raise (ValueError dir_target_msg), fs)
      else
        let overwrite := default (_overwrite self) overwrite in
        let found :=
          if resume then
            sessions <- _list_sessions fs ;;
            Ok (List.find (session_matches target_relative size)
                          (map snd sessions))
          else Ok None in
        match found with
        | Raise e => (Raise e, fs)
        | Ok (Some state) => (Ok (_public_state state), fs)
        | Ok None =>
            let temp := _temp_file uuid in
            let meta := fresh_meta uuid now target_relative size overwrite in
            match _store_state fs uuid meta with
            | Raise e => (Raise e, fs)
            | Ok fs1 =>
                match fsops.touch fs1 temp with
                | Raise e => (Raise e, fs1)
                | Ok fs2 => (Ok (_public_state meta), fs2)
                end
            end
        end
  end.

Definition _delete_state (fs : FS) (id : string) : Result FS :=
  fs1 <- (if fsops.path_exists fs (_state_file id)
          then fsops.unlink fs (_state_file id) else Ok fs) ;;
  if fsops.path_exists fs1 (_temp_file id)
  then fsops.unlink fs1 (_temp_file id) else Ok fs1.

(** [shutil.move(src, dst)]. A regular file is renamed onto the
    destination (replacing a file there) or into it when it is a
    directory; a directory takes its whole subtree along. *)
Definition is_under (dir p : Path) : bool :=
  match pathlib.relative_to p dir with
  | Ok _ => true
  | Raise _ => false
  end.

Definition rmtree (fs : FS) (p : Path) : FS :=
  filter (fun kv => is_under p (fst kv) = false) fs.

Definition rename_tree (fs : FS) (src dst : Path) : FS :=
  list_to_map
    (omap (M := list)
          (fun kv : Path * Node =>
             match pathlib.relative_to (fst kv) src with
             | Ok rest => Some (dst ++ rest, snd kv)
             | Raise _ => None
             end)
          (map_to_list fs))
  ∪ rmtree fs src.

Definition shutil_move (fs : FS) (src dst : Path) : Result FS :=
  if fsops.is_dir fs dst && bool_decide (src = dst) then Ok fs
  else
    let real_dst :=
      if fsops.is_dir fs dst then dst ++ [pathlib.name src] else dst in
    if fsops.is_dir fs dst && fsops.path_exists fs real_dst
    then Raise (OSError "Destination path already exists")
    else
      match fs !! src with
      | None => Raise (FileNotFoundError "No such file or directory")
      | Some (File c) =>
          _ <- fsops.parent_check fs real_dst ;;
          Ok (<[real_dst := File c]> (delete src fs))
      | Some Dir =>
          if is_under src real_dst
          then Raise (OSError "Cannot move a directory into itself")
          else if fsops.is_file fs real_dst
          then Raise (FileExistsError "File exists")
          else
            _ <- fsops.parent_check fs real_dst ;;
            Ok (rename_tree fs src real_dst)
      end.

Definition target_exists_msg (target : string) : string :=
  "Target file exists: " +:+ target.

Definition _finalize (fs : FS) (meta : Meta) : Result unit * FS :=
  match _safe_join resolve (_share_root self) (target_path meta) with
  | Raise e => (Raise e, fs)
  | Ok tp =>
      match fsops.mkdir_parents fs (pathlib.parent tp) with
      | Raise e => (Raise e, fs)
      | Ok fs1 =>
          if fsops.path_exists fs1 tp && negb (meta_overwrite meta)
          then (Raise (FileExistsError
                         (target_exists_msg (target_path meta))), fs1)
          else
            match shutil_move fs1 (temp_file meta) tp with
            | Raise e => (Raise e, fs1)
            | Ok fs2 =>
                match _delete_state fs2 (upload_id meta) with
                | Raise e => (Raise e, fs2)
                | Ok fs3 => (Ok tt, fs3)
                end
            end
      end
  end.

Definition chunk_start_msg (expected got : Z) : string :=
  "Unexpected chunk start: expected " +:+ Str.of_Z expected
  +:+ ", got " +:+ Str.of_Z got.

Definition set_received (meta : Meta) (r : Z) : Meta :=
  {| upload_id := upload_id meta;
     target_path := target_path meta;
     temp_file := temp_file meta;
     total_size := total_size meta;
     received := r;
     meta_overwrite := meta_overwrite meta;
     created_at := created_at meta |}.

(** Opening [path] for update, [seek(start)], [write(chunk)], flush,
    sync. *)
Definition write_chunk (fs : FS) (path : Path) (start : Z) (chunk : bytes)
  : Result FS :=
  match fs !! path with
  | None => Raise (FileNotFoundError "No such file or directory")
  | Some Dir => Raise IsADirectoryError
  | Some (File c) =>
      if start <? 0 then Raise (OSError "Invalid argument")
      else Ok (<[path :=
                   File (Bytes (fsops.write_at (file_bytes c)
                                  (Z.to_nat start) chunk))]> fs)
  end.

Definition append_chunk (fs : FS) (id : string) (start end_exclusive : Z)
    (chunk : bytes) : Result View * FS :=
  match _load_state fs id with
  | Raise e => (Raise e, fs)
  | Ok meta =>
      if negb (received meta =? start) then
        (Raise (ValueError (chunk_start_msg (received meta) start)), fs)
      else if end_exclusive <? start then
        (Raise (ValueError "Invalid range end"), fs)
      else if total_size meta <? end_exclusive then
        (Raise (ValueError "Chunk exceeds declared file size"), fs)
      else
        match write_chunk fs (temp_file meta) start chunk with
        | Raise e => (Raise e, fs)
        | Ok fs1 =>
            let meta := set_received meta end_exclusive in
            match _store_state fs1 id meta with
            | Raise e => (Raise e, fs1)
            | Ok fs2 =>
                if total_size meta <=? received meta then
                  match _finalize fs2 meta with
                  | (Raise e, fs3) => (Raise e, fs3)
                  | (Ok _, fs3) => (Ok (_public_state meta), fs3)
                  end
                else (Ok (_public_state meta), fs2)
            end
        end
  end.

Definition status (fs : FS) (id : string) : Result View :=
  meta <- _load_state fs id ;; Ok (_public_state meta).

Definition cancel (fs : FS) (id : string) : Result unit * FS :=
  match _delete_state fs id with
  | Raise e => (Raise e, fs)
  | Ok fs' => (Ok tt, fs')
  end.

End UploadManager.

(** ** The HTTP surface *)

Module HTTPStatus.
Inductive t : Type :=
| OK
| CREATED
| NO_CONTENT
| PARTIAL_CONTENT
| BAD_REQUEST
| FORBIDDEN
| NOT_FOUND
| REQUESTED_RANGE_NOT_SATISFIABLE.

Definition code (s : t) : Z :=
  match s with
  | OK => 200
  | CREATED => 201
  | NO_CONTENT => 204
  | PARTIAL_CONTENT => 206
  | BAD_REQUEST => 400
  | FORBIDDEN => 403
  | NOT_FOUND => 404
  | REQUESTED_RANGE_NOT_SATISFIABLE => 416
  end.

Definition eqb (a b : t) : bool := code a =? code b.
End HTTPStatus.

Record ServerConfig : Type := {
  share_root : Path;
  static_dir : Path;
  state_dir : Path;
  host : string;
  port : Z;
  read_only : bool;
  overwrite : bool;
}.

(** A decoded JSON value, as far as the handlers look at one. *)
#[warnings="-register-all"]
Inductive JValue : Type :=
| JNull
| JBool (b : bool)
| JInt (z : Z)
| JStr (s : string)
| JList (l : list JValue).

(** What [_read_json] makes of the request body. *)
Inductive RequestBody : Type :=
| NoBody
| Malformed
| JsonObject (fields : gmap string JValue).

(** The JSON document a handler answers with. *)
Inductive Payload : Type :=
| PSession (v : View)
| PCreated (rel_path : string)
| PDeleted (what : string)
| PMoved (source destination : string).

(** What a handler does to the connection, in order. [send_error] and
    [send_json] each write one complete response. *)
Inductive WireEvent : Type :=
| send_error (status : HTTPStatus.t) (message : string)
| send_json (status : HTTPStatus.t) (data : Payload)
| send_response (status : HTTPStatus.t)
| send_header (keyword value : string)
| end_headers
| wfile_write (data : bytes).

(** All bytes written as a response body. *)
Fixpoint body_of (trace : list WireEvent) : bytes :=
  match trace with
  | [] => []
  | wfile_write data :: rest => data ++ body_of rest
  | _ :: rest => body_of rest
  end.

Definition header_of (keyword : string) (trace : list WireEvent)
  : option string :=
  match List.find (fun ev => match ev with
                             | send_header k _ => (k =? keyword)%string
                             | _ => false
                             end) trace with
  | Some (send_header _ v) => Some v
  | _ => None
  end.

Definition status_of (trace : list WireEvent) : option HTTPStatus.t :=
  match trace with
  | send_error s _ :: _ | send_json s _ :: _ | send_response s :: _ => Some s
  | _ => None
  end.

(** The end state of one request: what went out, the exception that
    left the handler (if any), and the disk. *)
Record Outcome : Type := {
  wire : list WireEvent;
  raised : option Exn;
  disk : FS;
}.

Inductive ZipEntry : Type :=
| ZDir (arcname : string)
| ZFile (arcname : string) (data : bytes).

Definition DEFAULT_CHUNK_SIZE : Z := 1024 * 256.

Module pypath.

(** [Path(s)] for a string. *)
Definition of_str (s : string) : Path :=
  let names :=
    List.filter (fun p => negb ((p =? ".")%string || (p =? "")%string))
                (Str.split "/" s) in
  if Str.startswith "/" s then
    (if Str.startswith "//" s && negb (Str.startswith "///" s)
     then "//" else "/") :: names
  else names.

Definition as_posix (p : Path) : string :=
  match p with
  | [] => "."
  | a :: rest =>
      if Str.startswith "/" a then a +:+ Str.join "/" rest
      else Str.join "/" p
  end.

(** [os.scandir]: the entries of a directory, in enumeration order. *)
Definition listdir (fs : FS) (dir : Path) : list (string * Node) :=
  omap (M := list)
       (fun kv : Path * Node =>
          match pathlib.relative_to (fst kv) dir with
          | Ok [n] => Some (n, snd kv)
          | _ => None
          end)
       (map_to_list fs).

Definition dir_names (l : list (string * Node)) : list string :=
  omap (M := list)
       (fun e : string * Node =>
          match snd e with Dir => Some (fst e) | File _ => None end) l.

Definition file_names (l : list (string * Node)) : list string :=
  omap (M := list)
       (fun e : string * Node =>
          match snd e with File _ => Some (fst e) | Dir => None end) l.

(** [os.walk(top)], top-down; [None] when [fuel] levels do not reach
    the leaves. *)
Fixpoint os_walk (fuel : nat) (fs : FS) (top : Path)
  : option (list (Path * list string * list string)) :=
  let entries := listdir fs top in
  let dirs := dir_names entries in
  let files := file_names entries in
  match fuel with
  | O => match dirs with
         | [] => Some [(top, dirs, files)]
         | _ => None
         end
  | S n =>
      below ← mapM (fun d => os_walk n fs (top ++ [d])) dirs;
      Some ((top, dirs, files) :: concat below)
  end.

(** The length of the longest path on disk: enough levels for any
    walk. *)
Definition max_depth (fs : FS) : nat :=
  foldr Nat.max 0%nat (map (fun kv : Path * Node => length (fst kv))
                           (map_to_list fs)).

End pypath.

Definition quote : string := String (ascii_of_nat 34) EmptyString.

(** [int(s)] for a string: an optional sign and decimal digits. Blanks
    around the number and digit separators are not modelled. *)
Definition int_of_str (s : string) : Result Z :=
  let bad := Raise (ValueError ("invalid literal for int() with base 10: '"
                                +:+ s +:+ "'")) in
  match s with
  | String "-" d => match Str.to_N d with
                    | Some n => Ok (- Z.of_N n)
                    | None => bad
                    end
  | String "+" d => match Str.to_N d with
                    | Some n => Ok (Z.of_N n)
                    | None => bad
                    end
  | _ => match Str.to_N s with
         | Some n => Ok (Z.of_N n)
         | None => bad
         end
  end.

Definition type_error : Exn := TypeError "int() argument must be a number".
Definition attribute_error : Exn := AttributeError "object has no attribute".

(** [int(v)], [bool(v)] and use as a [str] for a decoded JSON value. *)
Definition py_int (v : JValue) : Result Z :=
  match v with
  | JInt z => Ok z
  | JBool b => Ok (if b then 1 else 0)
  | JStr s => int_of_str s
  | JNull | JList _ => Raise type_error
  end.

Definition py_bool (v : JValue) : bool :=
  match v with
  | JNull => false
  | JBool b => b
  | JInt z => negb (z =? 0)
  | JStr s => negb (s =? "")%string
  | JList l => match l with [] => false | _ => true end
  end.

Definition as_str (v : JValue) : Result string :=
  match v with
  | JStr s => Ok s
  | _ => Raise attribute_error
  end.

Definition getitem (body : gmap string JValue) (key : string)
  : Result JValue :=
  match body !! key with
  | Some v => Ok v
  | None => Raise (KeyError key)
  end.

Section HomeShareHandler.

Variable resolve : Path -> Result Path.
Variable json_dumps : Meta -> bytes.
(** [mimetypes.guess_type(name)[0]]. *)
Variable guess_type : string -> option string.
(** The bytes of the deflated archive holding the given entries. *)
Variable zip_encode : list ZipEntry -> bytes.

Variable config : ServerConfig.
Variable uploads : UploadManager.

Definition _read_json (body : RequestBody) : Result (gmap string JValue) :=
  match body with
  | NoBody => Ok ∅
  | Malformed => Raise (ValueError "Invalid JSON body")
  | JsonObject fields => Ok fields
  end.

Definition read_only_msg : string := "Server running in read-only mode".

Definition _require_write : bool * list WireEvent :=
  if read_only config
  then (false, [send_error HTTPStatus.FORBIDDEN read_only_msg])
  else (true, []).

Definition exn_message (e : Exn) : string :=
  match e with
  | PermissionError m | ValueError m | FileNotFoundError m
  | FileExistsError m | OSError m | RuntimeError m | TypeError m
  | AttributeError m => m
  | KeyError k => "'" +:+ k +:+ "'"
  | JSONDecodeError => "Expecting value"
  | IsADirectoryError => "Is a directory"
  | NotADirectoryError => "Not a directory"
  end.

(** *** Ranged download *)

(** The two digit groups of the pattern [bytes=D-D] matched at the
    start of [h], each possibly empty. *)
Definition match_range (h : string) : option (string * string) :=
  rest ← Str.drop_prefix "bytes=" h;
  let '(start_str, rest) := Str.span_digits rest in
  rest ← Str.drop_prefix "-" rest;
  let '(end_str, _) := Str.span_digits rest in
  Some (start_str, end_str).

(** The read loop of [_send_file] at offset [pos]; [None] when [fuel]
    turns do not exhaust [remaining]. *)
Fixpoint send_loop (fuel : nat) (data : bytes) (pos : nat)
    (remaining : Z) : option (list WireEvent) :=
  if remaining <=? 0 then Some []
  else
    match fuel with
    | O => None
    | S n =>
        let to_read := Z.min DEFAULT_CHUNK_SIZE remaining in
        let got := take (Z.to_nat to_read) (drop pos data) in
        match got with
        | [] => Some []
        | _ =>
            rest ← send_loop n data (pos + length got)%nat
                             (remaining - Z.of_nat (length got));
            Some (wfile_write got :: rest)
        end
    end.

Definition content_range (start end_ file_size : Z) : string :=
  "bytes " +:+ Str.of_Z start +:+ "-" +:+ Str.of_Z end_
  +:+ "/" +:+ Str.of_Z file_size.

Definition unsatisfied_range (file_size : Z) : string :=
  "bytes */" +:+ Str.of_Z file_size.

(** The range part of [_send_file]: start, end, status, and whether the
    range cannot be satisfied. *)
Definition select_range (file_size : Z) (range_header : option string)
  : Result (Z * Z * HTTPStatus.t * bool) :=
  let plain := Ok (0, file_size - 1, HTTPStatus.OK, false) in
  match range_header with
  | None => plain
  | Some h =>
      if (h =? "")%string then plain
      else
        match match_range h with
        | None => plain
        | Some (start_str, end_str) =>
            start <- (if (start_str =? "")%string then Ok 0
                      else int_of_str start_str) ;;
            end_ <- (if (end_str =? "")%string then Ok (file_size - 1)
                     else int_of_str end_str) ;;
            if file_size <=? start
            then Ok (start, end_,
                     HTTPStatus.REQUESTED_RANGE_NOT_SATISFIABLE, true)
            else
              let end_ := if file_size <=? end_ then file_size - 1
                          else end_ in
              Ok (start, end_, HTTPStatus.PARTIAL_CONTENT, false)
        end
  end.

Definition _send_file (fs : FS) (range_header : option string)
    (rel_path : string) : Result (list WireEvent) :=
  file_path <- _safe_join resolve (share_root config) rel_path ;;
  match fs !! file_path with
  | None | Some Dir =>
      Ok [send_error HTTPStatus.NOT_FOUND "File not found"]
  | Some (File c) =>
      let data := file_bytes json_dumps c in
      let file_size := Z.of_nat (length data) in
      range <- select_range file_size range_header ;;
      let '(start, end_, status, unsatisfiable) := range in
      if unsatisfiable then
        Ok [send_response HTTPStatus.REQUESTED_RANGE_NOT_SATISFIABLE;
            send_header "Content-Range" (unsatisfied_range file_size);
            end_headers]
      else
        let mime := default "application/octet-stream"
                            (guess_type (pathlib.name file_path)) in
        let content_length := end_ - start + 1 in
        let head :=
          [send_response status;
           send_header "Content-Type" mime;
           send_header "Accept-Ranges" "bytes";
           send_header "Content-Length" (Str.of_Z content_length)]
          ++ (if HTTPStatus.eqb status HTTPStatus.PARTIAL_CONTENT
              then [send_header "Content-Range"
                                (content_range start end_ file_size)]
              else [])
          ++ [end_headers] in
        match send_loop (Z.to_nat content_length) data (Z.to_nat start)
                        content_length with
        | Some sent => Ok (head ++ sent)
        | None => Raise (RuntimeError "read loop did not finish")
        end
  end.

(** *** Upload endpoints *)

(** The three digit groups of the pattern [bytes D-D/D] matched at the
    start of [h], none of them empty. *)
Definition match_content_range (h : string)
  : option (string * string * string) :=
  rest ← Str.drop_prefix "bytes " h;
  let '(a, rest) := Str.span_digits rest in
  rest ← Str.drop_prefix "-" rest;
  let '(b, rest) := Str.span_digits rest in
  rest ← Str.drop_prefix "/" rest;
  let '(c, _) := Str.span_digits rest in
  if (a =? "")%string || (b =? "")%string || (c =? "")%string
  then None else Some (a, b, c).

(** [rfile.read(n)]. *)
Definition rfile_read (rfile : bytes) (n : Z) : bytes :=
  if n <? 0 then rfile else take (Z.to_nat n) rfile.

(** The last piece of the request path. *)
Definition last_segment (path : string) : string :=
  default "" (last (Str.split "/" path)).

Definition answer (fs : FS) (trace : list WireEvent) : Outcome :=
  {| wire := trace; raised := None; disk := fs |}.

Definition escapes (fs : FS) (e : Exn) : Outcome :=
  {| wire := []; raised := Some e; disk := fs |}.

(** The [except] clauses of [do_PUT]: the response an exception of
    [append_chunk] is turned into, if any. *)
Definition except_PUT (e : Exn) : option (HTTPStatus.t * string) :=
  match e with
  | FileNotFoundError _ => Some (HTTPStatus.NOT_FOUND, not_found_msg)
  | ValueError _ | JSONDecodeError | FileExistsError _ =>
      Some (HTTPStatus.BAD_REQUEST, exn_message e)
  | PermissionError _ => Some (HTTPStatus.FORBIDDEN, exn_message e)
  | _ => None
  end.

(** [length] is the integer in the [Content-Length] header (0 when the
    header is absent) and [rfile] the bytes of the request body. *)
Definition do_PUT (fs : FS) (path : string) (length : Z)
    (content_range_header : option string) (rfile : bytes) : Outcome :=
  if negb (Str.startswith "/api/upload/" path) then
    answer fs [send_error HTTPStatus.NOT_FOUND "Unknown endpoint"]
  else
    let '(writable, refusal) := _require_write in
    if negb writable then answer fs refusal
    else
      let id := last_segment path in
      match content_range_header with
      | None | Some "" =>
          answer fs [send_error HTTPStatus.BAD_REQUEST
                                "Missing Content-Range header"]
      | Some h =>
          match match_content_range h with
          | None =>
              answer fs [send_error HTTPStatus.BAD_REQUEST
                                    "Invalid Content-Range header"]
          | Some (a, b, c) =>
              match int_of_str a, int_of_str b, int_of_str c with
              | Ok start, Ok end_, Ok total =>
                  if negb (length =? end_ - start + 1) then
                    answer fs [send_error HTTPStatus.BAD_REQUEST
                                          "Content-Length mismatch"]
                  else
                    let chunk := rfile_read rfile length in
                    match append_chunk resolve json_dumps uploads fs id
                                       start (end_ + 1) chunk with
                    | (Ok meta, fs') =>
                        answer fs' [send_json HTTPStatus.OK (PSession meta)]
                    | (Raise e, fs') =>
                        match except_PUT e with
                        | Some (status, message) =>
                            answer fs' [send_error status message]
                        | None => escapes fs' e
                        end
                    end
              | Raise e, _, _ | _, Raise e, _ | _, _, Raise e =>
                  escapes fs e
              end
          end
      end.

Definition do_DELETE (fs : FS) (path : string) : Outcome :=
  if negb (Str.startswith "/api/upload/" path) then
    answer fs [send_error HTTPStatus.NOT_FOUND "Unknown endpoint"]
  else
    let id := last_segment path in
    let reply := [send_json HTTPStatus.OK (PDeleted id)] in
    match cancel uploads fs id with
    | (Ok _, fs') => answer fs' reply
    | (Raise (FileNotFoundError _), fs') => answer fs' reply
    | (Raise e, fs') => escapes fs' e
    end.

(** *** ZIP bundling *)

Definition dir_arcname (p : Path) : string :=
  Str.rstrip "/" (pypath.as_posix p) +:+ "/".

Definition read_file (fs : FS) (p : Path) : Result bytes :=
  match fs !! p with
  | Some (File c) => Ok (file_bytes json_dumps c)
  | Some Dir => Raise IsADirectoryError
  | None => Raise (FileNotFoundError "No such file or directory")
  end.

Fixpoint collect {A B} (f : A -> Result B) (l : list A) : Result (list B) :=
  match l with
  | [] => Ok []
  | a :: l' => b <- f a ;; bs <- collect f l' ;; Ok (b :: bs)
  end.

(** The entries written for one step [(root, dirs, files)] of the walk
    below [path], requested as [rel]: the files, then the directories. *)
Definition walk_step_entries (fs : FS) (rel : string) (path : Path)
    (step : Path * list string * list string) : Result (list ZipEntry) :=
  let '(root_path, dirs, files) := step in
  fs_entries <-
    collect (fun item =>
               let abs_file := root_path ++ [item] in
               below <- pathlib.relative_to abs_file path ;;
               data <- read_file fs abs_file ;;
               Ok (ZFile (pypath.as_posix (pypath.of_str rel ++ below))
                         data))
            files ;;
  dir_entries <-
    collect (fun d =>
               below <- pathlib.relative_to (root_path ++ [d]) path ;;
               Ok (ZDir (dir_arcname (pypath.of_str rel ++ below))))
            dirs ;;
  Ok (fs_entries ++ dir_entries).

Definition path_not_found_msg (rel : string) : string :=
  "Path not found: " +:+ rel.

(** What one requested path adds to the archive. *)
Definition zip_one (fs : FS) (rel : string) : Result (list ZipEntry) :=
  path <- _safe_join resolve (share_root config) rel ;;
  if fsops.is_dir fs path then
    match pypath.os_walk (pypath.max_depth fs) fs path with
    | None => Raise (RuntimeError "walk did not finish")
    | Some steps =>
        below <- collect (walk_step_entries fs rel path) steps ;;
        Ok (ZDir (dir_arcname (pypath.of_str rel)) :: concat below)
    end
  else if fsops.is_file fs path then
    data <- read_file fs path ;;
    Ok [ZFile rel data]
  else Raise (FileNotFoundError (path_not_found_msg rel)).

Definition zip_filename (now : Z) : string :=
  "homeshare-" +:+ Str.of_Z now +:+ ".zip".

(** The loop of [_send_zip] over the requested paths: it stops at the
    first one that raises. *)
Definition zip_entries (fs : FS) (rel_paths : list string)
  : Result (list ZipEntry) :=
  entries <- collect (zip_one fs) rel_paths ;; Ok (concat entries).

(** [now] stands for [int(time.time())]. The trace is what reached the
    wire when the call returned or raised. *)
Definition _send_zip (fs : FS) (now : Z) (rel_paths : list string)
  : Result unit * list WireEvent :=
  match zip_entries fs rel_paths with
  | Raise e => (Raise e, [])
  | Ok entries =>
      let data := zip_encode entries in
      (Ok tt,
       [send_response HTTPStatus.OK;
        send_header "Content-Type" "application/zip";
        send_header "Content-Length" (Str.of_Z (Z.of_nat (length data)));
        send_header "Content-Disposition"
                    ("attachment; filename=" +:+ quote
                     +:+ zip_filename now +:+ quote);
        end_headers;
        wfile_write data])
  end.

(** *** POST endpoints *)

(** The [except] clauses of the POST endpoints; [with_404] tells
    whether [FileNotFoundError] is among them (delete, move, zip). *)
Definition except_POST (with_404 : bool) (e : Exn)
  : option (HTTPStatus.t * string) :=
  match e with
  | FileNotFoundError _ =>
      if with_404 then Some (HTTPStatus.NOT_FOUND, exn_message e)
      else None
  | KeyError _ | ValueError _ | JSONDecodeError =>
      Some (HTTPStatus.BAD_REQUEST, exn_message e)
  | PermissionError _ => Some (HTTPStatus.FORBIDDEN, exn_message e)
  | _ => None
  end.

Definition translate (with_404 : bool) (fs : FS) (e : Exn) : Outcome :=
  match except_POST with_404 e with
  | Some (status, message) => answer fs [send_error status message]
  | None => escapes fs e
  end.

Definition post_upload_session (fs : FS) (uuid : string) (now : Z)
    (request : RequestBody) : Outcome :=
  let '(writable, refusal) := _require_write in
  if negb writable then answer fs refusal
  else
    let args :=
      body <- _read_json request ;;
      target <- getitem body "path" ;;
      size_v <- getitem body "size" ;;
      size <- py_int size_v ;;
      let resume := match body !! "resume" with
                    | Some v => py_bool v
                    | None => false
                    end in
      let overwrite := match body !! "overwrite" with
                       | None | Some JNull => None
                       | Some v => Some (py_bool v)
                       end in
      target <- as_str target ;;
      Ok (target, size, resume, overwrite) in
    match args with
    | Raise e => translate false fs e
    | Ok (target, size, resume, overwrite) =>
        match create_session resolve uploads fs uuid now target size
                             resume overwrite with
        | (Raise e, fs') => translate false fs' e
        | (Ok meta, fs') =>
            answer fs' [send_json HTTPStatus.CREATED (PSession meta)]
        end
    end.

Definition post_mkdir (fs : FS) (request : RequestBody) : Outcome :=
  let '(writable, refusal) := _require_write in
  if negb writable then answer fs refusal
  else
    let made :=
      body <- _read_json request ;;
      rel_v <- getitem body "path" ;;
      rel_path <- as_str rel_v ;;
      target <- _safe_join resolve (share_root config) rel_path ;;
      fs' <- fsops.mkdir_parents fs target ;;
      Ok (rel_path, fs') in
    match made with
    | Raise e => translate false fs e
    | Ok (rel_path, fs') =>
        answer fs' [send_json HTTPStatus.OK (PCreated rel_path)]
    end.

Definition post_delete (fs : FS) (request : RequestBody) : Outcome :=
  let '(writable, refusal) := _require_write in
  if negb writable then answer fs refusal
  else
    let removed :=
      body <- _read_json request ;;
      rel_v <- getitem body "path" ;;
      rel_path <- as_str rel_v ;;
      target <- _safe_join resolve (share_root config) rel_path ;;
      if fsops.is_dir fs target then Ok (rel_path, rmtree fs target)
      else if fsops.path_exists fs target then
        fs' <- fsops.unlink fs target ;; Ok (rel_path, fs')
      else Raise (FileNotFoundError "Target not found") in
    match removed with
    | Raise e => translate true fs e
    | Ok (rel_path, fs') =>
        answer fs' [send_json HTTPStatus.OK (PDeleted rel_path)]
    end.

Definition post_move (fs : FS) (request : RequestBody) : Outcome :=
  let '(writable, refusal) := _require_write in
  if negb writable then answer fs refusal
  else
    match (body <- _read_json request ;;
           src_v <- getitem body "source" ;;
           src_s <- as_str src_v ;;
           source <- _safe_join resolve (share_root config) src_s ;;
           dst_v <- getitem body "destination" ;;
           dst_s <- as_str dst_v ;;
           dest <- _safe_join resolve (share_root config) dst_s ;;
           Ok (src_s, dst_s, source, dest)) with
    | Raise e => translate true fs e
    | Ok (src_s, dst_s, source, dest) =>
        match fsops.mkdir_parents fs (pathlib.parent dest) with
        | Raise e => translate true fs e
        | Ok fs1 =>
            match shutil_move fs1 source dest with
            | Raise e => translate true fs1 e
            | Ok fs2 =>
                answer fs2 [send_json HTTPStatus.OK (PMoved src_s dst_s)]
            end
        end
    end.

(** The strings a JSON list starts with. *)
Fixpoint leading_strs (l : list JValue) : list string :=
  match l with
  | JStr s :: l' => s :: leading_strs l'
  | _ => []
  end.

Definition post_zip (fs : FS) (now : Z) (request : RequestBody)
  : Outcome :=
  let paths :=
    body <- _read_json request ;;
    paths <- getitem body "paths" ;;
    match paths with
    | JList ((_ :: _) as l) => Ok l
    | _ => Raise (ValueError "paths must be a non-empty list")
    end in
  match paths with
  | Raise e => translate false fs e
  | Ok l =>
      let rel_paths := leading_strs l in
      let sent :=
        if Nat.eqb (length rel_paths) (length l)
        then _send_zip fs now rel_paths
        else
          (* an element that is not a string stops the loop when it
             is reached *)
          match zip_entries fs rel_paths with
          | Raise e => (Raise e, [])
          | Ok _ => (Raise attribute_error, [])
          end in
      match sent with
      | (Ok _, sent) => answer fs sent
      | (Raise (FileNotFoundError m), sent) =>
          answer fs (sent ++ [send_error HTTPStatus.NOT_FOUND m])
      | (Raise (PermissionError m), sent) =>
          answer fs (sent ++ [send_error HTTPStatus.FORBIDDEN m])
      | (Raise e, sent) =>
          {| wire := sent; raised := Some e; disk := fs |}
      end
  end.

(** [uuid] and [now] are the random token and the clock reading this
    request would draw. *)
Definition do_POST (fs : FS) (uuid : string) (now : Z) (path : string)
    (request : RequestBody) : Outcome :=
  if (path =? "/api/upload/session")%string then
    post_upload_session fs uuid now request
  else if (path =? "/api/mkdir")%string then post_mkdir fs request
  else if (path =? "/api/delete")%string then post_delete fs request
  else if (path =? "/api/move")%string then post_move fs request
  else if (path =? "/api/zip")%string then post_zip fs now request
  else answer fs [send_error HTTPStatus.NOT_FOUND "Unknown endpoint"].

End HomeShareHandler.

(** ** Start-up *)

(** [UploadManager.__init__]: the object, and the disk once the upload
    directory is there. *)
Definition UploadManager_init (fs : FS) (state_dir share_root : Path)
    (overwrite : bool) : Result (UploadManager * FS) :=
  let upload_dir := state_dir ++ ["uploads"] in
  fs' <- fsops.mkdir_parents fs upload_dir ;;
  Ok ({| _state_dir := state_dir;
         _upload_dir := upload_dir;
         _share_root := share_root;
         _overwrite := overwrite |}, fs').

(** The manager [run_server] builds from a configuration. *)
Definition uploads_of (config : ServerConfig) : UploadManager :=
  {| _state_dir := state_dir config;
     _upload_dir := state_dir config ++ ["uploads"];
     _share_root := share_root config;
     _overwrite := overwrite config |}.

(** ** Well-formed disks and stores *)

(** Every entry sits below directories, and the anchor is one. *)
Definition tree_shaped (fs : FS) : Prop :=
  forall p node, fs !! p = Some node ->
    (forall q x rest, p = q ++ x :: rest -> q <> [] -> fs !! q = Some Dir)
    /\ (forall x, p = [x] -> node = Dir).

(** The same, as a check that runs. *)
Definition tree_shapedb (fs : FS) : bool :=
  forallb
    (fun kv : Path * Node =>
       forallb (fun k => fsops.is_dir fs (take k (fst kv)))
               (seq 1 (length (fst kv) - 1))
       && match fst kv, snd kv with
          | [_], File _ => false
          | _, _ => true
          end)
    (map_to_list fs).

(** [sessions_wf] and the bounds of every record, as checks that run. *)
Definition sessions_wfb (self : UploadManager) (fs : FS) : bool :=
  forallb
    (fun kv : Path * Node =>
       match snd kv with
       | File (Json m) =>
           bool_decide (fst kv = _state_file self (upload_id m))
           && bool_decide (temp_file m = _temp_file self (upload_id m))
       | _ => true
       end)
    (map_to_list fs).

Definition boundsb (fs : FS) : bool :=
  forallb
    (fun kv : Path * Node =>
       match snd kv with
       | File (Json m) => (0 <=? received m) && (received m <=? total_size m)
       | _ => true
       end)
    (map_to_list fs).

(** Every session record on disk is the file of its own id and names
    the staging file of its own id, as [create_session] writes it. *)
Definition sessions_wf (self : UploadManager) (fs : FS) : Prop :=
  forall p m, fs !! p = Some (File (Json m)) ->
    p = _state_file self (upload_id m)
    /\ temp_file m = _temp_file self (upload_id m).

Definition within_bounds (m : Meta) : Prop :=
  0 <= received m <= total_size m.

Definition store_ok (self : UploadManager) (fs : FS) : Prop :=
  sessions_wf self fs
  /\ forall p m, fs !! p = Some (File (Json m)) -> within_bounds m.

(** The session records of [fs'] are records of [fs] at the same place,
    but for the one written at [new]. *)
Definition json_from (fs fs' : FS) (new : option (Path * Meta)) : Prop :=
  forall p m, fs' !! p = Some (File (Json m)) ->
    fs !! p = Some (File (Json m)) \/ new = Some (p, m).

(** ** The operations of the session store, as one step *)

Inductive StoreOp : Type :=
| OpCreate (uuid : string) (now : Z) (target_relative : string) (size : Z)
           (resume : bool) (overwrite : option bool)
| OpAppend (id : string) (start end_exclusive : Z) (chunk : bytes)
| OpStatus (id : string)
| OpCancel (id : string).

Definition perform (resolve : Path -> Result Path)
    (json_dumps : Meta -> bytes) (self : UploadManager) (fs : FS)
    (op : StoreOp) : Result (option View) * FS :=
  match op with
  | OpCreate uuid now target size resume overwrite =>
      match create_session resolve self fs uuid now target size resume
                           overwrite with
      | (Ok v, fs') => (Ok (Some v), fs')
      | (Raise e, fs') => (Raise e, fs')
      end
  | OpAppend id start end_exclusive chunk =>
      match append_chunk resolve json_dumps self fs id start end_exclusive
                         chunk with
      | (Ok v, fs') => (Ok (Some v), fs')
      | (Raise e, fs') => (Raise e, fs')
      end
  | OpStatus id =>
      match status self fs id with
      | Ok v => (Ok (Some v), fs)
      | Raise e => (Raise e, fs)
      end
  | OpCancel id =>
      match cancel self fs id with
      | (Ok _, fs') => (Ok None, fs')
      | (Raise e, fs') => (Raise e, fs')
      end
  end.

(** What a step needs for the stated bounds: a declared size that is
    not negative, and a token no session file carries yet. *)
Definition admissible (self : UploadManager) (fs : FS) (op : StoreOp)
  : Prop :=
  match op with
  | OpCreate uuid _ _ size _ _ =>
      0 <= size /\ fs !! _state_file self uuid = None
  | _ => True
  end.

(** No session loses received bytes or changes its declared size from
    [fs] to [fs']. *)
Definition monotone_step (self : UploadManager) (fs fs' : FS) : Prop :=
  forall id m m',
    _load_state self fs id = Ok m -> _load_state self fs' id = Ok m' ->
    received m <= received m' /\ total_size m' = total_size m.

(** A run of operations: the results in order, and the disk at the end. *)
Fixpoint run_ops (resolve : Path -> Result Path)
    (json_dumps : Meta -> bytes) (self : UploadManager) (fs : FS)
    (ops : list StoreOp) : list (Result (option View)) * FS :=
  match ops with
  | [] => ([], fs)
  | op :: rest =>
      let '(r, fs1) := perform resolve json_dumps self fs op in
      let '(rs, fs2) := run_ops resolve json_dumps self fs1 rest in
      (r :: rs, fs2)
  end.

Fixpoint admissible_run (resolve : Path -> Result Path)
    (json_dumps : Meta -> bytes) (self : UploadManager) (fs : FS)
    (ops : list StoreOp) : Prop :=
  match ops with
  | [] => True
  | op :: rest =>
      admissible self fs op
      /\ admissible_run resolve json_dumps self
            (snd (perform resolve json_dumps self fs op)) rest
  end.

(** ** Failure kinds and the status each one is answered with *)

Inductive FailureKind : Type :=
| PathEscape
| SessionNotFound
| SequenceMismatch
| RangeInvalid
| TargetExists
| PathNotFound
| Forbidden
| BadRequest.

(** The exception each kind is raised as ([Forbidden] is not raised: the
    gate answers directly). *)
Definition raised_as (k : FailureKind) : option Exn :=
  match k with
  | PathEscape => Some (PermissionError escape_msg)
  | SessionNotFound => Some (FileNotFoundError not_found_msg)
  | SequenceMismatch => Some (ValueError (chunk_start_msg 0 1))
  | RangeInvalid => Some (ValueError "Invalid range end")
  | TargetExists => Some (FileExistsError (target_exists_msg "f"))
  | PathNotFound => Some (FileNotFoundError (path_not_found_msg "f"))
  | Forbidden => None
  | BadRequest => Some (KeyError "path")
  end.

(** The status the handler that meets the kind answers with: chunk
    upload for the session failures, the POST endpoints for the rest. *)
Definition status_signal (k : FailureKind) : option HTTPStatus.t :=
  match k with
  | Forbidden =>
      status_of (snd (_require_write
                        {| share_root := []; static_dir := [];
                           state_dir := []; host := ""; port := 0;
                           read_only := true; overwrite := false |}))
  | SessionNotFound | SequenceMismatch | RangeInvalid | TargetExists =>
      e ← raised_as k; fst <$> except_PUT e
  | PathEscape | PathNotFound | BadRequest =>
      e ← raised_as k; fst <$> except_POST true e
  end.

(** The [Range] header a client sends for the bytes from [start] on, or
    for [start] through [e] (the command-line client sends the first
    form to resume a download). *)
Definition range_request (start : Z) (end_ : option Z) : string :=
  "bytes=" +:+ Str.of_Z start +:+ "-"
  +:+ match end_ with
      | Some e => Str.of_Z e
      | None => ""
      end.

(** A string that does not go on with a digit. *)
Definition stops_digits (s : string) : Prop :=
  match s with
  | String a _ => Str.is_digit a = false
  | EmptyString => True
  end.

(** A requested path that resolves but is not on disk. *)
Definition missing (resolve : Path -> Result Path) (config : ServerConfig)
    (fs : FS) (rel : string) : Prop :=
  exists path,
    _safe_join resolve (share_root config) rel = Ok path /\ fs !! path = None.

(** A requested path that resolves to a file or directory on disk. *)
Definition present (resolve : Path -> Result Path) (config : ServerConfig)
    (fs : FS) (rel : string) : Prop :=
  exists path node,
    _safe_join resolve (share_root config) rel = Ok path
    /\ fs !! path = Some node.

(** ** One request *)

Inductive Request : Type :=
| PUT (path : string) (length : Z) (content_range_header : option string)
      (rfile : bytes)
| POST (path : string) (body : RequestBody)
| DELETE (path : string).

(** The dispatch on the request method. [uuid] and [now] are the token
    and the clock reading the request would draw. *)
Definition handle (resolve : Path -> Result Path)
    (json_dumps : Meta -> bytes) (zip_encode : list ZipEntry -> bytes)
    (config : ServerConfig) (uploads : UploadManager) (fs : FS)
    (uuid : string) (now : Z) (request : Request) : Outcome :=
  match request with
  | PUT path length content_range_header rfile =>
      do_PUT resolve json_dumps config uploads fs path length
             content_range_header rfile
  | POST path body =>
      do_POST resolve json_dumps zip_encode config uploads fs uuid now path
              body
  | DELETE path => do_DELETE uploads fs path
  end.

(** The requests that change the disk when they succeed. *)
Definition mutating (request : Request) : bool :=
  match request with
  | PUT path _ _ _ => Str.startswith "/api/upload/" path
  | POST path _ =>
      (path =? "/api/upload/session")%string
      || (path =? "/api/mkdir")%string
      || (path =? "/api/delete")%string
      || (path =? "/api/move")%string
  | DELETE path => Str.startswith "/api/upload/" path
  end.

(** ** Sample data for closed instances *)

Module Sample.

Definition root : Path := ["/"; "srv"; "share"].
Definition state : Path := ["/"; "var"; "homeshare"].

Definition config (ro : bool) : ServerConfig :=
  {| share_root := root;
     static_dir := ["/"; "srv"; "static"];
     state_dir := state;
     host := "0.0.0.0";
     port := 8000;
     read_only := ro;
     overwrite := false |}.

Definition manager : UploadManager := uploads_of (config false).

(** No symbolic links anywhere, working directory [/]. *)
Definition resolve : Path -> Result Path := Lexical.resolve [].

Definition json_dumps (m : Meta) : bytes := [].
Definition guess_type (name : string) : option string := None.
Definition zip_encode (entries : list ZipEntry) : bytes :=
  flat_map (fun e => match e with
                     | ZDir _ => []
                     | ZFile _ data => data
                     end) entries.

Definition hello : bytes := [Byte.x68; Byte.x65; Byte.x6c; Byte.x6c; Byte.x6f].

(** A share holding [docs/] and [a.txt], and an empty upload directory. *)
Definition disk : FS :=
  list_to_map
    [(["/"], Dir);
     (["/"; "srv"], Dir);
     (root, Dir);
     (root ++ ["docs"], Dir);
     (root ++ ["a.txt"], File (Bytes hello));
     (["/"; "var"], Dir);
     (state, Dir);
     (state ++ ["uploads"], Dir)].

(** The disk after a session [u1] for [b.bin] of three bytes was made. *)
Definition disk_u1 : FS :=
  snd (create_session resolve manager disk "u1" 100 "b.bin" 3 false None).

(** The disk after a session [u2] for the existing [a.txt] was made. *)
Definition disk_u2 : FS :=
  snd (create_session resolve manager disk "u2" 100 "a.txt" 3 false None).

Definition meta_of (id target : string) (size got : Z) : Meta :=
  {| upload_id := id;
     target_path := target;
     temp_file := _temp_file manager id;
     total_size := size;
     received := got;
     meta_overwrite := false;
     created_at := 100 |}.

Definition abc : bytes := [Byte.x61; Byte.x62; Byte.x63].

End Sample.


From Stdlib Require Import Sorted.

(** ** Further definitions: plain path segments *)

(** [c in s]. *)
Fixpoint str_contains (c : ascii) (s : string) : bool :=
  match s with
  | EmptyString => false
  | String a s' => Ascii.eqb a c || str_contains c s'
  end.

(** A single path component as a client would name an entry: not empty,
    not [.] or [..], without a slash. *)
Definition segment (n : string) : Prop :=
  pathlib.plain_name n /\ str_contains "/" n = false.

(** [s.isdigit()] for a string of ASCII characters that is not empty
    ([all_digits] alone also holds of the empty string). *)
Fixpoint all_digits (s : string) : bool :=
  match s with
  | EmptyString => true
  | String a s' => Str.is_digit a && all_digits s'
  end.

(** No directory among the [*.json] entries of the upload directory, as
    a check that runs. *)
Definition no_json_dirb (self : UploadManager) (fs : FS) : bool :=
  forallb (fun e : Path * Node =>
             match snd e with Dir => false | File _ => true end)
          (glob_json fs (_upload_dir self)).

(** ** Further definitions: downloads *)

Definition is_write (ev : WireEvent) : bool :=
  match ev with
  | wfile_write _ => true
  | _ => false
  end.

(** The [Range] header asking for the last [k] bytes of a file, as
    HTTP writes it. *)
Definition suffix_range_request (k : Z) : string :=
  "bytes=-" +:+ Str.of_Z k.

(** ** Further definitions: browsing *)

(** [s.lower()] for a string of ASCII characters. *)
Definition lower_ascii (a : ascii) : ascii :=
  let n := nat_of_ascii a in
  if (65 <=? n)%nat && (n <=? 90)%nat then ascii_of_nat (n + 32) else a.

Fixpoint lower (s : string) : string :=
  match s with
  | EmptyString => EmptyString
  | String a s' => String (lower_ascii a) (lower s')
  end.

(** [sorted(l, key=...)], given the order [lt] of the keys: the sort is
    stable, so the result is the one of inserting each element, from the
    last to the first, before the first element that is not smaller. *)
Fixpoint insert_by {A} (lt : A -> A -> bool) (x : A) (l : list A) : list A :=
  match l with
  | [] => [x]
  | y :: l' => if lt y x then y :: insert_by lt x l' else x :: l
  end.

Definition sorted {A} (lt : A -> A -> bool) (l : list A) : list A :=
  foldr (insert_by lt) [] l.

(** The order of the keys [(not p.is_dir(), p.name.lower())]: tuples
    compare by their first components, then by their second. *)
Definition listing_key (e : string * Node) : bool * string :=
  (match snd e with Dir => false | File _ => true end, lower (fst e)).

Definition key_lt (a b : bool * string) : bool :=
  (negb (fst a) && fst b)
  || (Bool.eqb (fst a) (fst b) && String.ltb (snd a) (snd b)).

Definition entry_lt (a b : string * Node) : bool :=
  key_lt (listing_key a) (listing_key b).

(** One element of the [entries] list of a directory listing. *)
Record ListedEntry : Type := {
  le_name : string;
  le_type : string;
  le_size : Z;
  le_modified : string;
}.

Record Listing : Type := {
  listing_path : string;
  listing_entries : list ListedEntry;
}.

(** What [do_GET] answers with, beyond what the other handlers send. *)
Inductive GetPayload : Type :=
| GListing (payload : Listing)
| GInfo (share_root : string) (read_only overwrite : bool).

Inductive GetEvent : Type :=
| on_wire (ev : WireEvent)
| send_json_get (status : HTTPStatus.t) (data : GetPayload).

(** How a GET ends: with what was sent, with an exception that leaves
    the handler, or with the [IndexError] of a list subscript. *)
Inductive GetResult : Type :=
| Replied (trace : list GetEvent)
| Raised (e : Exn)
| RaisedIndexError.

(** [s[n:]]. *)
Fixpoint slice_from (n : nat) (s : string) : string :=
  match n, s with
  | O, _ => s
  | S n', String _ s' => slice_from n' s'
  | S _, EmptyString => EmptyString
  end.

(** [mime or "application/octet-stream"]. *)
Definition mime_or_default (mime : option string) : string :=
  match mime with
  | Some m => if (m =? "")%string then "application/octet-stream" else m
  | None => "application/octet-stream"
  end.

Section Browsing.

Variable resolve : Path -> Result Path.
Variable json_dumps : Meta -> bytes.
Variable guess_type : string -> option string.
(** [urllib.parse.unquote]. *)
Variable unquote : string -> string.
(** [stat().st_size] of a directory, and [_human_mtime(stat().st_mtime)]
    of any entry: the local time of its last change, as ISO text. *)
Variable dir_size : Path -> Z.
Variable modified_of : Path -> string.

Variable config : ServerConfig.
Variable uploads : UploadManager.

Definition _serve_static (fs : FS) (rel_path : string)
  : Result (list WireEvent) :=
  static_path <- _safe_join resolve (static_dir config) rel_path ;;
  if negb (fsops.path_exists fs static_path) then
    Ok [send_error HTTPStatus.NOT_FOUND "Static asset not found"]
  else
    let static_path :=
      if fsops.is_dir fs static_path then static_path ++ ["index.html"]
      else static_path in
    let mime := mime_or_default (guess_type (pathlib.name static_path)) in
    data <- read_file json_dumps fs static_path ;;
    Ok [send_response HTTPStatus.OK;
        send_header "Content-Type" mime;
        send_header "Content-Length" (Str.of_Z (Z.of_nat (length data)));
        end_headers;
        wfile_write data].

Definition st_size (path : Path) (node : Node) : Z :=
  match node with
  | Dir => dir_size path
  | File c => Z.of_nat (length (file_bytes json_dumps c))
  end.

Definition listed (path : Path) (e : string * Node) : ListedEntry :=
  {| le_name := fst e;
     le_type := match snd e with Dir => "dir" | File _ => "file" end;
     le_size := st_size (path ++ [fst e]) (snd e);
     le_modified := modified_of (path ++ [fst e]) |}.

Definition _list_directory (fs : FS) (rel_path : string) : Result Listing :=
  path <- _safe_join resolve (share_root config) rel_path ;;
  if negb (fsops.path_exists fs path) then
    Raise (FileNotFoundError "Path does not exist")
  else if negb (fsops.is_dir fs path) then
    Raise NotADirectoryError
  else
    let ordered := sorted entry_lt (pypath.listdir fs path) in
    let shown :=
      List.filter (fun e => negb (Str.startswith "." (fst e))) ordered in
    Ok {| listing_path :=
            (let stripped := Str.strip "/" rel_path in
             if (stripped =? "")%string then "/" else stripped);
          listing_entries := map (listed path) shown |}.

Definition helper (r : Result (list WireEvent)) : GetResult :=
  match r with
  | Ok trace => Replied (map on_wire trace)
  | Raise e => Raised e
  end.

(** [parsed_path] is [urlparse(self.path).path], [query_path] the first
    value of [path] in the query string ([""] when there is none), and
    [range_header] the [Range] header, if any. *)
Definition do_GET (fs : FS) (parsed_path query_path : string)
    (range_header : option string) : GetResult :=
  if (parsed_path =? "/")%string then
    helper (_serve_static fs "index.html")
  else if Str.startswith "/static/" parsed_path then
    helper (_serve_static fs (slice_from 8 parsed_path))
  else if Str.startswith "/files/" parsed_path then
    helper (_send_file resolve json_dumps guess_type config fs range_header
                       (unquote (slice_from 7 parsed_path)))
  else if (parsed_path =? "/api/list")%string then
    match _list_directory fs query_path with
    | Ok payload => Replied [send_json_get HTTPStatus.OK (GListing payload)]
    | Raise (FileNotFoundError m) =>
        Replied [on_wire (send_error HTTPStatus.NOT_FOUND m)]
    | Raise NotADirectoryError =>
        Replied [on_wire (send_error HTTPStatus.NOT_FOUND
                                     "Path is not a directory")]
    | Raise (PermissionError m) =>
        Replied [on_wire (send_error HTTPStatus.FORBIDDEN m)]
    | Raise e => Raised e
    end
  else if (parsed_path =? "/api/info")%string then
    Replied [send_json_get HTTPStatus.OK
               (GInfo (pypath.as_posix (share_root config))
                      (read_only config) (overwrite config))]
  else if Str.startswith "/api/upload/" parsed_path
          && Str.endswith "/status" parsed_path then
    match nth_error (Str.split "/" parsed_path) 3 with
    | None => RaisedIndexError
    | Some upload_id =>
        match status uploads fs upload_id with
        | Ok v => Replied [on_wire (send_json HTTPStatus.OK (PSession v))]
        | Raise (FileNotFoundError _) =>
            Replied [on_wire (send_error HTTPStatus.NOT_FOUND
                                         "Upload session not found")]
        | Raise e => Raised e
        end
    end
  else Replied [on_wire (send_error HTTPStatus.NOT_FOUND "Unknown endpoint")].

End Browsing.

(** ** Further definitions: start-up *)

(** The namespace [argparse] hands to [_parse_args]. *)
Record Namespace : Type := {
  arg_share_root : string;
  arg_port : Z;
  arg_host : string;
  arg_static_dir : string;
  arg_state_dir : string;
  arg_read_only : bool;
  arg_read_write : bool;
  arg_allow_overwrite : bool;
}.

(** [parser.error] prints its message and leaves the program. *)
Inductive Parsed : Type :=
| parser_error (message : string)
| parsed (config : ServerConfig) (fs : FS).

Section Startup.

Variable resolve : Path -> Result Path.
(** [Path.expanduser]. *)
Variable expanduser : Path -> Result Path.

Definition _parse_args (fs : FS) (args : Namespace) : Result Parsed :=
  share_root <- (p <- expanduser (pypath.of_str (arg_share_root args)) ;;
                 resolve p) ;;
  if negb (fsops.path_exists fs share_root)
     || negb (fsops.is_dir fs share_root) then
    Ok (parser_error ("share root must be an existing directory: "
                      +:+ pypath.as_posix share_root))
  else
    static_dir <- (p <- expanduser (pypath.of_str (arg_static_dir args)) ;;
                   resolve p) ;;
    if negb (fsops.path_exists fs static_dir) then
      Ok (parser_error ("static asset directory not found: "
                        +:+ pypath.as_posix static_dir))
    else
      state_dir <- (p <- expanduser (pypath.of_str (arg_state_dir args)) ;;
                    resolve p) ;;
      fs' <- fsops.mkdir_parents fs state_dir ;;
      let read_only :=
        if arg_read_write args then false
        else if arg_read_only args then true
        else true in
      Ok (parsed {| share_root := share_root;
                    static_dir := static_dir;
                    state_dir := state_dir;
                    host := arg_host args;
                    port := arg_port args;
                    read_only := read_only;
                    overwrite := arg_allow_overwrite args |} fs').

(** [run_server], up to the point where it starts to listen: the
    configuration, the upload manager and the disk. *)
Definition start (fs : FS) (args : Namespace)
  : Result (option (ServerConfig * UploadManager * FS)) :=
  p <- _parse_args fs args ;;
  match p with
  | parser_error _ => Ok None
  | parsed config fs1 =>
      made <- UploadManager_init fs1 (state_dir config) (share_root config)
                                 (overwrite config) ;;
      Ok (Some (config, fst made, snd made))
  end.

End Startup.

(** ** Further definitions: the command-line client *)

(** What [urlopen] comes back with: the response of an answer in the
    200s, the [HTTPError] it raises for any other status, or no answer
    at all when the handler was left by an exception. *)
Inductive Urlopen (A : Type) : Type :=
| Response (status : Z) (body : A)
| HTTPError (code : Z)
| RemoteDisconnected.
Arguments Response {A} status body.
Arguments HTTPError {A} code.
Arguments RemoteDisconnected {A}.

(** The exceptions that leave the client's methods. *)
Inductive ClientExn : Type :=
| client_HTTPError (code : Z)
| client_RemoteDisconnected
| client_RuntimeError (message : string)
| client_KeyError (key : string)
| client_local (e : Exn).

Inductive ClientResult (A : Type) : Type :=
| Done (a : A)
| Failed (e : ClientExn).
Arguments Done {A} a.
Arguments Failed {A} e.

Definition is_2xx (status : HTTPStatus.t) : bool :=
  (200 <=? HTTPStatus.code status) && (HTTPStatus.code status <? 300).

(** A response that carries bytes, as [_send_file] writes it. *)
Definition urlopen_bytes (r : Result (list WireEvent)) : Urlopen bytes :=
  match r with
  | Raise _ => RemoteDisconnected
  | Ok trace =>
      match status_of trace with
      | Some status =>
          if is_2xx status
          then Response (HTTPStatus.code status) (body_of trace)
          else HTTPError (HTTPStatus.code status)
      | None => RemoteDisconnected
      end
  end.

(** A response of the handlers that answer through [_send_json] or
    [send_error]; each status they pass to [send_error] is in the 400s. *)
Definition urlopen_json (out : Outcome) : Urlopen Payload :=
  match raised out, wire out with
  | Some _, _ => RemoteDisconnected
  | None, send_json status data :: _ =>
      if is_2xx status then Response (HTTPStatus.code status) data
      else HTTPError (HTTPStatus.code status)
  | None, send_error status _ :: _ => HTTPError (HTTPStatus.code status)
  | None, _ => RemoteDisconnected
  end.

(** [p.with_name(n)]. *)
Definition with_name (p : Path) (n : string) : Result Path :=
  if (pathlib.name p =? "")%string
  then Raise (ValueError "path has an empty name")
  else Ok (pathlib.parent p ++ [n]).

(** [fp.read(n)] at position [pos] of a file holding [data]; a negative
    [n] reads to the end. *)
Definition fp_read (data : bytes) (pos : nat) (n : Z) : bytes :=
  if n <? 0 then drop pos data else take (Z.to_nat n) (drop pos data).

(** [os.rename(src, dst)] for a regular file [src]. *)
Definition rename_file (fs : FS) (src dst : Path) : Result FS :=
  match fs !! src with
  | None => Raise (FileNotFoundError "No such file or directory")
  | Some Dir => Raise (OSError "not a regular file")
  | Some (File c) =>
      match fs !! dst with
      | Some Dir => Raise IsADirectoryError
      | _ =>
          _ <- fsops.parent_check fs dst ;;
          Ok (<[dst := File c]> (delete src fs))
      end
  end.

Section Client.

(** [self.chunk_size]. *)
Variable chunk_size : Z.

Variable resolve : Path -> Result Path.
Variable json_dumps : Meta -> bytes.
Variable guess_type : string -> option string.
Variable zip_encode : list ZipEntry -> bytes.
(** [stat().st_size] of a directory on the client's disk. *)
Variable local_dir_size : Path -> Z.

(** The server at the other end. *)
Variable config : ServerConfig.
Variable uploads : UploadManager.

(** The request [GET /files/<remote_path>] with the given [Range]
    header, taken to reach [_send_file] with [remote_path] as it was
    given (quoting by the client and unquoting by the server cancel). *)
Definition request_file (server : FS) (remote_path : string)
    (range_header : option string) : Urlopen bytes :=
  urlopen_bytes (_send_file resolve json_dumps guess_type config server
                            range_header remote_path).

(** The loop that copies the response to the open file: the bytes
    written, or [None] when [fuel] turns do not reach the end. *)
Fixpoint copy_loop (fuel : nat) (body : bytes) (pos : nat) : option bytes :=
  match fuel with
  | O => None
  | S n =>
      match fp_read body pos chunk_size with
      | [] => Some []
      | chunk =>
          rest ← copy_loop n body (pos + length chunk)%nat;
          Some (chunk ++ rest)
      end
  end.

(** Opening [p] in mode [ab] or [wb], writing [data], closing. *)
Definition open_write (fs : FS) (p : Path) (append : bool) (data : bytes)
  : Result FS :=
  match fs !! p with
  | Some Dir => Raise IsADirectoryError
  | Some (File c) =>
      Ok (<[p := File (Bytes ((if append then file_bytes json_dumps c
                               else []) ++ data))]> fs)
  | None => _ <- fsops.parent_check fs p ;; Ok (<[p := File (Bytes data)]> fs)
  end.

Definition local_size (fs : FS) (p : Path) : Z :=
  match fs !! p with
  | Some (File c) => Z.of_nat (length (file_bytes json_dumps c))
  | Some Dir => local_dir_size p
  | None => 0
  end.

(** [local] is the client's disk and [local_path] the destination,
    already expanded; the result pairs what the call returns or raises
    with the client's disk afterwards. *)
Definition download (server local : FS) (remote_path : string)
    (local_path : Path) (resume : bool) : ClientResult unit * FS :=
  match fsops.mkdir_parents local (pathlib.parent local_path) with
  | Raise e => (Failed (client_local e), local)
  | Ok local1 =>
      match with_name local_path (pathlib.name local_path +:+ ".part") with
      | Raise e => (Failed (client_local e), local1)
      | Ok tmp_path =>
          let existing :=
            if resume && fsops.path_exists local1 tmp_path
            then local_size local1 tmp_path else 0 in
          let headers :=
            if existing =? 0 then None
            else Some ("bytes=" +:+ Str.of_Z existing +:+ "-") in
          match request_file server remote_path headers with
          | HTTPError code => (Failed (client_HTTPError code), local1)
          | RemoteDisconnected => (Failed client_RemoteDisconnected, local1)
          | Response status body =>
              if (status =? 200) || (status =? 206) then
                match open_write local1 tmp_path (negb (existing =? 0)) []
                with
                | Raise e => (Failed (client_local e), local1)
                | Ok local2 =>
                    match copy_loop (S (length body)) body 0 with
                    | None =>
                        (Failed (client_RuntimeError "copy did not finish"),
                         local2)
                    | Some written =>
                        match open_write local2 tmp_path true written with
                        | Raise e => (Failed (client_local e), local2)
                        | Ok local3 =>
                            match rename_file local3 tmp_path local_path with
                            | Raise e => (Failed (client_local e), local3)
                            | Ok local4 => (Done tt, local4)
                            end
                        end
                    end
                end
              else
                (Failed (client_RuntimeError
                           ("Unexpected status " +:+ Str.of_Z status)),
                 local1)
          end
      end
  end.

(** The JSON body of [start_upload]. *)
Definition session_request (remote_path : string) (total_size : Z)
    (resume overwrite : bool) : RequestBody :=
  JsonObject {[ "path" := JStr remote_path;
                "size" := JInt total_size;
                "resume" := JBool resume;
                "overwrite" := JBool overwrite ]}.

(** [uuid] and [now] are what the server draws if it makes a session. *)
Definition start_upload (server : FS) (uuid : string) (now : Z)
    (remote_path : string) (total_size : Z) (resume overwrite : bool)
  : Urlopen Payload * FS :=
  let out := do_POST resolve json_dumps zip_encode config uploads server uuid
                     now "/api/upload/session"
                     (session_request remote_path total_size resume
                                      overwrite) in
  (urlopen_json out, disk out).

(** The loop of [upload]: [pos] is the position of the open file,
    [offset] the number the server last reported. *)
Fixpoint upload_loop (fuel : nat) (server : FS) (data : bytes)
    (upload_id : string) (file_size : Z) (pos : nat) (offset : Z)
  : ClientResult unit * FS :=
  if file_size <=? offset then (Done tt, server)
  else
    match fuel with
    | O => (Failed (client_RuntimeError "upload did not finish"), server)
    | S n =>
        match fp_read data pos (Z.min chunk_size (file_size - offset)) with
        | [] => (Done tt, server)
        | to_send =>
            let sent := Z.of_nat (length to_send) in
            let end_offset := offset + sent - 1 in
            let out :=
              do_PUT resolve json_dumps config uploads server
                     ("/api/upload/" +:+ upload_id) sent
                     (Some ("bytes " +:+ Str.of_Z offset +:+ "-"
                            +:+ Str.of_Z end_offset +:+ "/"
                            +:+ Str.of_Z file_size))
                     to_send in
            match urlopen_json out with
            | HTTPError code => (Failed (client_HTTPError code), disk out)
            | RemoteDisconnected =>
                (Failed client_RemoteDisconnected, disk out)
            | Response _ (PSession v) =>
                upload_loop n (disk out) data upload_id file_size
                            (pos + length to_send)%nat (v_received v)
            | Response _ _ =>
                upload_loop n (disk out) data upload_id file_size
                            (pos + length to_send)%nat (offset + sent)
            end
        end
    end.

(** [data] is the content of the local file. The result pairs what the
    call returns or raises with the server's disk afterwards. *)
Definition upload (server : FS) (uuid : string) (now : Z) (data : bytes)
    (remote_path : string) (resume overwrite : bool)
  : ClientResult unit * FS :=
  let file_size := Z.of_nat (length data) in
  match start_upload server uuid now remote_path file_size resume overwrite
  with
  | (HTTPError code, server1) => (Failed (client_HTTPError code), server1)
  | (RemoteDisconnected, server1) =>
      (Failed client_RemoteDisconnected, server1)
  | (Response _ (PSession session), server1) =>
      let offset := v_received session in
      if offset <? 0
      then (Failed (client_local (OSError "Invalid argument")), server1)
      else upload_loop (S (length data)) server1 data (v_upload_id session)
                       file_size (Z.to_nat offset) offset
  | (Response _ _, server1) => (Failed (client_KeyError "upload_id"), server1)
  end.

End Client.

(** ** More sample data *)

Module Scenario.

Definition ab : bytes := [Byte.x61; Byte.x62].

(** The disk of [Sample.disk_u1] once the first two bytes of session
    [u1] have arrived. *)
Definition disk_u1_partial : FS :=
  snd (append_chunk Sample.resolve Sample.json_dumps Sample.manager
                    Sample.disk_u1 "u1" 0 2 ab).

(** The disk after a session [u0] of declared size zero was made. *)
Definition disk_u0 : FS :=
  snd (create_session Sample.resolve Sample.manager Sample.disk "u0" 100
                      "empty.bin" 0 false None).

(** [Sample.disk] with a second file, [b.txt], beside [a.txt]. *)
Definition disk_two : FS :=
  <[Sample.root ++ ["b.txt"] := File (Bytes Sample.abc)]> Sample.disk.

(** [Sample.disk] with a folder [Zeta], a file [B.txt] and a hidden
    file in the share root. *)
Definition disk_mixed : FS :=
  <[Sample.root ++ [".hidden"] := File (Bytes [])]>
    (<[Sample.root ++ ["Zeta"] := Dir]>
       (<[Sample.root ++ ["B.txt"] := File (Bytes Sample.abc)]> Sample.disk)).

(** [Sample.disk] with the static directory and its [index.html]. *)
Definition disk_static : FS :=
  <[["/"; "srv"; "static"; "index.html"] := File (Bytes Sample.abc)]>
    (<[["/"; "srv"; "static"] := Dir]> Sample.disk).

Definition dir_size (p : Path) : Z := 4096.
Definition modified_of (p : Path) : string := "2024-01-01T00:00:00".
Definition unquote (s : string) : string := s.
Definition expanduser (p : Path) : Result Path := Ok p.

(** [--share-root /srv/share --static-dir /srv/static
    --state-dir /var/homeshare --read-only --read-write]. *)
Definition args : Namespace :=
  {| arg_share_root := "/srv/share";
     arg_port := 8000;
     arg_host := "0.0.0.0";
     arg_static_dir := "/srv/static";
     arg_state_dir := "/var/homeshare";
     arg_read_only := true;
     arg_read_write := true;
     arg_allow_overwrite := false |}.

(** The client's disk: a home directory holding the first two bytes
    of [a.txt], or all of them, in its staging file. *)
Definition home : Path := ["/"; "home"].

Definition local_partial : FS :=
  list_to_map
    [(["/"], Dir);
     (home, Dir);
     (home ++ ["a.txt.part"], File (Bytes (take 2 Sample.hello)))].

Definition local_full : FS :=
  list_to_map
    [(["/"], Dir);
     (home, Dir);
     (home ++ ["a.txt.part"], File (Bytes Sample.hello))].

End Scenario.
(** * Properties *)

(** ** Strings and paths *)

Lemma string_app_cons (x : ascii) (a b : string) :
  String x a +:+ b = String x (a +:+ b).
Proof. reflexivity. Qed.

Lemma string_app_assoc (a b c : string) : (a +:+ b) +:+ c = a +:+ (b +:+ c).
Proof.
  induction a as [|x a IH]; [done|].
  by rewrite !string_app_cons, IH.
Qed.

Lemma rev_app_acc (s acc : string) :
  String.rev_app s acc = String.rev_app s "" +:+ acc.
Proof.
  revert acc. induction s as [|a s IH]; intros acc; simpl; [done|].
  rewrite (IH (String a acc)), (IH (String a "")).
  by rewrite string_app_assoc.
Qed.

Lemma rev_append (a b : string) :
  String.rev (a +:+ b) = String.rev b +:+ String.rev a.
Proof.
  unfold String.rev. generalize "" at 1 3 as acc.
  induction a as [|c a IH]; intros acc.
  - apply rev_app_acc.
  - rewrite string_app_cons. simpl. apply IH.
Qed.

Lemma startswith_app (p s : string) : Str.startswith p (p +:+ s) = true.
Proof.
  induction p as [|a p IH]; [done|].
  rewrite string_app_cons. simpl. by rewrite Ascii.eqb_refl, IH.
Qed.

Lemma endswith_app (suf s : string) : Str.endswith suf (s +:+ suf) = true.
Proof. unfold Str.endswith. rewrite rev_append. apply startswith_app. Qed.

Lemma part_is_not_json (s : string) :
  Str.endswith ".json" (s +:+ ".part") = false.
Proof. unfold Str.endswith. rewrite rev_append. reflexivity. Qed.

Lemma relative_to_app (dir rest : Path) :
  pathlib.relative_to (dir ++ rest) dir = Ok rest.
Proof.
  induction dir as [|d dir IH]; simpl; [done|].
  by rewrite String.eqb_refl.
Qed.

Lemma relative_to_Ok (p other rest : Path) :
  pathlib.relative_to p other = Ok rest -> p = other ++ rest.
Proof.
  revert p. induction other as [|o other IH]; intros p H; simpl in *.
  - by inversion H.
  - destruct p as [|x p]; [done|].
    destruct (String.eqb_spec o x) as [->|]; [|done].
    by rewrite (IH _ H).
Qed.

Lemma relative_to_Raise (p other : Path) (e : Exn) :
  pathlib.relative_to p other = Raise e -> is_ValueError e = true.
Proof.
  revert p. induction other as [|o other IH]; intros p H; simpl in *.
  - done.
  - destruct p as [|x p]; [by inversion H|].
    destruct (o =? x)%string; [by eapply IH|by inversion H].
Qed.

Lemma entry_name_child (dir : Path) (n : string) :
  entry_name dir (dir ++ [n]) = Some n.
Proof. unfold entry_name. by rewrite relative_to_app. Qed.

Lemma entry_name_Some (dir p : Path) (n : string) :
  entry_name dir p = Some n -> p = dir ++ [n].
Proof.
  unfold entry_name. intros H.
  destruct (pathlib.relative_to p dir) as [r|] eqn:E; [|done].
  destruct r as [|x [|??]]; try done.
  inversion H; subst. by apply relative_to_Ok.
Qed.

(** ** Path confinement *)

Lemma lexical_step_plain (acc : list string) (comp : string) :
  Forall pathlib.plain_name acc ->
  Forall pathlib.plain_name (Lexical.step acc comp).
Proof.
  intros H. unfold Lexical.step.
  destruct (String.eqb_spec comp ""); simpl; [done|].
  destruct (String.eqb_spec comp "."); simpl; [done|].
  destruct (String.eqb_spec comp "/"); simpl; [done|].
  destruct (String.eqb_spec comp "..").
  - destruct acc as [|a acc] using rev_ind; [done|].
    rewrite removelast_last. by apply Forall_app in H as [H _].
  - apply Forall_app. split; [done|]. by repeat constructor.
Qed.

Lemma lexical_fold_plain (l acc : list string) :
  Forall pathlib.plain_name acc ->
  Forall pathlib.plain_name (fold_left Lexical.step l acc).
Proof.
  revert acc. induction l as [|x l IH]; intros acc H; simpl; [done|].
  apply IH. by apply lexical_step_plain.
Qed.

Lemma lexical_total (c : Path) : exists r, Lexical.resolve [] c = Ok r.
Proof. unfold Lexical.resolve. destruct (pathlib.is_absolute c); by eexists. Qed.

Lemma lexical_canonical (c r : Path) :
  Lexical.resolve [] c = Ok r -> pathlib.canonical r.
Proof.
  unfold Lexical.resolve, pathlib.canonical. intros H.
  destruct (pathlib.is_absolute c); inversion H; subst;
    (eexists; split; [done|]; by apply lexical_fold_plain).
Qed.

(** With a resolver that does not raise, escaping is the only failure. *)
Lemma safe_join_Raise (resolve : Path -> Result Path) (root : Path)
    (relative : string) (e : Exn) :
  (forall c, exists r, resolve c = Ok r) ->
  _safe_join resolve root relative = Raise e ->
  e = PermissionError escape_msg.
Proof.
  intros Htotal. unfold _safe_join.
  destruct (Htotal (candidate_of root
                      (posixpath.normpath (Str.strip "/" relative))))
    as [r ->]. simpl.
  destruct (pathlib.relative_to r root) as [rest|e'] eqn:Hrel; [done|].
  rewrite (relative_to_Raise _ _ _ Hrel). by intros [= <-].
Qed.

Section PathResolverFacts.

Variable resolve : Path -> Result Path.

(** Resolution that does not insist on existence does not raise. *)
Hypothesis resolve_total : forall c, exists r, resolve c = Ok r.
(** What it returns is absolute, without [.] or [..] components. *)
Hypothesis resolve_canonical :
  forall c r, resolve c = Ok r -> pathlib.canonical r.


End PathResolverFacts.


Example safe_join_inside :
  _safe_join Sample.resolve Sample.root "/docs/./../a.txt/"
  = Ok (Sample.root ++ ["a.txt"]).
Proof. reflexivity. Qed.

Example safe_join_escape :
  _safe_join Sample.resolve Sample.root "docs/../../../etc/passwd"
  = Raise (PermissionError escape_msg).
Proof. reflexivity. Qed.

(** A symbolic link [share/out -> /etc] is caught after resolution. *)
Example safe_join_symlink_escape :
  _safe_join (fun p => if bool_decide (p = Sample.root ++ ["out"])
                       then Ok ["/"; "etc"] else Lexical.resolve [] p)
             Sample.root "out"
  = Raise (PermissionError escape_msg).
Proof. reflexivity. Qed.

(** ** The session store: basic facts *)

Lemma load_state_Ok (self : UploadManager) (fs : FS) (id : string)
    (m : Meta) :
  _load_state self fs id = Ok m
  <-> fs !! _state_file self id = Some (File (Json m)).
Proof.
  unfold _load_state.
  destruct (fs !! _state_file self id) as [[|[|]]|]; split; intros H;
    by inversion H.
Qed.

Lemma path_exists_true (fs : FS) (p : Path) (node : Node) :
  fs !! p = Some node -> fsops.path_exists fs p = true.
Proof. intros H. unfold fsops.path_exists. apply bool_decide_eq_true. eauto. Qed.

Lemma path_exists_false (fs : FS) (p : Path) :
  fs !! p = None -> fsops.path_exists fs p = false.
Proof.
  intros H. unfold fsops.path_exists. apply bool_decide_eq_false.
  rewrite H. by intros [? ?].
Qed.

Lemma mkdir_from_dirs (todo made : list string) (fs : FS) :
  (forall k, (0 < k <= length todo)%nat ->
             fs !! (made ++ take k todo) = Some Dir) ->
  fsops.mkdir_from fs made todo = Ok fs.
Proof.
  revert made. induction todo as [|x todo IH]; intros made H; [done|].
  pose proof (H 1%nat ltac:(simpl; lia)) as H1.
  change (take 1 (x :: todo)) with [x] in H1.
  simpl. rewrite H1.
  apply IH. intros k Hk.
  rewrite <- app_assoc. apply (H (S k)). simpl. lia.
Qed.

Lemma parent_dirs (fs : FS) (tp : Path) (node : Node) :
  tree_shaped fs -> fs !! tp = Some node ->
  forall k, (0 < k <= length (pathlib.parent tp))%nat ->
            fs !! take k (pathlib.parent tp) = Some Dir.
Proof.
  intros Hts Htp k Hk. destruct (Hts _ _ Htp) as [Habove Hanchor].
  destruct tp as [|x [|y tp]].
  - simpl in Hk. lia.
  - unfold pathlib.parent in *.
    destruct (String.eqb_spec x "/") as [->|Hx].
    + simpl in Hk. replace k with 1%nat by lia. simpl.
      by rewrite (Hanchor "/" eq_refl) in Htp.
    + simpl in Hk. lia.
  - change (pathlib.parent (x :: y :: tp)) with (removelast (x :: y :: tp))
      in *.
    set (p := x :: y :: tp) in *.
    assert (p <> []) as Hne by done.
    destruct (exists_last Hne) as (front & z & Hp).
    rewrite Hp in Hk |- *. rewrite removelast_last in Hk |- *.
    assert (front = take k front ++ drop k front) as Hsplit
      by (by rewrite take_drop).
    destruct (drop k front ++ [z]) as [|w rest] eqn:Hrest.
    { by destruct (drop k front). }
    apply (Habove (take k front) w rest).
    + rewrite Hp, <- Hrest, app_assoc. by rewrite take_drop.
    + intros Hnil. apply (f_equal length) in Hnil.
      rewrite length_take in Hnil. simpl in Hnil. lia.
Qed.

(** ** Out-of-sequence chunks *)

Section StoreFacts.

Variable resolve : Path -> Result Path.
Variable json_dumps : Meta -> bytes.
Variable self : UploadManager.

(** C2. A chunk whose start is not the session's received offset is
    refused with [ValueError], and the call leaves the disk (session
    record and staging bytes included) exactly as it was. *)
Theorem out_of_sequence_chunk_rejected (fs : FS) (id : string) (meta : Meta)
    (start end_exclusive : Z) (chunk : bytes) :
  _load_state self fs id = Ok meta ->
  start <> received meta ->
  append_chunk resolve json_dumps self fs id start end_exclusive chunk
  = (Raise (ValueError (chunk_start_msg (received meta) start)), fs)
  /\ status self fs id = Ok (_public_state meta).
Proof.
  intros Hload Hne. unfold append_chunk, status. rewrite Hload. simpl.
  destruct (Z.eqb_spec (received meta) start) as [E|_]; [congruence|done].
Qed.

(** A target that resolves to an existing directory is refused by
    [create_session] with [ValueError] before anything is written. *)
Lemma create_session_directory (fs : FS) (uuid : string) (now : Z)
    (target : string) (size : Z) (resume : bool) (ov : option bool)
    (tp : Path) :
  _safe_join resolve (_share_root self) target = Ok tp ->
  fsops.is_dir fs tp = true ->
  create_session resolve self fs uuid now target size resume ov
  = (Raise (ValueError dir_target_msg), fs).
Proof. intros Hj Hd. unfold create_session. by rewrite Hj, Hd. Qed.

(** C3. Completing a session whose target exists, without permission to
    overwrite, fails with [FileExistsError]; the record then holds
    received = total size, the staging file is still there, and a target
    other than the session's own two files is untouched. *)
Theorem finalize_without_overwrite (fs : FS) (id : string) (meta : Meta)
    (end_exclusive : Z) (chunk : bytes) (staged : Content) (tp : Path)
    (node : Node) :
  tree_shaped fs ->
  _load_state self fs id = Ok meta ->
  fs !! temp_file meta = Some (File staged) ->
  0 <= received meta <= end_exclusive ->
  end_exclusive = total_size meta ->
  meta_overwrite meta = false ->
  _safe_join resolve (_share_root self) (target_path meta) = Ok tp ->
  fs !! tp = Some node ->
  exists fs',
    append_chunk resolve json_dumps self fs id (received meta) end_exclusive
                 chunk
    = (Raise (FileExistsError (target_exists_msg (target_path meta))), fs')
    /\ _load_state self fs' id = Ok (set_received meta (total_size meta))
    /\ fsops.is_file fs' (temp_file meta) = true
    /\ (tp <> temp_file meta -> tp <> _state_file self id ->
        fs' !! tp = Some node).
Proof.
  intros Hts Hload Htemp Hrange -> Hov Hjoin Htp.
  pose proof Hload as Hstate. apply load_state_Ok in Hstate.
  set (data := fsops.write_at (file_bytes json_dumps staged)
                              (Z.to_nat (received meta)) chunk).
  set (fs1 := <[temp_file meta := File (Bytes data)]> fs).
  set (meta' := set_received meta (total_size meta)).
  set (fs2 := <[_state_file self id := File (Json meta')]> fs1).
  assert (forall q, fs !! q = Some Dir -> fs2 !! q = Some Dir) as Hdirs.
  { intros q Hq. unfold fs2, fs1.
    rewrite !lookup_insert_ne; [done| |]; intros <-; congruence. }
  assert (exists n, fs2 !! tp = Some n) as [n Hn].
  { unfold fs2, fs1.
    destruct (decide (_state_file self id = tp)) as [<-|];
      [rewrite lookup_insert_eq; eauto|rewrite lookup_insert_ne by done].
    destruct (decide (temp_file meta = tp)) as [<-|];
      [rewrite lookup_insert_eq; eauto|rewrite lookup_insert_ne by done].
    eauto. }
  exists fs2. split; [|split; [|split]].
  - unfold append_chunk. rewrite Hload. simpl.
    rewrite Z.eqb_refl. simpl.
    destruct (Z.ltb_spec (total_size meta) (received meta)); [lia|].
    destruct (Z.ltb_spec (total_size meta) (total_size meta)); [lia|].
    unfold write_chunk. rewrite Htemp.
    destruct (Z.ltb_spec (received meta) 0); [lia|].
    fold data fs1 meta'.
    assert (exists c, fs1 !! _state_file self id = Some (File c)) as [c Hc].
    { unfold fs1.
      destruct (decide (temp_file meta = _state_file self id)) as [->|];
        [rewrite lookup_insert_eq|rewrite lookup_insert_ne by done]; eauto. }
    unfold _store_state, fsops.write_file. rewrite Hc. fold fs2.
    change (total_size meta' <=? received meta')
      with (total_size meta <=? total_size meta).
    rewrite Z.leb_refl.
    unfold _finalize.
    change (target_path meta') with (target_path meta).
    change (meta_overwrite meta') with (meta_overwrite meta).
    rewrite Hjoin, Hov. unfold fsops.mkdir_parents.
    rewrite mkdir_from_dirs.
    + by rewrite (path_exists_true _ _ _ Hn).
    + intros k Hk. simpl. apply Hdirs. by eapply parent_dirs.
  - apply load_state_Ok. unfold fs2. by rewrite lookup_insert_eq.
  - unfold fsops.is_file, fs2, fs1.
    destruct (decide (_state_file self id = temp_file meta)) as [->|];
      [by rewrite lookup_insert_eq|rewrite lookup_insert_ne by done].
    by rewrite lookup_insert_eq.
  - intros H1 H2. unfold fs2, fs1. by rewrite !lookup_insert_ne.
Qed.

End StoreFacts.

Lemma tree_shapedb_sound (fs : FS) : tree_shapedb fs = true -> tree_shaped fs.
Proof.
  unfold tree_shapedb, tree_shaped. intros H p node Hp.
  rewrite forallb_forall in H.
  specialize (H (p, node)). simpl in H.
  rewrite <- list_elem_of_In, elem_of_map_to_list in H.
  apply H, andb_true_iff in Hp as [Habove Hanchor]. split.
  - intros q x rest -> Hq.
    rewrite forallb_forall in Habove.
    specialize (Habove (length q)).
    rewrite take_app_length in Habove.
    unfold fsops.is_dir in Habove.
    destruct (fs !! q) as [[|]|]; [done| |];
      (enough (false = true) by done; apply Habove, in_seq;
       rewrite length_app; simpl; destruct q; [done|simpl; lia]).
  - intros x ->. by destruct node.
Qed.

Lemma out_of_sequence_chunk_rejected_witness :
  append_chunk Sample.resolve Sample.json_dumps Sample.manager
               Sample.disk_u1 "u1" 1 3 [Byte.x62; Byte.x63]
  = (Raise (ValueError (chunk_start_msg 0 1)), Sample.disk_u1)
  /\ status Sample.manager Sample.disk_u1 "u1"
     = Ok (_public_state (Sample.meta_of "u1" "b.bin" 3 0)).
Proof.
  apply (out_of_sequence_chunk_rejected Sample.resolve Sample.json_dumps
           Sample.manager Sample.disk_u1 "u1" (Sample.meta_of "u1" "b.bin" 3 0)
           1 3 [Byte.x62; Byte.x63]).
  - vm_compute. reflexivity.
  - simpl. lia.
Defined.

Lemma finalize_without_overwrite_witness :
  exists fs',
    append_chunk Sample.resolve Sample.json_dumps Sample.manager
                 Sample.disk_u2 "u2" 0 3 Sample.abc
    = (Raise (FileExistsError (target_exists_msg "a.txt")), fs')
    /\ _load_state Sample.manager fs' "u2"
       = Ok (set_received (Sample.meta_of "u2" "a.txt" 3 0) 3)
    /\ fsops.is_file fs' (_temp_file Sample.manager "u2") = true
    /\ (Sample.root ++ ["a.txt"] <> _temp_file Sample.manager "u2" ->
        Sample.root ++ ["a.txt"] <> _state_file Sample.manager "u2" ->
        fs' !! (Sample.root ++ ["a.txt"]) = Some (File (Bytes Sample.hello))).
Proof.
  apply (finalize_without_overwrite Sample.resolve Sample.json_dumps
           Sample.manager Sample.disk_u2 "u2"
           (Sample.meta_of "u2" "a.txt" 3 0) 3 Sample.abc (Bytes [])
           (Sample.root ++ ["a.txt"]) (File (Bytes Sample.hello))).
  - apply tree_shapedb_sound. vm_compute. reflexivity.
  - vm_compute. reflexivity.
  - vm_compute. reflexivity.
  - simpl. lia.
  - reflexivity.
  - reflexivity.
  - vm_compute. reflexivity.
  - vm_compute. reflexivity.
Defined.

(** The target keeps its five bytes, and the record says three of three. *)
Example finalize_without_overwrite_run :
  let '(r, fs') :=
    append_chunk Sample.resolve Sample.json_dumps Sample.manager
                 Sample.disk_u2 "u2" 0 3 Sample.abc in
  r = Raise (FileExistsError "Target file exists: a.txt")
  /\ fs' !! (Sample.root ++ ["a.txt"]) = Some (File (Bytes Sample.hello))
  /\ fs' !! _temp_file Sample.manager "u2" = Some (File (Bytes Sample.abc))
  /\ _load_state Sample.manager fs' "u2"
     = Ok (Sample.meta_of "u2" "a.txt" 3 3).
Proof. vm_compute. auto. Qed.

(** ** Uploads that target a directory *)

(** C10. A session whose target resolves to an existing directory is
    refused: [create_session] raises [ValueError] before anything is
    written, and the endpoint answers 400 with the disk as it was. *)
Theorem upload_to_directory_refused (resolve : Path -> Result Path)
    (json_dumps : Meta -> bytes) (zip_encode : list ZipEntry -> bytes)
    (config : ServerConfig) (uploads : UploadManager) (fs : FS)
    (uuid : string) (now : Z) (fields : gmap string JValue)
    (target : string) (size_v : JValue) (size : Z) (tp : Path) :
  read_only config = false ->
  fields !! "path" = Some (JStr target) ->
  fields !! "size" = Some size_v ->
  py_int size_v = Ok size ->
  _safe_join resolve (_share_root uploads) target = Ok tp ->
  fsops.is_dir fs tp = true ->
  (forall resume ov,
      create_session resolve uploads fs uuid now target size resume ov
      = (Raise (ValueError dir_target_msg), fs))
  /\ handle resolve json_dumps zip_encode config uploads fs uuid now
            (POST "/api/upload/session" (JsonObject fields))
     = {| wire := [send_error HTTPStatus.BAD_REQUEST dir_target_msg];
          raised := None;
          disk := fs |}.
Proof.
  intros Hrw Hpath Hsize Hint Hjoin Hdir. split.
  - intros resume ov. by apply create_session_directory with tp.
  - unfold handle, do_POST, post_upload_session, _require_write.
    rewrite Hrw. simpl. unfold getitem. rewrite Hpath, Hsize. simpl.
    rewrite Hint. simpl.
    by rewrite (create_session_directory resolve uploads fs uuid now target
                  size _ _ tp Hjoin Hdir).
Qed.

Lemma upload_to_directory_refused_witness :
  (forall resume ov,
      create_session Sample.resolve Sample.manager Sample.disk "u9" 7 "docs"
                     10 resume ov
      = (Raise (ValueError dir_target_msg), Sample.disk))
  /\ handle Sample.resolve Sample.json_dumps Sample.zip_encode
            (Sample.config false) Sample.manager Sample.disk "u9" 7
            (POST "/api/upload/session"
                  (JsonObject {[ "path" := JStr "docs"; "size" := JInt 10 ]}))
     = {| wire := [send_error HTTPStatus.BAD_REQUEST dir_target_msg];
          raised := None;
          disk := Sample.disk |}.
Proof.
  apply (upload_to_directory_refused Sample.resolve Sample.json_dumps
           Sample.zip_encode (Sample.config false) Sample.manager Sample.disk
           "u9" 7 {[ "path" := JStr "docs"; "size" := JInt 10 ]} "docs"
           (JInt 10) 10 (Sample.root ++ ["docs"])).
  - reflexivity.
  - vm_compute. reflexivity.
  - vm_compute. reflexivity.
  - reflexivity.
  - vm_compute. reflexivity.
  - vm_compute. reflexivity.
Defined.

(** ** The read-only gate *)

(** Chunk upload and the four writing POST endpoints answer 403 and
    leave the disk alone when the server is read-only. *)
Lemma read_only_gates_put_and_post (resolve : Path -> Result Path)
    (json_dumps : Meta -> bytes) (zip_encode : list ZipEntry -> bytes)
    (config : ServerConfig) (uploads : UploadManager) (fs : FS)
    (uuid : string) (now : Z) (request : Request) :
  read_only config = true ->
  mutating request = true ->
  (forall path, request <> DELETE path) ->
  handle resolve json_dumps zip_encode config uploads fs uuid now request
  = {| wire := [send_error HTTPStatus.FORBIDDEN read_only_msg];
       raised := None;
       disk := fs |}.
Proof.
  intros Hro Hmut Hnd.
  destruct request as [path len cr rfile|path body|path];
    unfold handle, mutating in *.
  - unfold do_PUT, _require_write. by rewrite Hmut, Hro.
  - unfold do_POST, post_upload_session, post_mkdir, post_delete, post_move,
      _require_write.
    rewrite Hro.
    repeat (destruct (_ =? _)%string; [done|]). done.
  - by destruct (Hnd path).
Qed.

(** C7, at the failing request. With the server read-only, cancelling an
    upload session is answered 200 and removes the session record and
    its staging file: [do_DELETE] never calls [_require_write]. *)
Theorem read_only_cancel_not_gated :
  let before := Sample.disk_u1 in
  let out := handle Sample.resolve Sample.json_dumps Sample.zip_encode
                    (Sample.config true) Sample.manager before "u9" 7
                    (DELETE "/api/upload/u1") in
  read_only (Sample.config true) = true
  /\ mutating (DELETE "/api/upload/u1") = true
  /\ _load_state Sample.manager before "u1"
     = Ok (Sample.meta_of "u1" "b.bin" 3 0)
  /\ fsops.is_file before (_temp_file Sample.manager "u1") = true
  /\ wire out = [send_json HTTPStatus.OK (PDeleted "u1")]
  /\ raised out = None
  /\ disk out !! _state_file Sample.manager "u1" = None
  /\ disk out !! _temp_file Sample.manager "u1" = None.
Proof. vm_compute. repeat split. Qed.

(** The same session is protected from a chunk upload. *)
Example read_only_put_gated :
  handle Sample.resolve Sample.json_dumps Sample.zip_encode
         (Sample.config true) Sample.manager Sample.disk_u1 "u9" 7
         (PUT "/api/upload/u1" 3 (Some "bytes 0-2/3") Sample.abc)
  = {| wire := [send_error HTTPStatus.FORBIDDEN read_only_msg];
       raised := None;
       disk := Sample.disk_u1 |}.
Proof. by apply read_only_gates_put_and_post. Qed.

(** ** Failure kinds and statuses *)



(** ** Decimal strings *)

Lemma string_app_nil_r (s : string) : s +:+ "" = s.
Proof. induction s as [|a s IH]; [done|]. by rewrite string_app_cons, IH. Qed.

Lemma drop_prefix_app (p s : string) : Str.drop_prefix p (p +:+ s) = Some s.
Proof.
  induction p as [|a p IH]; [done|].
  rewrite string_app_cons. simpl. by rewrite Ascii.eqb_refl.
Qed.

Lemma span_digits_uint (d : Decimal.uint) (rest : string) :
  stops_digits rest ->
  Str.span_digits (NilEmpty.string_of_uint d +:+ rest)
  = (NilEmpty.string_of_uint d, rest).
Proof.
  intros Hrest. induction d as [|d IH|d IH|d IH|d IH|d IH|d IH|d IH|d IH|d IH|d IH];
    simpl NilEmpty.string_of_uint;
    try (rewrite string_app_cons; simpl; by rewrite IH).
  change ("" +:+ rest) with rest.
  destruct rest as [|a rest]; [done|]. simpl in *. by rewrite Hrest.
Qed.

Lemma to_uint_nonnil (n : N) : N.to_uint n <> Decimal.Nil.
Proof. destruct n; [done|]. apply DecimalPos.Unsigned.to_uint_nonnil. Qed.

Lemma int_of_str_head (a : ascii) (s : string) :
  Str.is_digit a = true ->
  int_of_str (String a s)
  = match Str.to_N (String a s) with
    | Some n => Ok (Z.of_N n)
    | None => Raise (ValueError ("invalid literal for int() with base 10: '"
                                 +:+ String a s +:+ "'"))
    end.
Proof.
  destruct a as [[] [] [] [] [] [] [] []]; intros H;
    try discriminate H; reflexivity.
Qed.

Lemma int_of_str_of_N (n : N) : int_of_str (Str.of_N n) = Ok (Z.of_N n).
Proof.
  unfold Str.of_N. pose proof (to_uint_nonnil n) as Hnn.
  pose proof (DecimalN.Unsigned.of_to n) as Hof.
  pose proof (NilEmpty.usu (N.to_uint n)) as Husu.
  destruct (N.to_uint n) as [|d|d|d|d|d|d|d|d|d|d] eqn:E; [done|..];
    simpl NilEmpty.string_of_uint in *;
    (rewrite int_of_str_head by reflexivity);
    unfold Str.to_N; rewrite Husu; rewrite <- Hof; reflexivity.
Qed.

Lemma of_Z_nonneg (z : Z) : 0 <= z -> Str.of_Z z = Str.of_N (Z.to_N z).
Proof. destruct z; [done|done|lia]. Qed.

Lemma int_of_str_of_Z (z : Z) : 0 <= z -> int_of_str (Str.of_Z z) = Ok z.
Proof.
  intros H. rewrite of_Z_nonneg, int_of_str_of_N by done.
  by rewrite Z2N.id.
Qed.

Lemma of_N_nonempty (n : N) : Str.of_N n <> "".
Proof.
  unfold Str.of_N. pose proof (to_uint_nonnil n).
  by destruct (N.to_uint n).
Qed.

Lemma match_range_request (start : Z) (end_ : option Z) :
  0 <= start -> from_option (Z.le 0) True end_ ->
  match_range (range_request start end_)
  = Some (Str.of_Z start, from_option Str.of_Z "" end_).
Proof.
  intros Hs He. unfold match_range, range_request.
  rewrite drop_prefix_app. cbn [mbind option_bind].
  rewrite (of_Z_nonneg start Hs). unfold Str.of_N at 1.
  rewrite span_digits_uint by done.
  rewrite drop_prefix_app. cbn [mbind option_bind].
  destruct end_ as [e|]; cbn [from_option] in *; [|done].
  rewrite (of_Z_nonneg e He). unfold Str.of_N at 1.
  rewrite <- (string_app_nil_r (NilEmpty.string_of_uint _)).
  by rewrite span_digits_uint.
Qed.

(** ** Ranged download *)

Lemma body_of_app (a b : list WireEvent) :
  body_of (a ++ b) = body_of a ++ body_of b.
Proof.
  induction a as [|ev a IH]; [done|].
  destruct ev; simpl; rewrite ?IH; try done. by rewrite app_assoc.
Qed.

Lemma take_length_take {A} (t : nat) (l : list A) :
  take (length (take t l)) l = take t l.
Proof.
  rewrite length_take. destruct (Nat.min_spec t (length l)) as [[_ ->]|[? ->]];
    [done|]. rewrite !take_ge; [done|lia|lia].
Qed.

(** The read loop sends exactly the requested span, as far as the file
    goes, whenever it is given a turn per byte. *)
Lemma send_loop_body (fuel : nat) (data : bytes) (pos : nat) (remaining : Z) :
  (Z.to_nat remaining <= fuel)%nat ->
  exists sent,
    send_loop fuel data pos remaining = Some sent
    /\ body_of sent = take (Z.to_nat remaining) (drop pos data).
Proof.
  revert pos remaining.
  induction fuel as [|fuel IH]; intros pos remaining Hfuel.
  - exists []. simpl.
    destruct (Z.leb_spec remaining 0); [|lia].
    split; [done|]. by replace (Z.to_nat remaining) with 0%nat by lia.
  - simpl. destruct (Z.leb_spec remaining 0) as [Hle|Hpos].
    { exists []. split; [done|].
      by replace (Z.to_nat remaining) with 0%nat by lia. }
    set (t := Z.to_nat (Z.min DEFAULT_CHUNK_SIZE remaining)).
    assert (0 < t <= Z.to_nat remaining)%nat as Ht.
    { unfold t, DEFAULT_CHUNK_SIZE. lia. }
    destruct (take t (drop pos data)) as [|b got] eqn:Hgot.
    + exists []. split; [done|].
      destruct (drop pos data) as [|x l]; [by rewrite take_nil|].
      destruct t; [lia|done].
    + rewrite <- Hgot.
      set (k := length (take t (drop pos data))).
      assert (0 < k <= t)%nat as Hk.
      { unfold k. rewrite Hgot. split; [simpl; lia|].
        rewrite <- Hgot, length_take. lia. }
      destruct (IH (pos + k)%nat (remaining - Z.of_nat k)) as (rest & -> & Hrest);
        [lia|].
      eexists. split; [done|]. simpl. rewrite Hrest.
      rewrite <- drop_drop.
      replace (Z.to_nat (remaining - Z.of_nat k))
        with (Z.to_nat remaining - k)%nat by lia.
      rewrite <- (take_length_take t (drop pos data)) at 1. fold k.
      rewrite take_take_drop. f_equal. lia.
Qed.

Lemma range_request_nonempty (start : Z) (end_ : option Z) :
  (range_request start end_ =? "")%string = false.
Proof. reflexivity. Qed.

Lemma select_range_request (file_size start : Z) (end_ : option Z) :
  0 <= start -> from_option (Z.le 0) True end_ ->
  select_range file_size (Some (range_request start end_))
  = if file_size <=? start
    then Ok (start, default (file_size - 1) end_,
             HTTPStatus.REQUESTED_RANGE_NOT_SATISFIABLE, true)
    else Ok (start,
             if file_size <=? default (file_size - 1) end_
             then file_size - 1 else default (file_size - 1) end_,
             HTTPStatus.PARTIAL_CONTENT, false).
Proof.
  intros Hs He. unfold select_range.
  rewrite range_request_nonempty, match_range_request by done.
  assert ((Str.of_Z start =? "")%string = false) as ->.
  { apply String.eqb_neq. rewrite of_Z_nonneg by done. apply of_N_nonempty. }
  rewrite int_of_str_of_Z by done. cbn [bind].
  destruct end_ as [e|]; cbn [from_option default id] in *.
  - assert ((Str.of_Z e =? "")%string = false) as ->.
    { apply String.eqb_neq. rewrite of_Z_nonneg by done.
      apply of_N_nonempty. }
    by rewrite int_of_str_of_Z.
  - done.
Qed.

Section RangeTransmitter.

Variable resolve : Path -> Result Path.
Variable json_dumps : Meta -> bytes.
Variable guess_type : string -> option string.
Variable config : ServerConfig.


End RangeTransmitter.


(** The last byte of [a.txt], and a request past its end. *)
Example range_last_byte :
  _send_file Sample.resolve Sample.json_dumps Sample.guess_type
             (Sample.config true) Sample.disk (Some "bytes=4-") "a.txt"
  = Ok [send_response HTTPStatus.PARTIAL_CONTENT;
        send_header "Content-Type" "application/octet-stream";
        send_header "Accept-Ranges" "bytes";
        send_header "Content-Length" "1";
        send_header "Content-Range" "bytes 4-4/5";
        end_headers;
        wfile_write [Byte.x6f]].
Proof. vm_compute. reflexivity. Qed.

Example range_past_end :
  _send_file Sample.resolve Sample.json_dumps Sample.guess_type
             (Sample.config true) Sample.disk (Some "bytes=5-") "a.txt"
  = Ok [send_response HTTPStatus.REQUESTED_RANGE_NOT_SATISFIABLE;
        send_header "Content-Range" "bytes */5";
        end_headers].
Proof. vm_compute. reflexivity. Qed.

(** ** Walking the disk *)

Lemma listdir_elem (fs : FS) (dir : Path) (n : string) (node : Node) :
  (n, node) ∈ pypath.listdir fs dir <-> fs !! (dir ++ [n]) = Some node.
Proof.
  unfold pypath.listdir. rewrite list_elem_of_omap. split.
  - intros ([k v] & Hin & Hf). simpl in Hf.
    apply elem_of_map_to_list in Hin.
    destruct (pathlib.relative_to k dir) as [[|x [|??]]|] eqn:E; try done.
    inversion Hf; subst. by rewrite <- (relative_to_Ok _ _ _ E).
  - intros H. exists (dir ++ [n], node). split.
    + by apply elem_of_map_to_list.
    + simpl. by rewrite relative_to_app.
Qed.

Lemma dir_names_elem (fs : FS) (top : Path) (d : string) :
  d ∈ pypath.dir_names (pypath.listdir fs top)
  <-> fs !! (top ++ [d]) = Some Dir.
Proof.
  unfold pypath.dir_names. rewrite list_elem_of_omap. split.
  - intros ([n node] & Hin & Hf). simpl in Hf.
    destruct node; [|done]. inversion Hf; subst. by apply listdir_elem.
  - intros H. exists (d, Dir). split; [by apply listdir_elem|done].
Qed.

Lemma file_names_elem (fs : FS) (top : Path) (f : string) :
  f ∈ pypath.file_names (pypath.listdir fs top)
  <-> exists c, fs !! (top ++ [f]) = Some (File c).
Proof.
  unfold pypath.file_names. rewrite list_elem_of_omap. split.
  - intros ([n node] & Hin & Hf). simpl in Hf.
    destruct node as [|c]; [done|]. inversion Hf; subst.
    exists c. by apply listdir_elem.
  - intros [c H]. exists (f, File c). split; [by apply listdir_elem|done].
Qed.

Lemma foldr_max_bound (l : list nat) (x : nat) :
  x ∈ l -> (x <= foldr Nat.max 0 l)%nat.
Proof.
  induction l as [|y l IH]; [by intros ?%not_elem_of_nil|].
  intros [->|H]%elem_of_cons; simpl; [lia|]. specialize (IH H). lia.
Qed.

Lemma max_depth_bound (fs : FS) (p : Path) (node : Node) :
  fs !! p = Some node -> (length p <= pypath.max_depth fs)%nat.
Proof.
  intros H. unfold pypath.max_depth. apply foldr_max_bound.
  apply list_elem_of_fmap. exists (p, node). split; [done|].
  by apply elem_of_map_to_list.
Qed.

(** The walk ends when it is given as many levels as the disk is deep. *)
Lemma os_walk_total (fs : FS) (fuel : nat) (top : Path) :
  (pypath.max_depth fs <= length top + fuel)%nat ->
  is_Some (pypath.os_walk fuel fs top).
Proof.
  revert top. induction fuel as [|fuel IH]; intros top Hdepth; simpl.
  - destruct (pypath.dir_names (pypath.listdir fs top)) as [|d dirs] eqn:E;
      [done|].
    assert (d ∈ pypath.dir_names (pypath.listdir fs top)) as Hd
      by (rewrite E; left).
    apply dir_names_elem, max_depth_bound in Hd.
    rewrite length_app in Hd. simpl in Hd. lia.
  - assert (is_Some (mapM (fun d => pypath.os_walk fuel fs (top ++ [d]))
                          (pypath.dir_names (pypath.listdir fs top))))
      as [below ->]; [|done].
    apply mapM_is_Some, Forall_forall. intros d _. simpl. apply IH.
    rewrite length_app. simpl. lia.
Qed.

(** Every step of a walk is at or below its top, and lists files that
    are on disk. *)
Lemma os_walk_steps (fs : FS) (fuel : nat) (top : Path)
    (steps : list (Path * list string * list string)) :
  pypath.os_walk fuel fs top = Some steps ->
  forall root dirs files, (root, dirs, files) ∈ steps ->
    (exists rest, root = top ++ rest)
    /\ (forall f, f ∈ files -> exists c, fs !! (root ++ [f]) = Some (File c)).
Proof.
  revert top steps. induction fuel as [|fuel IH]; intros top steps; simpl.
  - destruct (pypath.dir_names (pypath.listdir fs top)); [|done].
    intros [= <-] root dirs files [= -> -> ->]%list_elem_of_singleton.
    split; [exists []; by rewrite app_nil_r|].
    intros f. by rewrite file_names_elem.
  - destruct (mapM _ _) as [below|] eqn:Hm; [|done]. simpl.
    intros [= <-] root dirs files [Hhere|Hbelow]%elem_of_cons.
    + inversion Hhere; subst.
      split; [exists []; by rewrite app_nil_r|].
      intros f. by rewrite file_names_elem.
    + apply list_elem_of_In, in_concat in Hbelow as (sub & Hsub & Hin).
      apply list_elem_of_In in Hsub, Hin.
      apply mapM_Some_1 in Hm.
      apply list_elem_of_lookup in Hsub as [i Hi].
      destruct (Forall2_lookup_r _ _ _ _ _ Hm Hi) as (d & _ & Hwalk).
      destruct (IH _ _ Hwalk _ _ _ Hin) as [[rest ->] Hfiles].
      split; [|done]. exists (d :: rest). by rewrite <- app_assoc.
Qed.

(** ** ZIP bundling *)

Lemma collect_ok {A B} (f : A -> Result B) (l : list A) :
  (forall x, x ∈ l -> exists r, f x = Ok r) -> exists rs, collect f l = Ok rs.
Proof.
  induction l as [|a l IH]; intros H; simpl; [by eexists|].
  destruct (H a) as [r ->]; [left|]. simpl.
  destruct IH as [rs ->]; [intros x Hx; apply H; by right|].
  by eexists.
Qed.

Lemma collect_Ok_inv {A B} (f : A -> Result B) (l : list A) (rs : list B) :
  collect f l = Ok rs -> forall x, x ∈ l -> exists r, f x = Ok r.
Proof.
  revert rs. induction l as [|a l IH]; intros rs; simpl.
  - intros _ x Hx. by apply not_elem_of_nil in Hx.
  - destruct (f a) as [b|] eqn:Ha; simpl; [|done].
    destruct (collect f l) as [bs|] eqn:Hl; simpl; [|done].
    intros _ x [->|Hx]%elem_of_cons; [by eexists|by eapply IH].
Qed.

Lemma collect_stops {A B} (f : A -> Result B) (before after : list A)
    (x : A) (e : Exn) :
  (forall y, y ∈ before -> exists r, f y = Ok r) ->
  f x = Raise e ->
  collect f (before ++ x :: after) = Raise e.
Proof.
  induction before as [|a l IH]; intros H Hx; simpl; [by rewrite Hx|].
  destruct (H a) as [r ->]; [left|]. simpl.
  rewrite IH; [done| |done]. intros y Hy. apply H. by right.
Qed.

Lemma collect_Raise {A B} (f : A -> Result B) (l : list A) (e : Exn) :
  collect f l = Raise e -> exists x, x ∈ l /\ f x = Raise e.
Proof.
  induction l as [|a l IH]; simpl; [done|].
  destruct (f a) as [b|e'] eqn:Ha; simpl.
  - destruct (collect f l) as [bs|e'] eqn:Hl; simpl; [done|].
    intros [= ->]. destruct IH as (x & Hx & Hfx); [done|].
    exists x. split; [by right|done].
  - intros [= ->]. exists a. split; [left|done].
Qed.

Section ArchiveStreamer.

Variable resolve : Path -> Result Path.
Variable json_dumps : Meta -> bytes.
Variable zip_encode : list ZipEntry -> bytes.
Variable config : ServerConfig.

Lemma walk_step_entries_ok (fs : FS) (rel : string) (path rest : Path)
    (dirs files : list string) :
  (forall f, f ∈ files ->
             exists c, fs !! ((path ++ rest) ++ [f]) = Some (File c)) ->
  exists es,
    walk_step_entries json_dumps fs rel path (path ++ rest, dirs, files)
    = Ok es.
Proof.
  intros Hfiles. unfold walk_step_entries.
  destruct (collect_ok
              (fun item =>
                 below <- pathlib.relative_to ((path ++ rest) ++ [item]) path ;;
                 data <- read_file json_dumps fs ((path ++ rest) ++ [item]) ;;
                 Ok (ZFile (pypath.as_posix (pypath.of_str rel ++ below)) data))
              files) as [fes ->].
  { intros f Hf. destruct (Hfiles f Hf) as [c Hc].
    rewrite <- app_assoc, relative_to_app. simpl.
    unfold read_file. rewrite app_assoc, Hc. by eexists. }
  simpl.
  destruct (collect_ok
              (fun d =>
                 below <- pathlib.relative_to ((path ++ rest) ++ [d]) path ;;
                 Ok (ZDir (dir_arcname (pypath.of_str rel ++ below))))
              dirs) as [des ->].
  { intros d _. rewrite <- app_assoc, relative_to_app. by eexists. }
  by eexists.
Qed.

Lemma zip_one_present (fs : FS) (rel : string) :
  present resolve config fs rel -> exists es, zip_one resolve json_dumps config fs rel = Ok es.
Proof.
  intros (path & node & Hjoin & Hnode). unfold zip_one. rewrite Hjoin. simpl.
  unfold fsops.is_dir, fsops.is_file, read_file. rewrite Hnode.
  destruct node as [|c]; [|by eexists].
  destruct (os_walk_total fs (pypath.max_depth fs) path ltac:(lia))
    as [steps Hsteps].
  rewrite Hsteps.
  destruct (collect_ok (walk_step_entries json_dumps fs rel path) steps)
    as [below ->]; [|by eexists].
  intros [[root dirs] files] Hin.
  destruct (os_walk_steps _ _ _ _ Hsteps _ _ _ Hin) as [[rest ->] Hfiles].
  by apply walk_step_entries_ok.
Qed.

Lemma zip_one_missing (fs : FS) (rel : string) :
  missing resolve config fs rel ->
  zip_one resolve json_dumps config fs rel
  = Raise (FileNotFoundError (path_not_found_msg rel)).
Proof.
  intros (path & Hjoin & Hnone). unfold zip_one. rewrite Hjoin. simpl.
  unfold fsops.is_dir, fsops.is_file. by rewrite Hnone.
Qed.

Lemma zip_one_Raise (fs : FS) (rel : string) (e : Exn) :
  zip_one resolve json_dumps config fs rel = Raise e ->
  _safe_join resolve (share_root config) rel = Raise e
  \/ (missing resolve config fs rel /\ e = FileNotFoundError (path_not_found_msg rel)).
Proof.
  intros H.
  destruct (_safe_join resolve (share_root config) rel) as [path|e'] eqn:Hj.
  - right. destruct (fs !! path) as [node|] eqn:Hnode.
    + destruct (zip_one_present fs rel) as [es Hes];
        [by exists path, node|congruence].
    + assert (missing resolve config fs rel) as Hmiss by (by exists path).
      rewrite (zip_one_missing _ _ Hmiss) in H. by inversion H.
  - left. unfold zip_one in H. rewrite Hj in H. by inversion H.
Qed.

(** Resolution that does not insist on existence does not raise. *)
Hypothesis resolve_total : forall c, exists r, resolve c = Ok r.


End ArchiveStreamer.


(** A directory and a file, bundled. *)
Example archive_run :
  _send_zip Sample.resolve Sample.json_dumps Sample.zip_encode
            (Sample.config true) Sample.disk 7 ["/"; "a.txt"]
  = (Ok tt,
     [send_response HTTPStatus.OK;
      send_header "Content-Type" "application/zip";
      send_header "Content-Length" "10";
      send_header "Content-Disposition"
        ("attachment; filename=" +:+ quote +:+ "homeshare-7.zip" +:+ quote);
      end_headers;
      wfile_write (Sample.hello ++ Sample.hello)])
  /\ zip_entries Sample.resolve Sample.json_dumps (Sample.config true)
                 Sample.disk ["docs"; "a.txt"]
     = Ok [ZDir "docs/"; ZFile "a.txt" Sample.hello].
Proof. vm_compute. split; reflexivity. Qed.

(** A missing path alone is answered with [FileNotFoundError]. *)
Example archive_missing :
  _send_zip Sample.resolve Sample.json_dumps Sample.zip_encode
            (Sample.config true) Sample.disk 7 ["a.txt"; "nothing.txt"]
  = (Raise (FileNotFoundError "Path not found: nothing.txt"), []).
Proof. vm_compute. reflexivity. Qed.


(** ** Listing the sessions on disk *)

Lemma dict_set_has {V} (k : string) (v : V) (d : list (string * V)) :
  (k, v) ∈ dict_set k v d.
Proof.
  induction d as [|[k' v'] d IH]; simpl; [left|].
  destruct (k' =? k)%string; [left|by right].
Qed.

Lemma dict_set_keep {V} (k k' : string) (v v' : V) (d : list (string * V)) :
  (k', v') ∈ d -> k' <> k -> (k', v') ∈ dict_set k v d.
Proof.
  intros Hin Hne. induction d as [|[k0 v0] d IH]; simpl.
  - by apply not_elem_of_nil in Hin.
  - apply elem_of_cons in Hin as [[= <- <-]|Hin].
    + destruct (String.eqb_spec k' k); [done|left].
    + destruct (k0 =? k)%string; right; [done|by apply IH].
Qed.

Lemma dict_set_in {V} (k k' : string) (v v' : V) (d : list (string * V)) :
  (k', v') ∈ dict_set k v d -> (k', v') = (k, v) \/ (k', v') ∈ d.
Proof.
  induction d as [|[k0 v0] d IH]; simpl.
  - intros ->%list_elem_of_singleton. by left.
  - destruct (k0 =? k)%string.
    + intros [->|H]%elem_of_cons; [by left|right; by right].
    + intros [->|H]%elem_of_cons; [right; left|].
      destruct (IH H) as [->|?]; [by left|right; by right].
Qed.

Lemma scan_sound (entries : list (Path * Node)) (d0 d : list (string * Meta))
    (k : string) (m : Meta) :
  scan_sessions entries d0 = Ok d -> (k, m) ∈ d ->
  (k, m) ∈ d0
  \/ exists p, (p, File (Json m)) ∈ entries /\ k = upload_id m.
Proof.
  revert d0. induction entries as [|[p [|[data|m0]]] entries IH];
    intros d0 Hscan Hin; simpl in Hscan.
  - inversion Hscan; subst. by left.
  - done.
  - destruct (IH _ Hscan Hin) as [?|(q & ? & ?)]; [by left|].
    right. exists q. split; [by right|done].
  - destruct (IH _ Hscan Hin) as [Hd|(q & ? & ?)].
    + apply dict_set_in in Hd as [[= -> ->]|?]; [|by left].
      right. exists p. split; [left|done].
    + right. exists q. split; [by right|done].
Qed.

Lemma scan_complete (entries : list (Path * Node))
    (d0 d : list (string * Meta)) (k : string) (m : Meta) :
  scan_sessions entries d0 = Ok d ->
  (forall p' m', (p', File (Json m')) ∈ entries -> upload_id m' = k -> m' = m) ->
  (k, m) ∈ d0 \/ (exists p, (p, File (Json m)) ∈ entries /\ k = upload_id m) ->
  (k, m) ∈ d.
Proof.
  revert d0. induction entries as [|[p [|[data|m0]]] entries IH];
    intros d0 Hscan Huniq Hin; simpl in Hscan.
  - inversion Hscan; subst. destruct Hin as [?|(q & Hq & _)]; [done|].
    by apply not_elem_of_nil in Hq.
  - done.
  - apply (IH _ Hscan); [intros; eapply Huniq; [by right|done]|].
    destruct Hin as [?|(q & [[=]|Hq]%elem_of_cons & ?)]; [by left|].
    right. by exists q.
  - apply (IH _ Hscan); [intros; eapply Huniq; [by right|done]|].
    destruct (String.eqb_spec (upload_id m0) k) as [Hk|Hk].
    + assert (m0 = m) as -> by (eapply Huniq; [left|done]).
      left. subst k. apply dict_set_has.
    + destruct Hin as [?|(q & [[= _ ->]|Hq]%elem_of_cons & ?)].
      * left. by apply dict_set_keep.
      * done.
      * right. by exists q.
Qed.

Lemma scan_Ok_no_dir (entries : list (Path * Node))
    (d0 d : list (string * Meta)) (p : Path) :
  scan_sessions entries d0 = Ok d -> (p, Dir) ∉ entries.
Proof.
  revert d0. induction entries as [|[q [|[data|m0]]] entries IH];
    intros d0 Hscan Hin; simpl in Hscan.
  - by apply not_elem_of_nil in Hin.
  - done.
  - apply elem_of_cons in Hin as [[=]|Hin]. by eapply IH.
  - apply elem_of_cons in Hin as [[=]|Hin]. by eapply IH.
Qed.

Lemma scan_no_dir_Ok (entries : list (Path * Node)) (d0 : list (string * Meta)) :
  (forall p, (p, Dir) ∉ entries) -> exists d, scan_sessions entries d0 = Ok d.
Proof.
  revert d0. induction entries as [|[q [|[data|m0]]] entries IH];
    intros d0 Hno; simpl.
  - by eexists.
  - destruct (Hno q). left.
  - apply IH. intros p Hp. apply (Hno p). by right.
  - apply IH. intros p Hp. apply (Hno p). by right.
Qed.

Lemma glob_json_elem (fs : FS) (dir p : Path) (node : Node) :
  (p, node) ∈ glob_json fs dir
  <-> fs !! p = Some node
      /\ exists n, p = dir ++ [n] /\ Str.endswith ".json" n = true.
Proof.
  unfold glob_json. rewrite list_elem_of_In, filter_In, <- list_elem_of_In.
  rewrite elem_of_map_to_list. simpl. split.
  - intros [Hp Hn]. split; [done|].
    destruct (entry_name dir p) as [n|] eqn:E; [|done].
    exists n. split; [by apply entry_name_Some|done].
  - intros [Hp (n & -> & Hn)]. split; [done|].
    by rewrite entry_name_child.
Qed.

Lemma state_file_globbed (self : UploadManager) (fs : FS) (id : string)
    (node : Node) :
  fs !! _state_file self id = Some node ->
  (_state_file self id, node) ∈ glob_json fs (_upload_dir self).
Proof.
  intros H. apply glob_json_elem. split; [done|].
  exists (id +:+ ".json"). split; [done|apply endswith_app].
Qed.

Lemma temp_is_not_state (self : UploadManager) (a b : string) :
  _temp_file self a <> _state_file self b.
Proof.
  unfold _temp_file, _state_file. intros H%app_inv_head. inversion H as [E].
  pose proof (part_is_not_json a) as Hp. rewrite E in Hp.
  by rewrite endswith_app in Hp.
Qed.

Section Listing.

Variable self : UploadManager.

(** A listed session is a record on disk. *)
Lemma list_sessions_sound (fs : FS) (d : list (string * Meta)) (k : string)
    (m : Meta) :
  _list_sessions self fs = Ok d -> (k, m) ∈ d ->
  exists p, fs !! p = Some (File (Json m)).
Proof.
  intros Hl Hin. destruct (scan_sound _ _ _ _ _ Hl Hin) as [H|(p & Hp & _)].
  - by apply not_elem_of_nil in H.
  - exists p. by apply glob_json_elem in Hp as [? _].
Qed.

(** On a well-formed store every session file is listed under its id. *)
Lemma list_sessions_complete (fs : FS) (d : list (string * Meta)) (p : Path)
    (m : Meta) :
  sessions_wf self fs ->
  _list_sessions self fs = Ok d ->
  fs !! p = Some (File (Json m)) ->
  (upload_id m, m) ∈ d.
Proof.
  intros Hwf Hl Hp. destruct (Hwf _ _ Hp) as [-> _].
  apply (scan_complete _ _ _ _ _ Hl).
  - intros p' m' [Hp' _]%glob_json_elem Hid.
    destruct (Hwf _ _ Hp') as [-> _]. rewrite Hid in Hp'. congruence.
  - right. exists (_state_file self (upload_id m)).
    split; [by apply state_file_globbed|done].
Qed.

End Listing.

(** ** Creating and resuming sessions *)

Section CreateFacts.

Variable resolve : Path -> Result Path.
Variable self : UploadManager.

(** The disk after the record was stored and the staging file touched. *)
Lemma store_touch_lookup (fs fs1 fs2 : FS) (uuid : string) (meta : Meta) :
  _store_state self fs uuid meta = Ok fs1 ->
  fsops.touch fs1 (_temp_file self uuid) = Ok fs2 ->
  forall p,
    fs2 !! p
    = if decide (p = _state_file self uuid) then Some (File (Json meta))
      else if decide (p = _temp_file self uuid)
           then Some (default (File (Bytes [])) (fs !! p))
           else fs !! p.
Proof.
  unfold _store_state, fsops.write_file, fsops.touch.
  intros Hstore Htouch p.
  assert (fs1 = <[_state_file self uuid := File (Json meta)]> fs) as ->.
  { destruct (fs !! _state_file self uuid) as [[|]|]; [done|by inversion Hstore|].
    destruct (fsops.parent_check fs _); by inversion Hstore. }
  pose proof (temp_is_not_state self uuid uuid) as Hne.
  rewrite lookup_insert_ne in Htouch by done.
  destruct (decide (p = _state_file self uuid)) as [->|Hp].
  - destruct (fs !! _temp_file self uuid) eqn:E.
    + inversion Htouch; subst. by rewrite lookup_insert_eq.
    + destruct (fsops.parent_check _ _); inversion Htouch; subst.
      rewrite lookup_insert_ne by done. by rewrite lookup_insert_eq.
  - destruct (decide (p = _temp_file self uuid)) as [->|Hp'].
    + destruct (fs !! _temp_file self uuid) eqn:E.
      * inversion Htouch; subst. by rewrite lookup_insert_ne, E.
      * destruct (fsops.parent_check _ _); inversion Htouch; subst.
        by rewrite lookup_insert_eq.
    + destruct (fs !! _temp_file self uuid) eqn:E.
      * inversion Htouch; subst. by rewrite lookup_insert_ne.
      * destruct (fsops.parent_check _ _); inversion Htouch; subst.
        by rewrite !lookup_insert_ne.
Qed.

(** What a successful [create_session] did. *)
Lemma create_session_Ok (fs fs' : FS) (uuid : string) (now : Z)
    (target : string) (size : Z) (resume : bool) (ov : option bool)
    (v : View) :
  create_session resolve self fs uuid now target size resume ov = (Ok v, fs') ->
  exists tp,
    _safe_join resolve (_share_root self) target = Ok tp
    /\ fsops.is_dir fs tp = false
    /\ ((exists sessions state,
            resume = true
            /\ _list_sessions self fs = Ok sessions
            /\ List.find (session_matches target size) (map snd sessions)
               = Some state
            /\ v = _public_state state /\ fs' = fs)
        \/ (exists fs1,
               (resume = true ->
                exists sessions,
                  _list_sessions self fs = Ok sessions
                  /\ List.find (session_matches target size)
                               (map snd sessions) = None)
               /\ _store_state self fs uuid
                    (fresh_meta self uuid now target size
                                (default (_overwrite self) ov)) = Ok fs1
               /\ fsops.touch fs1 (_temp_file self uuid) = Ok fs'
               /\ v = _public_state
                        (fresh_meta self uuid now target size
                                    (default (_overwrite self) ov)))).
Proof.
  unfold create_session.
  destruct (_safe_join resolve (_share_root self) target) as [tp|] eqn:Hj;
    [|done].
  destruct (fsops.is_dir fs tp) eqn:Hd; [done|].
  intros H. exists tp. split; [done|]. split; [done|].
  destruct resume.
  - destruct (_list_sessions self fs) as [sessions|] eqn:Hl; [|done].
    simpl in H.
    destruct (List.find _ _) as [state|] eqn:Hf.
    + left. exists sessions, state. by inversion H.
    + right. destruct (_store_state _ _ _ _) as [fs1|] eqn:Hs; [|done].
      destruct (fsops.touch fs1 _) as [fs2|] eqn:Ht; [|done].
      inversion H; subst. exists fs1. repeat split; try done.
      intros _. by exists sessions.
  - right. simpl in H.
    destruct (_store_state _ _ _ _) as [fs1|] eqn:Hs; [|done].
    destruct (fsops.touch fs1 _) as [fs2|] eqn:Ht; [|done].
    inversion H; subst. exists fs1. repeat split; done.
Qed.

Lemma fresh_meta_matches (uuid : string) (now : Z) (target : string)
    (size : Z) (ov : bool) :
  session_matches target size (fresh_meta self uuid now target size ov) = true.
Proof.
  unfold session_matches. simpl. by rewrite String.eqb_refl, Z.eqb_refl.
Qed.

(** C5. Creating with [resume] twice for the same target and size gives
    the same session (same id, same view) both times, and the second
    call leaves the disk as the first one left it. *)
Theorem resume_is_idempotent (fs fs1 : FS) (uuid1 uuid2 : string)
    (now1 now2 : Z) (target : string) (size : Z) (ov1 ov2 : option bool)
    (v1 : View) :
  sessions_wf self fs ->
  create_session resolve self fs uuid1 now1 target size true ov1
  = (Ok v1, fs1) ->
  create_session resolve self fs1 uuid2 now2 target size true ov2
  = (Ok v1, fs1).
Proof.
  intros Hwf Hfirst.
  destruct (create_session_Ok _ _ _ _ _ _ _ _ _ Hfirst)
    as (tp & Hj & Hd & [(sessions & state & _ & Hl & Hf & -> & ->)
                       |(fs0 & Hnone & Hs & Ht & ->)]).
  - (* an existing session was found: the same search finds it again *)
    unfold create_session. rewrite Hj, Hd, Hl. simpl. by rewrite Hf.
  - (* a session was made: it is now the only match *)
    destruct (Hnone eq_refl) as (sessions & Hl & Hf).
    set (meta := fresh_meta self uuid1 now1 target size
                            (default (_overwrite self) ov1)) in *.
    pose proof (store_touch_lookup _ _ _ _ _ Hs Ht) as Hlook.
    assert (fs1 !! _state_file self uuid1 = Some (File (Json meta))) as Hnew.
    { rewrite Hlook. by rewrite decide_True. }
    assert (forall p m, fs1 !! p = Some (File (Json m)) ->
                        p = _state_file self uuid1 /\ m = meta
                        \/ fs !! p = Some (File (Json m))) as Hjson.
    { intros p m. rewrite Hlook.
      destruct (decide (p = _state_file self uuid1)) as [->|_];
        [intros [= <-]; by left|].
      destruct (decide (p = _temp_file self uuid1)) as [->|_]; [|by right].
      destruct (fs !! _temp_file self uuid1); simpl; [|done].
      intros [= ->]. by right. }
    assert (sessions_wf self fs1) as Hwf1.
    { intros p m Hp. destruct (Hjson _ _ Hp) as [[-> ->]|Hold]; [done|].
      by apply Hwf. }
    assert (fsops.is_dir fs1 tp = false) as Hd1.
    { unfold fsops.is_dir in *. rewrite Hlook.
      destruct (decide (tp = _state_file self uuid1)); [done|].
      destruct (decide (tp = _temp_file self uuid1)); [|done].
      destruct (fs !! tp) as [[|]|]; done. }
    destruct (scan_no_dir_Ok (glob_json fs1 (_upload_dir self)) [])
      as [sessions1 Hl1].
    { intros p [Hp Hname]%glob_json_elem.
      apply (scan_Ok_no_dir _ _ _ p Hl). apply glob_json_elem.
      split; [|done]. rewrite Hlook in Hp.
      destruct (decide (p = _state_file self uuid1)); [done|].
      destruct (decide (p = _temp_file self uuid1)); [|done].
      destruct (fs !! p) as [[|]|]; done. }
    unfold create_session. rewrite Hj, Hd1.
    change (scan_sessions _ _) with (_list_sessions self fs1) in Hl1.
    rewrite Hl1. simpl.
    destruct (List.find _ (map snd sessions1)) as [state|] eqn:Hf1.
    + apply find_some in Hf1 as [Hin Hmatch].
      apply in_map_iff in Hin as ([k m] & <- & Hin). simpl in *.
      apply list_elem_of_In in Hin.
      destruct (list_sessions_sound _ _ _ _ _ Hl1 Hin) as [p Hp].
      destruct (Hjson _ _ Hp) as [[_ ->]|Hold]; [done|].
      pose proof (list_sessions_complete _ _ _ _ _ Hwf Hl Hold) as Hlisted.
      assert (In m (map snd sessions)) as Hm.
      { apply in_map_iff. exists (upload_id m, m). split; [done|].
        by apply list_elem_of_In. }
      pose proof (find_none _ _ Hf m Hm) as Hno. simpl in Hno.
      by rewrite Hmatch in Hno.
    + assert (In meta (map snd sessions1)) as Hm.
      { apply in_map_iff. exists (upload_id meta, meta). split; [done|].
        apply list_elem_of_In.
        by apply (list_sessions_complete _ _ _ _ _ Hwf1 Hl1 Hnew). }
      pose proof (find_none _ _ Hf1 meta Hm) as Hno. simpl in Hno.
      unfold meta in Hno. by rewrite fresh_meta_matches in Hno.
Qed.

End CreateFacts.

Lemma sessions_wfb_sound (self : UploadManager) (fs : FS) :
  sessions_wfb self fs = true -> sessions_wf self fs.
Proof.
  unfold sessions_wfb, sessions_wf. rewrite forallb_forall. intros H p m Hp.
  specialize (H (p, File (Json m))). simpl in H.
  rewrite <- list_elem_of_In, elem_of_map_to_list in H.
  apply H, andb_true_iff in Hp as [H1 H2].
  by apply bool_decide_eq_true in H1, H2.
Qed.

Lemma boundsb_sound (fs : FS) :
  boundsb fs = true ->
  forall p m, fs !! p = Some (File (Json m)) -> within_bounds m.
Proof.
  unfold boundsb, within_bounds. rewrite forallb_forall. intros H p m Hp.
  specialize (H (p, File (Json m))). simpl in H.
  rewrite <- list_elem_of_In, elem_of_map_to_list in H.
  apply H, andb_true_iff in Hp as [H1 H2]. lia.
Qed.

Lemma resume_is_idempotent_witness :
  let first := create_session Sample.resolve Sample.manager Sample.disk
                              "u7" 100 "b.bin" 3 true None in
  fst first = Ok (_public_state (Sample.meta_of "u7" "b.bin" 3 0))
  /\ create_session Sample.resolve Sample.manager (snd first)
                    "u8" 200 "b.bin" 3 true None
     = (Ok (_public_state (Sample.meta_of "u7" "b.bin" 3 0)), snd first).
Proof.
  split; [vm_compute; reflexivity|].
  apply (resume_is_idempotent Sample.resolve Sample.manager Sample.disk
           _ "u7" "u8" 100 200 "b.bin" 3 None None).
  - apply sessions_wfb_sound. vm_compute. reflexivity.
  - vm_compute. reflexivity.
Defined.

(** Resuming after a first chunk finds the same session, two bytes in. *)
Example resume_after_a_chunk :
  let '(_, fs1) := create_session Sample.resolve Sample.manager Sample.disk
                                  "u7" 100 "b.bin" 3 true None in
  let '(_, fs2) := append_chunk Sample.resolve Sample.json_dumps
                                Sample.manager fs1 "u7" 0 2
                                [Byte.x61; Byte.x62] in
  fst (create_session Sample.resolve Sample.manager fs2 "u8" 200 "b.bin" 3
                      true None)
  = Ok (_public_state (Sample.meta_of "u7" "b.bin" 3 2)).
Proof. vm_compute. reflexivity. Qed.

(** Without [resume] the second call makes a second session. *)
Example create_twice_without_resume :
  let first := create_session Sample.resolve Sample.manager Sample.disk
                              "u7" 100 "b.bin" 3 false None in
  v_upload_id <$> (match create_session Sample.resolve Sample.manager
                                        (snd first) "u8" 200 "b.bin" 3 false
                                        None with
                   | (Ok v, _) => Some v
                   | _ => None
                   end)
  = Some "u8".
Proof. vm_compute. reflexivity. Qed.

(** ** Where session records come from *)

Lemma json_from_refl (fs : FS) (new : option (Path * Meta)) :
  json_from fs fs new.
Proof. intros p m H. by left. Qed.

Lemma json_from_weaken (fs fs' : FS) (new : option (Path * Meta)) :
  json_from fs fs' None -> json_from fs fs' new.
Proof. intros H p m Hp. destruct (H p m Hp) as [?|?]; [by left|done]. Qed.

Lemma json_from_trans (fs fs1 fs2 : FS) (new : option (Path * Meta)) :
  json_from fs fs1 new -> json_from fs1 fs2 None -> json_from fs fs2 new.
Proof.
  intros H1 H2 p m Hp. destruct (H2 p m Hp) as [H|?]; [by apply H1|done].
Qed.

Lemma json_from_insert_json (fs : FS) (p : Path) (m : Meta) :
  json_from fs (<[p := File (Json m)]> fs) (Some (p, m)).
Proof.
  intros q m'. destruct (decide (p = q)) as [<-|Hne].
  - rewrite lookup_insert_eq. intros [= <-]. by right.
  - rewrite lookup_insert_ne by done. by left.
Qed.

Lemma json_from_insert_other (fs : FS) (p : Path) (node : Node) :
  (forall m, node <> File (Json m)) ->
  json_from fs (<[p := node]> fs) None.
Proof.
  intros Hnode q m. destruct (decide (p = q)) as [<-|Hne].
  - rewrite lookup_insert_eq. intros [= E]. by destruct (Hnode m).
  - rewrite lookup_insert_ne by done. by left.
Qed.

Lemma json_from_delete (fs : FS) (p : Path) : json_from fs (delete p fs) None.
Proof.
  intros q m. destruct (decide (p = q)) as [<-|Hne].
  - by rewrite lookup_delete_eq.
  - rewrite lookup_delete_ne by done. by left.
Qed.

Lemma mkdir_from_lookup (todo made : list string) (fs fs' : FS) :
  fsops.mkdir_from fs made todo = Ok fs' ->
  forall p, fs' !! p = fs !! p \/ (fs !! p = None /\ fs' !! p = Some Dir).
Proof.
  revert made fs. induction todo as [|x todo IH]; intros made fs; simpl.
  - intros [= ->] p. by left.
  - destruct (fs !! (made ++ [x])) as [[|c]|] eqn:E.
    + apply IH.
    + by destruct todo.
    + intros H p. destruct (IH _ _ H p) as [Hp|[Hp1 Hp2]].
      * destruct (decide (made ++ [x] = p)) as [<-|Hne].
        -- rewrite lookup_insert_eq in Hp. by right.
        -- rewrite lookup_insert_ne in Hp by done. by left.
      * destruct (decide (made ++ [x] = p)) as [<-|Hne].
        -- by rewrite lookup_insert_eq in Hp1.
        -- rewrite lookup_insert_ne in Hp1 by done. by right.
Qed.

Lemma json_from_mkdir (fs fs' : FS) (p : Path) :
  fsops.mkdir_parents fs p = Ok fs' -> json_from fs fs' None.
Proof.
  intros H q m Hq. destruct (mkdir_from_lookup _ _ _ _ H q) as [E|[_ E]].
  - left. by rewrite <- E.
  - congruence.
Qed.

Lemma json_from_unlink (fs fs' : FS) (p : Path) :
  fsops.unlink fs p = Ok fs' -> json_from fs fs' None.
Proof.
  unfold fsops.unlink. destruct (fs !! p) as [[|c]|]; [done| |done].
  intros [= <-]. apply json_from_delete.
Qed.

Section StoreSteps.

Variable resolve : Path -> Result Path.
Variable json_dumps : Meta -> bytes.
Variable self : UploadManager.

Lemma json_from_delete_state (fs fs' : FS) (id : string) :
  _delete_state self fs id = Ok fs' -> json_from fs fs' None.
Proof.
  unfold _delete_state.
  destruct (fsops.path_exists fs (_state_file self id)).
  - destruct (fsops.unlink fs _) as [fs1|] eqn:E1; [|done]. simpl.
    destruct (fsops.path_exists fs1 (_temp_file self id)).
    + intros E2. eapply json_from_trans; by eapply json_from_unlink.
    + intros [= <-]. by eapply json_from_unlink.
  - simpl. destruct (fsops.path_exists fs (_temp_file self id)).
    + by apply json_from_unlink.
    + intros [= <-]. apply json_from_refl.
Qed.

Lemma json_from_move_bytes (fs fs' : FS) (src dst : Path) (data : bytes) :
  fs !! src = Some (File (Bytes data)) ->
  shutil_move fs src dst = Ok fs' -> json_from fs fs' None.
Proof.
  intros Hsrc. unfold shutil_move. rewrite Hsrc.
  destruct (fsops.is_dir fs dst && bool_decide (src = dst));
    [intros [= <-]; apply json_from_refl|].
  destruct (fsops.is_dir fs dst && fsops.path_exists fs _); [done|].
  destruct (fsops.parent_check fs _); [|done]. simpl. intros [= <-].
  eapply json_from_trans; [apply json_from_delete|].
  by apply json_from_insert_other.
Qed.

(** Finalising a session whose staging file holds plain bytes adds no
    session record anywhere, however it ends. *)
Lemma json_from_finalize (fs fs' : FS) (meta : Meta) (data : bytes)
    (r : Result unit) :
  fs !! temp_file meta = Some (File (Bytes data)) ->
  _finalize resolve self fs meta = (r, fs') -> json_from fs fs' None.
Proof.
  intros Htemp. unfold _finalize.
  destruct (_safe_join resolve _ _) as [tp|]; [|intros [= _ <-]; apply json_from_refl].
  destruct (fsops.mkdir_parents fs _) as [fs1|] eqn:Hmk;
    [|intros [= _ <-]; apply json_from_refl].
  pose proof (json_from_mkdir _ _ _ Hmk) as H1.
  assert (fs1 !! temp_file meta = Some (File (Bytes data))) as Htemp1.
  { destruct (mkdir_from_lookup _ _ _ _ Hmk (temp_file meta)) as [->|[E _]];
      [done|congruence]. }
  destruct (fsops.path_exists fs1 tp && negb (meta_overwrite meta));
    [by intros [= _ <-]|].
  destruct (shutil_move fs1 _ tp) as [fs2|] eqn:Hmv; [|by intros [= _ <-]].
  pose proof (json_from_move_bytes _ _ _ _ _ Htemp1 Hmv) as H2.
  destruct (_delete_state self fs2 _) as [fs3|] eqn:Hdel.
  - intros [= _ <-]. eapply json_from_trans; [|by eapply json_from_delete_state].
    by eapply json_from_trans.
  - intros [= _ <-]. by eapply json_from_trans.
Qed.

(** What [append_chunk] may have done to the session records. *)
Lemma append_chunk_json (fs fs' : FS) (id : string) (start end_ : Z)
    (chunk : bytes) (r : Result View) :
  sessions_wf self fs ->
  append_chunk resolve json_dumps self fs id start end_ chunk = (r, fs') ->
  (fs' = fs /\ forall v, r <> Ok v)
  \/ exists meta,
       _load_state self fs id = Ok meta
       /\ received meta = start /\ start <= end_ <= total_size meta
       /\ json_from fs fs' (Some (_state_file self id, set_received meta end_))
       /\ forall v, r = Ok v -> v = _public_state (set_received meta end_).
Proof.
  intros Hwf. unfold append_chunk.
  destruct (_load_state self fs id) as [meta|] eqn:Hload;
    [|intros [= <- <-]; by left].
  destruct (Z.eqb_spec (received meta) start) as [Hstart|_];
    [|intros [= <- <-]; by left]. simpl.
  destruct (Z.ltb_spec end_ start) as [_|Hle1];
    [intros [= <- <-]; by left|].
  destruct (Z.ltb_spec (total_size meta) end_) as [_|Hle2];
    [intros [= <- <-]; by left|].
  destruct (write_chunk json_dumps fs _ start chunk) as [fs1|] eqn:Hw;
    [|intros [= <- <-]; by left].
  intros H. right. exists meta. repeat (split; [done || lia|]).
  apply load_state_Ok in Hload.
  destruct (Hwf _ _ Hload) as [_ Htemp].
  unfold write_chunk in Hw.
  destruct (fs !! temp_file meta) as [[|c]|] eqn:Hc; try done.
  destruct (start <? 0); [done|]. inversion Hw as [Hfs1]. clear Hw.
  set (data := fsops.write_at _ _ _) in *.
  assert (json_from fs fs1 None) as H1
    by (subst fs1; by apply json_from_insert_other).
  unfold _store_state, fsops.write_file in H.
  assert (fs1 !! _state_file self id = Some (File (Json meta))) as Hst1.
  { subst fs1. rewrite lookup_insert_ne; [done|].
    rewrite Htemp. apply temp_is_not_state. }
  rewrite Hst1 in H.
  set (meta' := set_received meta end_) in *.
  set (fs2 := <[_state_file self id := File (Json meta')]> fs1) in *.
  assert (json_from fs fs2 (Some (_state_file self id, meta'))) as H2.
  { intros p m Hp. destruct (json_from_insert_json fs1 _ meta' p m Hp) as [?|?];
      [|by right]. destruct (H1 p m); [done|by left|done]. }
  assert (fs2 !! temp_file meta' = Some (File (Bytes data))) as Htemp2.
  { unfold fs2. change (temp_file meta') with (temp_file meta).
    rewrite lookup_insert_ne by (rewrite Htemp; intros E; symmetry in E;
                                  by apply temp_is_not_state in E).
    subst fs1. by rewrite lookup_insert_eq. }
  simpl in H. destruct (total_size meta <=? end_).
  - destruct (_finalize resolve self fs2 meta') as [rf fs3] eqn:Hfin.
    pose proof (json_from_finalize _ _ _ _ _ Htemp2 Hfin) as H3.
    destruct rf; inversion H; subst; (split; [by eapply json_from_trans|]).
    + by intros v [= <-].
    + done.
  - inversion H; subst. split; [done|]. by intros v [= <-].
Qed.

(** What [create_session] may have done to them. *)
Lemma create_session_json (fs fs' : FS) (uuid : string) (now : Z)
    (target : string) (size : Z) (resume : bool) (ov : option bool)
    (r : Result View) :
  create_session resolve self fs uuid now target size resume ov = (r, fs') ->
  (fs' = fs
   /\ forall v, r = Ok v ->
        exists p state, fs !! p = Some (File (Json state))
                        /\ v = _public_state state)
  \/ (json_from fs fs'
        (Some (_state_file self uuid,
               fresh_meta self uuid now target size
                          (default (_overwrite self) ov)))
      /\ forall v, r = Ok v ->
           v = _public_state (fresh_meta self uuid now target size
                                         (default (_overwrite self) ov))).
Proof.
  unfold create_session.
  destruct (_safe_join resolve _ target) as [tp|];
    [|intros [= <- <-]; left; by split].
  destruct (fsops.is_dir fs tp); [intros [= <- <-]; left; by split|].
  set (meta := fresh_meta _ _ _ _ _ _).
  assert (forall r fs',
             match _store_state self fs uuid meta with
             | Ok fs1 =>
                 match fsops.touch fs1 (_temp_file self uuid) with
                 | Ok fs2 => (Ok (_public_state meta), fs2)
                 | Raise e => (Raise e, fs1)
                 end
             | Raise e => (Raise e, fs)
             end = (r, fs') ->
             json_from fs fs' (Some (_state_file self uuid, meta))
             /\ forall v, r = Ok v -> v = _public_state meta) as Hnew.
  { clear. intros r fs'. unfold _store_state, fsops.write_file.
    assert (forall fs1,
               match fsops.touch fs1 (_temp_file self uuid) with
               | Ok fs2 => (Ok (_public_state meta), fs2)
               | Raise e => (Raise e, fs1)
               end = (r, fs') ->
               json_from fs1 fs' None
               /\ forall v, r = Ok v -> v = _public_state meta) as Htouch.
    { intros fs1. unfold fsops.touch.
      destruct (fs1 !! _temp_file self uuid).
      - intros [= <- <-]. split; [apply json_from_refl|by intros v [= <-]].
      - destruct (fsops.parent_check fs1 _); simpl; intros [= <- <-].
        + split; [by apply json_from_insert_other|by intros v [= <-]].
        + split; [apply json_from_refl|done]. }
    destruct (fs !! _state_file self uuid) as [[|c]|].
    - intros [= <- <-]. split; [apply json_from_refl|done].
    - intros [H1 H2]%Htouch. split; [|done].
      eapply json_from_trans; [apply json_from_insert_json|done].
    - destruct (fsops.parent_check fs _); simpl.
      + intros [H1 H2]%Htouch. split; [|done].
        eapply json_from_trans; [apply json_from_insert_json|done].
      + intros [= <- <-]. split; [apply json_from_refl|done]. }
  destruct resume; [|intros H; right; by apply Hnew].
  destruct (_list_sessions self fs) as [sessions|] eqn:Hl;
    [|intros [= <- <-]; left; by split].
  simpl. destruct (List.find _ _) as [state|] eqn:Hf;
    [|intros H; right; by apply Hnew].
  intros [= <- <-]. left. split; [done|]. intros v [= <-].
  apply find_some in Hf as [Hin _].
  apply in_map_iff in Hin as ([k m] & <- & Hin). simpl.
  apply list_elem_of_In in Hin.
  destruct (list_sessions_sound _ _ _ _ _ Hl Hin) as [p Hp]. by exists p, m.
Qed.

End StoreSteps.

(** ** Bounds and monotonicity of the received offset *)

Lemma json_from_store_ok (self : UploadManager) (fs fs' : FS)
    (new : option (Path * Meta)) :
  store_ok self fs ->
  json_from fs fs' new ->
  (forall p m, new = Some (p, m) ->
               p = _state_file self (upload_id m)
               /\ temp_file m = _temp_file self (upload_id m)
               /\ within_bounds m) ->
  store_ok self fs'.
Proof.
  intros [Hwf Hb] Hfrom Hnew. split.
  - intros p m Hp. destruct (Hfrom p m Hp) as [Hold|Heq]; [by apply Hwf|].
    destruct (Hnew p m Heq) as (? & ? & _). done.
  - intros p m Hp. destruct (Hfrom p m Hp) as [Hold|Heq]; [by eapply Hb|].
    by destruct (Hnew p m Heq) as (_ & _ & ?).
Qed.

Lemma json_from_monotone (self : UploadManager) (fs fs' : FS)
    (new : option (Path * Meta)) :
  json_from fs fs' new ->
  (forall p m m0, new = Some (p, m) -> fs !! p = Some (File (Json m0)) ->
                  received m0 <= received m /\ total_size m = total_size m0) ->
  monotone_step self fs fs'.
Proof.
  intros Hfrom Hnew id m m' Hm%load_state_Ok Hm'%load_state_Ok.
  destruct (Hfrom _ _ Hm') as [Hold|Heq].
  - rewrite Hm in Hold. inversion Hold; subst. lia.
  - by apply (Hnew _ _ _ Heq).
Qed.

Section StoreInvariant.

Variable resolve : Path -> Result Path.
Variable json_dumps : Meta -> bytes.
Variable self : UploadManager.

Lemma same_disk_monotone (fs : FS) : monotone_step self fs fs.
Proof. intros id m m' -> [= ->]. lia. Qed.

Lemma create_step (fs fs' : FS) (uuid : string) (now : Z) (target : string)
    (size : Z) (resume : bool) (ov : option bool) (r : Result View) :
  store_ok self fs ->
  0 <= size ->
  fs !! _state_file self uuid = None ->
  create_session resolve self fs uuid now target size resume ov = (r, fs') ->
  store_ok self fs'
  /\ (forall v, r = Ok v -> 0 <= v_received v <= v_total_size v)
  /\ monotone_step self fs fs'.
Proof.
  intros Hok Hsize Hfresh Hc. pose proof Hok as [Hwf Hbounds].
  destruct (create_session_json _ _ _ _ _ _ _ _ _ _ _ Hc)
    as [[-> Hview]|[Hfrom Hview]].
  - split; [done|]. split; [|apply same_disk_monotone].
    intros v Hv. destruct (Hview v Hv) as (p & state & Hp & ->).
    by apply (Hbounds p).
  - split; [|split].
    + eapply json_from_store_ok; [done|done|].
      intros p m [= <- <-]. repeat split; simpl; lia.
    + intros v Hv. rewrite (Hview v Hv). simpl. lia.
    + eapply json_from_monotone; [done|].
      intros p m m0 [= <- <-] Hp. congruence.
Qed.

Lemma append_step (fs fs' : FS) (id : string) (start end_ : Z)
    (chunk : bytes) (r : Result View) :
  store_ok self fs ->
  append_chunk resolve json_dumps self fs id start end_ chunk = (r, fs') ->
  store_ok self fs'
  /\ (forall v, r = Ok v -> 0 <= v_received v <= v_total_size v)
  /\ monotone_step self fs fs'.
Proof.
  intros Hok Ha. pose proof Hok as [Hwf Hbounds].
  destruct (append_chunk_json _ _ _ _ _ _ _ _ _ _ Hwf Ha)
    as [[-> Hno]|(meta & Hload & Hstart & Hrange & Hfrom & Hview)].
  - split; [done|]. split; [|apply same_disk_monotone].
    intros v Hv. by destruct (Hno v).
  - pose proof Hload as Hst. apply load_state_Ok in Hst.
    pose proof (Hbounds _ _ Hst) as Hb. unfold within_bounds in Hb.
    destruct (Hwf _ _ Hst) as [Hpath Htemp].
    split; [|split].
    + eapply json_from_store_ok; [done|done|].
      intros p m [= <- <-]. unfold within_bounds. simpl.
      repeat split; try done; lia.
    + intros v Hv. rewrite (Hview v Hv). simpl. lia.
    + eapply json_from_monotone; [done|].
      intros p m m0 [= <- <-] Hp. rewrite Hst in Hp. inversion Hp; subst.
      simpl. lia.
Qed.

Lemma status_step (fs : FS) (id : string) (v : View) :
  store_ok self fs -> status self fs id = Ok v ->
  0 <= v_received v <= v_total_size v.
Proof.
  intros [_ Hbounds]. unfold status.
  destruct (_load_state self fs id) as [meta|] eqn:Hload; [|done].
  intros [= <-]. apply load_state_Ok in Hload. by apply (Hbounds _ _ Hload).
Qed.

Lemma cancel_step (fs fs' : FS) (id : string) (r : Result unit) :
  store_ok self fs -> cancel self fs id = (r, fs') ->
  store_ok self fs' /\ monotone_step self fs fs'.
Proof.
  intros Hok. unfold cancel.
  destruct (_delete_state self fs id) as [fsd|] eqn:Hdel; intros [= <- <-].
  - pose proof (json_from_delete_state _ _ _ _ Hdel) as Hfrom.
    split; [by eapply json_from_store_ok|by eapply json_from_monotone].
  - split; [done|apply same_disk_monotone].
Qed.


(** The bounds hold along any run of admissible operations. *)
Lemma store_run_invariant (ops : list StoreOp) (fs : FS) :
  store_ok self fs ->
  admissible_run resolve json_dumps self fs ops ->
  store_ok self (snd (run_ops resolve json_dumps self fs ops))
  /\ Forall (fun r => forall v, r = Ok (Some v) ->
                                0 <= v_received v <= v_total_size v)
            (fst (run_ops resolve json_dumps self fs ops)).
Proof.
  revert fs. induction ops as [|op ops IH]; intros fs Hok Hadm; simpl.
  - by split.
  - destruct Hadm as [Hop Hrest].
    destruct (perform resolve json_dumps self fs op) as [r fs1] eqn:Hp.
    simpl in Hrest.
    assert (store_ok self fs1
            /\ forall v, r = Ok (Some v) ->
                         0 <= v_received v <= v_total_size v) as [Hok1 Hv].
    { destruct op as [uuid now target size resume ov|id start end_ chunk|id|id];
        simpl in Hp.
      - destruct Hop as [Hsize Hfresh].
        destruct (create_session _ _ _ _ _ _ _ _ _) as [rc fsc] eqn:Hc.
        destruct (create_step _ _ _ _ _ _ _ _ _ Hok Hsize Hfresh Hc)
          as (H1 & H2 & _).
        destruct rc; inversion Hp; subst; split; try done.
        intros v [= <-]. by apply H2.
      - destruct (append_chunk _ _ _ _ _ _ _ _) as [ra fsa] eqn:Ha.
        destruct (append_step _ _ _ _ _ _ _ Hok Ha) as (H1 & H2 & _).
        destruct ra; inversion Hp; subst; split; try done.
        intros v [= <-]. by apply H2.
      - destruct (status self fs id) as [v|] eqn:Hs; inversion Hp; subst;
          split; try done.
        intros v' [= <-]. by eapply status_step.
      - destruct (cancel self fs id) as [rc fsc] eqn:Hc.
        destruct (cancel_step _ _ _ _ Hok Hc) as [H1 _].
        destruct rc; inversion Hp; subst; split; done. }
    destruct (IH fs1 Hok1 Hrest) as [Hfinal Hall].
    destruct (run_ops resolve json_dumps self fs1 ops) as [rs fs2].
    simpl in *. split; [done|]. by constructor.
Qed.

End StoreInvariant.

(** A disk without any session record is a good store to start from. *)
Lemma store_ok_without_sessions (self : UploadManager) (fs : FS) :
  (forall p m, fs !! p <> Some (File (Json m))) -> store_ok self fs.
Proof. intros H. split; intros p m Hp; by destruct (H p m). Qed.


(** Two chunks in sequence: the offset goes 0, 2, 3 and the file lands. *)
Example upload_in_two_chunks :
  let step fs op :=
    perform Sample.resolve Sample.json_dumps Sample.manager fs op in
  let '(r1, fs1) := step Sample.disk_u1 (OpAppend "u1" 0 2 [Byte.x61; Byte.x62]) in
  let '(r2, fs2) := step fs1 (OpAppend "u1" 2 3 [Byte.x63]) in
  (v_received <$> default None (match r1 with Ok o => Some o | _ => None end))
  = Some 2
  /\ (v_received <$> default None (match r2 with Ok o => Some o | _ => None end))
     = Some 3
  /\ fs2 !! (Sample.root ++ ["b.bin"]) = Some (File (Bytes Sample.abc))
  /\ fs2 !! _state_file Sample.manager "u1" = None
  /\ fs2 !! _temp_file Sample.manager "u1" = None.
Proof. vm_compute. repeat split. Qed.


(** * Further properties of the code *)

(** ** Slashes around a requested path *)

Lemma rev_involutive (s : string) : String.rev (String.rev s) = s.
Proof.
  induction s as [|a s IH]; [done|].
  change (String a s) with (String a "" +:+ s) at 1.
  rewrite rev_append, rev_append, IH. reflexivity.
Qed.

Lemma lstrip_snoc (c : ascii) (s : string) :
  Str.lstrip c (s +:+ String c "")
  = if (Str.lstrip c s =? "")%string then ""
    else Str.lstrip c s +:+ String c "".
Proof.
  induction s as [|a s IH].
  - simpl. by rewrite Ascii.eqb_refl.
  - rewrite string_app_cons. simpl.
    destruct (Ascii.eqb a c); [done|]. by rewrite string_app_cons.
Qed.

Lemma rstrip_snoc (c : ascii) (s : string) :
  Str.rstrip c (s +:+ String c "") = Str.rstrip c s.
Proof.
  unfold Str.rstrip. rewrite rev_append.
  change (String.rev (String c "")) with (String c "").
  rewrite string_app_cons. simpl. by rewrite Ascii.eqb_refl.
Qed.

Lemma strip_slash_before (c : ascii) (s : string) :
  Str.strip c (String c s) = Str.strip c s.
Proof. unfold Str.strip. simpl. by rewrite Ascii.eqb_refl. Qed.

Lemma strip_slash_after (c : ascii) (s : string) :
  Str.strip c (s +:+ String c "") = Str.strip c s.
Proof.
  unfold Str.strip. rewrite lstrip_snoc.
  destruct (String.eqb_spec (Str.lstrip c s) "") as [->|_]; [done|].
  apply rstrip_snoc.
Qed.

(** X1. A slash put before or after the requested path changes nothing:
    [_safe_join] answers for [/rel] and for [rel/] what it answers for
    [rel], so a path that looks absolute is still taken below the root. *)
Theorem safe_join_ignores_outer_slashes (resolve : Path -> Result Path)
    (root : Path) (relative : string) :
  _safe_join resolve root ("/" +:+ relative) = _safe_join resolve root relative
  /\ _safe_join resolve root (relative +:+ "/")
     = _safe_join resolve root relative.
Proof.
  unfold _safe_join. split.
  - by rewrite string_app_cons, strip_slash_before.
  - by rewrite strip_slash_after.
Qed.

(** ** Ordinary paths *)

Lemma contains_app (c : ascii) (a b : string) :
  str_contains c (a +:+ b) = str_contains c a || str_contains c b.
Proof.
  induction a as [|x a IH]; [done|].
  rewrite string_app_cons. simpl. by rewrite IH, orb_assoc.
Qed.

Lemma contains_rev (c : ascii) (s : string) :
  str_contains c (String.rev s) = str_contains c s.
Proof.
  induction s as [|a s IH]; [done|].
  change (String a s) with (String a "" +:+ s) at 1.
  rewrite rev_append, contains_app, IH. simpl.
  by rewrite orb_false_r, orb_comm.
Qed.

Lemma lstrip_clean (c : ascii) (t s : string) :
  t <> "" -> str_contains c t = false ->
  Str.lstrip c (t +:+ s) = t +:+ s.
Proof.
  destruct t as [|a t]; [done|]. simpl. intros _ H.
  apply orb_false_iff in H as [-> _]. done.
Qed.

Lemma rev_nonempty (t : string) : t <> "" -> String.rev t <> "".
Proof.
  intros Ht E. apply Ht. by rewrite <- (rev_involutive t), E.
Qed.

Lemma rstrip_clean (c : ascii) (s t : string) :
  t <> "" -> str_contains c t = false ->
  Str.rstrip c (s +:+ t) = s +:+ t.
Proof.
  intros Ht Hc. unfold Str.rstrip. rewrite rev_append.
  rewrite lstrip_clean by (by rewrite ?contains_rev; try apply rev_nonempty).
  by rewrite rev_append, !rev_involutive.
Qed.

Lemma segment_nonempty (n : string) : segment n -> n <> "".
Proof. by intros [(? & _) _]. Qed.

Lemma segment_clean (n : string) : segment n -> str_contains "/" n = false.
Proof. by intros [_ ?]. Qed.

Lemma join_cons (sep x y : string) (l : list string) :
  Str.join sep (x :: y :: l) = x +:+ sep +:+ Str.join sep (y :: l).
Proof. reflexivity. Qed.

(** A joined path begins with its first segment and ends with its last. *)
Lemma join_ends (names : list string) :
  names <> [] -> Forall segment names ->
  (exists t s, Str.join "/" names = t +:+ s
               /\ t <> "" /\ str_contains "/" t = false)
  /\ (exists s t, Str.join "/" names = s +:+ t
                  /\ t <> "" /\ str_contains "/" t = false).
Proof.
  intros Hne Hall. induction Hall as [|n names Hn Hall IH]; [done|].
  destruct names as [|m names].
  - split.
    + exists n, "". rewrite string_app_nil_r.
      by split; [|split; [apply segment_nonempty|apply segment_clean]].
    + exists "", n.
      by split; [|split; [apply segment_nonempty|apply segment_clean]].
  - rewrite join_cons. destruct IH as [_ (s & t & -> & Ht & Hc)]; [done|].
    split.
    + exists n. eexists.
      by split; [|split; [apply segment_nonempty|apply segment_clean]].
    + exists (n +:+ "/" +:+ s), t.
      by rewrite !string_app_assoc.
Qed.

Lemma strip_join (names : list string) :
  Forall segment names ->
  Str.strip "/" (Str.join "/" names) = Str.join "/" names.
Proof.
  intros Hall. destruct names as [|n names]; [done|].
  destruct (join_ends (n :: names)) as [(t & s & E1 & Ht & Hc)
                                         (s' & t' & E2 & Ht' & Hc')];
    [done|done|].
  unfold Str.strip. rewrite E1, lstrip_clean by done.
  rewrite <- E1, E2. by apply rstrip_clean.
Qed.

Lemma split_clean (c : ascii) (n : string) :
  str_contains c n = false -> Str.split c n = [n].
Proof.
  induction n as [|a n IH]; [done|]. simpl.
  intros [-> H]%orb_false_iff. by rewrite (IH H).
Qed.

Lemma split_clean_app (c : ascii) (n s : string) :
  str_contains c n = false ->
  Str.split c (n +:+ String c s) = n :: Str.split c s.
Proof.
  induction n as [|a n IH].
  - intros _. simpl. by rewrite Ascii.eqb_refl.
  - rewrite string_app_cons. simpl.
    intros [-> H]%orb_false_iff. by rewrite (IH H).
Qed.

(** Splitting what was joined gives the segments back. *)
Lemma split_join (names : list string) :
  names <> [] -> Forall segment names ->
  Str.split "/" (Str.join "/" names) = names.
Proof.
  intros Hne Hall. induction Hall as [|n names Hn Hall IH]; [done|].
  destruct names as [|m names].
  - by apply split_clean, segment_clean.
  - rewrite join_cons.
    change ("/" +:+ Str.join "/" (m :: names))
      with (String "/" (Str.join "/" (m :: names))).
    rewrite split_clean_app by (by apply segment_clean).
    by rewrite IH.
Qed.

Lemma fold_norm_plain (k : nat) (l acc : list string) :
  Forall pathlib.plain_name l ->
  fold_left (posixpath.norm_step k) l acc = acc ++ l.
Proof.
  intros Hall. revert acc.
  induction Hall as [|x l (H1 & H2 & H3 & _) Hall IH]; intros acc; simpl.
  - by rewrite app_nil_r.
  - unfold posixpath.norm_step at 2.
    destruct (String.eqb_spec x ""); [done|].
    destruct (String.eqb_spec x "."); [done|].
    destruct (String.eqb_spec x ".."); [done|]. simpl.
    by rewrite IH, <- app_assoc.
Qed.

Lemma fold_lexical_plain (l acc : list string) :
  Forall pathlib.plain_name l ->
  fold_left Lexical.step l acc = acc ++ l.
Proof.
  intros Hall. revert acc.
  induction Hall as [|x l (H1 & H2 & H3 & H4) Hall IH]; intros acc; simpl.
  - by rewrite app_nil_r.
  - unfold Lexical.step at 2.
    destruct (String.eqb_spec x ""); [done|].
    destruct (String.eqb_spec x "."); [done|].
    destruct (String.eqb_spec x "/"); [done|].
    destruct (String.eqb_spec x ".."); [done|]. simpl.
    by rewrite IH, <- app_assoc.
Qed.

Lemma filter_plain (l : list string) :
  Forall pathlib.plain_name l ->
  List.filter (fun p => negb ((p =? ".")%string || (p =? "")%string)) l = l.
Proof.
  induction 1 as [|x l (H1 & H2 & _) Hall IH]; [done|]. simpl.
  destruct (String.eqb_spec x "."); [done|].
  destruct (String.eqb_spec x ""); [done|]. simpl. by rewrite IH.
Qed.

Lemma segments_plain (names : list string) :
  Forall segment names -> Forall pathlib.plain_name names.
Proof. intros H. eapply Forall_impl; [done|]. by intros n [? _]. Qed.

Lemma join_nonempty (names : list string) :
  names <> [] -> Forall segment names -> Str.join "/" names <> "".
Proof.
  intros Hne Hall.
  destruct (join_ends names Hne Hall) as [(t & s & -> & Ht & _) _].
  by destruct t.
Qed.

Lemma normpath_join (names : list string) :
  names <> [] -> Forall segment names ->
  posixpath.normpath (Str.join "/" names) = Str.join "/" names.
Proof.
  intros Hne Hall. pose proof (join_nonempty names Hne Hall) as Hj.
  unfold posixpath.normpath.
  destruct (String.eqb_spec (Str.join "/" names) ""); [done|].
  assert (Str.startswith "/" (Str.join "/" names) = false) as ->.
  { destruct (join_ends names Hne Hall) as [(t & s & -> & Ht & Hc) _].
    destruct t as [|a t]; [done|]. cbn [str_contains] in Hc.
    apply orb_false_iff in Hc as [Ha _].
    rewrite string_app_cons. cbn [Str.startswith].
    by rewrite Ascii.eqb_sym, Ha. }
  rewrite split_join by done.
  rewrite fold_norm_plain by (by apply segments_plain). simpl.
  change ("" +:+ Str.join "/" names) with (Str.join "/" names).
  by destruct (String.eqb_spec (Str.join "/" names) "").
Qed.



(** ** The life of an upload session *)

Lemma string_app_inv_head (p a b : string) : p +:+ a = p +:+ b -> a = b.
Proof.
  induction p as [|x p IH]; [done|].
  rewrite !string_app_cons. intros [= H]. by apply IH.
Qed.

Lemma string_app_inv_tail (a b t : string) : a +:+ t = b +:+ t -> a = b.
Proof.
  intros H. apply (f_equal String.rev) in H. rewrite !rev_append in H.
  apply string_app_inv_head in H.
  by rewrite <- (rev_involutive a), H, rev_involutive.
Qed.

Lemma state_file_inj (self : UploadManager) (a b : string) :
  _state_file self a = _state_file self b -> a = b.
Proof.
  unfold _state_file. intros H%app_inv_head. inversion H as [E].
  by apply string_app_inv_tail in E.
Qed.

Lemma temp_file_inj (self : UploadManager) (a b : string) :
  _temp_file self a = _temp_file self b -> a = b.
Proof.
  unfold _temp_file. intros H%app_inv_head. inversion H as [E].
  by apply string_app_inv_tail in E.
Qed.

Lemma parent_child (dir : Path) (n : string) :
  dir <> [] -> pathlib.parent (dir ++ [n]) = dir.
Proof.
  intros Hne. destruct dir as [|d dir]; [done|].
  unfold pathlib.parent.
  destruct ((d :: dir) ++ [n]) as [|y [|z r]] eqn:E.
  - done.
  - by destruct dir.
  - rewrite <- E. apply removelast_last.
Qed.

Section SessionLife.

Variable resolve : Path -> Result Path.
Variable json_dumps : Meta -> bytes.
Variable self : UploadManager.

(** X3. The session [create_session] hands out, new or resumed, is the
    one [status] reports under the returned id, with the same view. *)
Theorem created_session_is_visible (fs fs' : FS) (uuid : string) (now : Z)
    (target : string) (size : Z) (resume : bool) (ov : option bool)
    (v : View) :
  sessions_wf self fs ->
  create_session resolve self fs uuid now target size resume ov = (Ok v, fs') ->
  status self fs' (v_upload_id v) = Ok v.
Proof.
  intros Hwf Hc.
  destruct (create_session_Ok _ _ _ _ _ _ _ _ _ _ _ Hc)
    as (tp & Hj & Hd & [(sessions & state & _ & Hl & Hf & -> & ->)
                       |(fs1 & _ & Hs & Ht & ->)]).
  - apply find_some in Hf as [Hin _].
    apply in_map_iff in Hin as ([k m] & <- & Hin). simpl.
    apply list_elem_of_In in Hin.
    destruct (list_sessions_sound _ _ _ _ _ Hl Hin) as [p Hp].
    destruct (Hwf _ _ Hp) as [-> _].
    apply load_state_Ok in Hp. unfold status. by rewrite Hp.
  - pose proof (store_touch_lookup _ _ _ _ _ _ Hs Ht
                  (_state_file self uuid)) as Hlook.
    rewrite decide_True in Hlook by done.
    apply load_state_Ok in Hlook. unfold status. simpl. by rewrite Hlook.
Qed.

Lemma create_session_fresh (fs : FS) (uuid : string) (now : Z)
    (target : string) (size : Z) (resume : bool) (ov : option bool)
    (tp : Path) :
  _upload_dir self <> [] ->
  fs !! _upload_dir self = Some Dir ->
  _safe_join resolve (_share_root self) target = Ok tp ->
  fsops.is_dir fs tp = false ->
  fs !! _state_file self uuid = None ->
  fs !! _temp_file self uuid = None ->
  (resume = true ->
   (forall n, Str.endswith ".json" n = true ->
              fs !! (_upload_dir self ++ [n]) <> Some Dir)
   /\ forall p m, fs !! p = Some (File (Json m)) ->
                  session_matches target size m = false) ->
  let meta :=
    fresh_meta self uuid now target size (default (_overwrite self) ov) in
  create_session resolve self fs uuid now target size resume ov
  = (Ok (_public_state meta),
     <[_temp_file self uuid := File (Bytes [])]>
       (<[_state_file self uuid := File (Json meta)]> fs))
  /\ v_upload_id (_public_state meta) = uuid
  /\ v_received (_public_state meta) = 0
  /\ v_completed (_public_state meta) = false.
Proof.
  intros Hne Hdir Hj Hd Hstate Htemp Hresume meta.
  split; [|split; [done|split; [done|]]].
  - unfold create_session. rewrite Hj, Hd.
    assert ((if resume
             then sessions <- _list_sessions self fs ;;
                  Ok (List.find (session_matches target size)
                                (map snd sessions))
             else Ok None) = Ok None) as ->.
    { destruct resume; [|done].
      destruct (Hresume eq_refl) as [Hnodir Hnomatch].
      destruct (scan_no_dir_Ok (glob_json fs (_upload_dir self)) [])
        as [d Hd'].
      { intros p [Hp (n & -> & Hn)]%glob_json_elem. by apply (Hnodir n). }
      change (scan_sessions _ _) with (_list_sessions self fs) in Hd'.
      rewrite Hd'. simpl. f_equal.
      destruct (List.find _ _) as [state|] eqn:Hf; [|done].
      apply find_some in Hf as [Hin Hm].
      apply in_map_iff in Hin as ([k m] & <- & Hin). simpl in Hm.
      apply list_elem_of_In in Hin.
      destruct (list_sessions_sound _ _ _ _ _ Hd' Hin) as [p Hp].
      by rewrite (Hnomatch _ _ Hp) in Hm. }
    fold meta. unfold _store_state, fsops.write_file, fsops.parent_check.
    rewrite Hstate. unfold _state_file at 1. rewrite parent_child by done.
    rewrite Hdir. simpl. unfold fsops.touch, fsops.parent_check.
    rewrite lookup_insert_ne by (intros E; symmetry in E;
                                  by apply temp_is_not_state in E).
    rewrite Htemp. unfold _temp_file at 1. rewrite parent_child by done.
    rewrite lookup_insert_ne, Hdir; [done|].
    unfold _state_file. intros E. apply (f_equal length) in E.
    rewrite length_app in E. simpl in E. lia.
  - simpl. destruct (Z.leb_spec size 0); destruct (Z.ltb_spec 0 size);
      try done; lia.
Qed.


End SessionLife.

Lemma created_session_is_visible_witness :
  let first := create_session Sample.resolve Sample.manager Sample.disk_u1
                              "u8" 200 "b.bin" 3 true None in
  status Sample.manager (snd first)
         (v_upload_id (_public_state (Sample.meta_of "u1" "b.bin" 3 0)))
  = Ok (_public_state (Sample.meta_of "u1" "b.bin" 3 0)).
Proof.
  apply (created_session_is_visible Sample.resolve Sample.manager
           Sample.disk_u1
           (snd (create_session Sample.resolve Sample.manager Sample.disk_u1
                                "u8" 200 "b.bin" 3 true None))
           "u8" 200 "b.bin" 3 true None).
  - apply sessions_wfb_sound. vm_compute. reflexivity.
  - reflexivity.
Defined.


(** ** Chunks *)

Lemma write_at_end (data chunk : bytes) :
  fsops.write_at data (length data) chunk = data ++ chunk.
Proof.
  unfold fsops.write_at. destruct chunk as [|b chunk]; [by rewrite app_nil_r|].
  rewrite Nat.sub_diag. simpl repeat. rewrite app_nil_r.
  rewrite take_ge by lia. rewrite drop_ge by (simpl; lia).
  by rewrite app_nil_r.
Qed.

(** On a tree-shaped disk every prefix of a directory is a directory. *)
Lemma prefix_dirs (fs : FS) (q : Path) :
  tree_shaped fs -> fs !! q = Some Dir ->
  forall k, (0 < k <= length q)%nat -> fs !! take k q = Some Dir.
Proof.
  intros Hts Hq k Hk. destruct (Hts _ _ Hq) as [Habove _].
  destruct (decide (k = length q)) as [->|Hlt]; [by rewrite firstn_all|].
  destruct (drop k q) as [|x rest] eqn:Hd.
  { apply (f_equal length) in Hd. rewrite length_drop in Hd. simpl in Hd. lia. }
  apply (Habove (take k q) x rest).
  - by rewrite <- Hd, take_drop.
  - intros E. apply (f_equal length) in E. rewrite length_take in E.
    simpl in E. lia.
Qed.

Section ChunkFacts.

Variable resolve : Path -> Result Path.
Variable json_dumps : Meta -> bytes.
Variable self : UploadManager.

Lemma append_chunk_extends (fs : FS) (id : string) (meta : Meta)
    (c : Content) (chunk : bytes) :
  let data := file_bytes json_dumps c in
  let end_ := received meta + Z.of_nat (length chunk) in
  let meta' := set_received meta end_ in
  _load_state self fs id = Ok meta ->
  fs !! temp_file meta = Some (File c) ->
  received meta = Z.of_nat (length data) ->
  end_ < total_size meta ->
  append_chunk resolve json_dumps self fs id (received meta) end_ chunk
  = (Ok (_public_state meta'),
     <[_state_file self id := File (Json meta')]>
       (<[temp_file meta := File (Bytes (data ++ chunk))]> fs))
  /\ v_received (_public_state meta') = end_
  /\ v_completed (_public_state meta') = false.
Proof.
  intros data end_ meta' Hload Htemp Hrec Hend.
  split; [|split; [done|]].
  - unfold append_chunk. rewrite Hload, Z.eqb_refl. simpl.
    destruct (Z.ltb_spec end_ (received meta)); [unfold end_ in *; lia|].
    destruct (Z.ltb_spec (total_size meta) end_); [lia|].
    unfold write_chunk. rewrite Htemp.
    destruct (Z.ltb_spec (received meta) 0); [lia|].
    fold data. rewrite Hrec, Nat2Z.id, write_at_end.
    set (fs1 := <[temp_file meta := _]> fs).
    assert (exists c1, fs1 !! _state_file self id = Some (File c1)) as [c1 Hc1].
    { unfold fs1. apply load_state_Ok in Hload.
      destruct (decide (temp_file meta = _state_file self id)) as [->|];
        [rewrite lookup_insert_eq|rewrite lookup_insert_ne by done]; eauto. }
    unfold _store_state, fsops.write_file. rewrite Hc1.
    fold end_. fold meta'.
    change (total_size meta' <=? received meta')
      with (total_size meta <=? end_).
    destruct (Z.leb_spec (total_size meta) end_); [lia|]. done.
  - simpl. destruct (Z.leb_spec (total_size meta) end_); [lia|done].
Qed.

(** X5. A chunk that starts at the received offset, carries as many
    bytes as its range says and does not reach the declared size is
    appended to the staging file; the record and the answer then hold
    the new offset, and the upload is not yet completed. *)
Theorem chunk_extends_staging (fs : FS) (id : string) (meta : Meta)
    (c : Content) (chunk : bytes) :
  let data := file_bytes json_dumps c in
  let end_ := received meta + Z.of_nat (length chunk) in
  let meta' := set_received meta end_ in
  _load_state self fs id = Ok meta ->
  fs !! temp_file meta = Some (File c) ->
  received meta = Z.of_nat (length data) ->
  end_ < total_size meta ->
  append_chunk resolve json_dumps self fs id (received meta) end_ chunk
  = (Ok (_public_state meta'),
     <[_state_file self id := File (Json meta')]>
       (<[temp_file meta := File (Bytes (data ++ chunk))]> fs))
  /\ v_received (_public_state meta') = end_
  /\ v_completed (_public_state meta') = false.
Proof. exact (append_chunk_extends fs id meta c chunk). Qed.

Lemma append_chunk_last (fs : FS) (id : string) (meta : Meta)
    (c : Content) (chunk : bytes) (tp : Path) :
  let data := file_bytes json_dumps c in
  let meta' := set_received meta (total_size meta) in
  (forall k, (0 < k <= length (pathlib.parent tp))%nat ->
             fs !! take k (pathlib.parent tp) = Some Dir) ->
  _load_state self fs id = Ok meta ->
  upload_id meta = id ->
  temp_file meta = _temp_file self id ->
  fs !! temp_file meta = Some (File c) ->
  received meta = Z.of_nat (length data) ->
  received meta + Z.of_nat (length chunk) = total_size meta ->
  _safe_join resolve (_share_root self) (target_path meta) = Ok tp ->
  fs !! pathlib.parent tp = Some Dir ->
  fsops.is_dir fs tp = false ->
  fs !! tp = None \/ meta_overwrite meta = true ->
  tp <> _state_file self id ->
  tp <> _temp_file self id ->
  exists fs',
    append_chunk resolve json_dumps self fs id (received meta)
                 (total_size meta) chunk
    = (Ok (_public_state meta'), fs')
    /\ fs' !! tp = Some (File (Bytes (data ++ chunk)))
    /\ fs' !! _state_file self id = None
    /\ fs' !! _temp_file self id = None
    /\ (forall p, p <> tp -> p <> _state_file self id ->
                  p <> _temp_file self id -> fs' !! p = fs !! p)
    /\ status self fs' id = Raise (FileNotFoundError not_found_msg)
    /\ v_completed (_public_state meta') = (0 <? total_size meta).
Proof.
  intros data meta' Hts Hload Hid Htf Htemp Hrec Hend Hjoin Hparent Hnd Hfree
    Hne1 Hne2.
  pose proof (temp_is_not_state self id id) as Hts'.
  pose proof Hload as Hstate. apply load_state_Ok in Hstate.
  rewrite Htf in *.
  set (new := File (Bytes (data ++ chunk))).
  set (fs1 := <[_temp_file self id := new]> fs).
  set (fs2 := <[_state_file self id := File (Json meta')]> fs1).
  set (fs3 := <[tp := new]> (delete (_temp_file self id) fs2)).
  set (fs4 := delete (_state_file self id) fs3).
  assert (forall q, fs !! q = Some Dir -> fs2 !! q = Some Dir) as Hdirs.
  { intros q Hq. unfold fs2, fs1.
    rewrite !lookup_insert_ne; [done| |]; intros <-; congruence. }
  assert (fs2 !! tp = fs !! tp) as Htp2.
  { unfold fs2, fs1. by rewrite !lookup_insert_ne. }
  exists fs4. split; [|split; [|split; [|split; [|split; [|split]]]]].
  - unfold append_chunk. rewrite Hload, Z.eqb_refl. simpl.
    destruct (Z.ltb_spec (total_size meta) (received meta)); [lia|].
    destruct (Z.ltb_spec (total_size meta) (total_size meta)); [lia|].
    unfold write_chunk. rewrite Htf, Htemp.
    destruct (Z.ltb_spec (received meta) 0); [lia|].
    fold data. rewrite Hrec, Nat2Z.id, write_at_end. fold new fs1.
    unfold _store_state, fsops.write_file.
    assert (fs1 !! _state_file self id = Some (File (Json meta))) as ->.
    { unfold fs1. rewrite lookup_insert_ne by done. done. }
    fold meta' fs2.
    change (total_size meta' <=? received meta')
      with (total_size meta <=? total_size meta).
    rewrite Z.leb_refl. unfold _finalize.
    change (target_path meta') with (target_path meta).
    change (meta_overwrite meta') with (meta_overwrite meta).
    change (temp_file meta') with (temp_file meta).
    change (upload_id meta') with (upload_id meta).
    rewrite Hjoin, Htf, Hid. unfold fsops.mkdir_parents.
    rewrite mkdir_from_dirs
      by (intros k Hk; simpl; apply Hdirs; by apply Hts).
    assert ((fsops.path_exists fs2 tp && negb (meta_overwrite meta)) = false)
      as ->.
    { destruct Hfree as [Hnone| ->]; [|by rewrite andb_false_r].
      rewrite path_exists_false; [done|]. by rewrite Htp2. }
    unfold shutil_move.
    assert (fsops.is_dir fs2 tp = false) as ->.
    { unfold fsops.is_dir in *. by rewrite Htp2. }
    simpl.
    assert (fs2 !! _temp_file self id = Some new) as ->.
    { unfold fs2. rewrite lookup_insert_ne by done.
      unfold fs1. by rewrite lookup_insert_eq. }
    unfold fsops.parent_check. rewrite (Hdirs _ Hparent). simpl.
    fold new. fold fs3. unfold _delete_state.
    assert (fs3 !! _state_file self id = Some (File (Json meta'))) as Hst3.
    { unfold fs3. rewrite lookup_insert_ne by done.
      rewrite lookup_delete_ne by done.
      unfold fs2. by rewrite lookup_insert_eq. }
    rewrite (path_exists_true _ _ _ Hst3). unfold fsops.unlink.
    rewrite Hst3. simpl. fold fs4.
    rewrite path_exists_false; [done|].
    unfold fs4, fs3. rewrite lookup_delete_ne by done.
    rewrite lookup_insert_ne by done. by rewrite lookup_delete_eq.
  - unfold fs4, fs3. rewrite lookup_delete_ne by done.
    by rewrite lookup_insert_eq.
  - unfold fs4. by rewrite lookup_delete_eq.
  - unfold fs4, fs3. rewrite lookup_delete_ne by done.
    rewrite lookup_insert_ne by done. by rewrite lookup_delete_eq.
  - intros p H1 H2 H3. unfold fs4, fs3, fs2, fs1.
    rewrite lookup_delete_ne by done. rewrite lookup_insert_ne by done.
    rewrite lookup_delete_ne by done. by rewrite !lookup_insert_ne.
  - unfold status, _load_state, fs4. by rewrite lookup_delete_eq.
  - simpl. by rewrite Z.leb_refl.
Qed.

(** X6. The chunk that reaches the declared size completes the upload:
    on a tree-shaped disk where the target's directory exists and the
    target is free (or may be overwritten), the target ends up holding
    the staged bytes followed by the chunk, the record and the staging
    file are gone, every other entry is as before, and the session can
    no longer be queried. *)
Theorem last_chunk_delivers (fs : FS) (id : string) (meta : Meta)
    (c : Content) (chunk : bytes) (tp : Path) :
  let data := file_bytes json_dumps c in
  let meta' := set_received meta (total_size meta) in
  tree_shaped fs ->
  _load_state self fs id = Ok meta ->
  upload_id meta = id ->
  temp_file meta = _temp_file self id ->
  fs !! temp_file meta = Some (File c) ->
  received meta = Z.of_nat (length data) ->
  received meta + Z.of_nat (length chunk) = total_size meta ->
  _safe_join resolve (_share_root self) (target_path meta) = Ok tp ->
  fs !! pathlib.parent tp = Some Dir ->
  fsops.is_dir fs tp = false ->
  fs !! tp = None \/ meta_overwrite meta = true ->
  tp <> _state_file self id ->
  tp <> _temp_file self id ->
  exists fs',
    append_chunk resolve json_dumps self fs id (received meta)
                 (total_size meta) chunk
    = (Ok (_public_state meta'), fs')
    /\ fs' !! tp = Some (File (Bytes (data ++ chunk)))
    /\ fs' !! _state_file self id = None
    /\ fs' !! _temp_file self id = None
    /\ (forall p, p <> tp -> p <> _state_file self id ->
                  p <> _temp_file self id -> fs' !! p = fs !! p)
    /\ status self fs' id = Raise (FileNotFoundError not_found_msg)
    /\ v_completed (_public_state meta') = (0 <? total_size meta).
Proof.
  intros data meta' Hts Hload Hid Htf Htemp Hrec Hend Hjoin Hparent Hnd Hfree
    Hne1 Hne2.
  apply (append_chunk_last fs id meta c chunk tp); try done.
  intros k Hk. by apply prefix_dirs.
Qed.

End ChunkFacts.

Lemma chunk_extends_staging_witness :
  let meta := Sample.meta_of "u1" "b.bin" 3 0 in
  let meta' := set_received meta 2 in
  append_chunk Sample.resolve Sample.json_dumps Sample.manager Sample.disk_u1
               "u1" 0 2 Scenario.ab
  = (Ok (_public_state meta'),
     <[_state_file Sample.manager "u1" := File (Json meta')]>
       (<[temp_file meta := File (Bytes ([] ++ Scenario.ab))]> Sample.disk_u1))
  /\ v_received (_public_state meta') = 2
  /\ v_completed (_public_state meta') = false.
Proof.
  apply (chunk_extends_staging Sample.resolve Sample.json_dumps Sample.manager
           Sample.disk_u1 "u1" (Sample.meta_of "u1" "b.bin" 3 0) (Bytes [])
           Scenario.ab).
  - vm_compute. reflexivity.
  - vm_compute. reflexivity.
  - reflexivity.
  - simpl. lia.
Defined.

Lemma last_chunk_delivers_witness :
  let meta := Sample.meta_of "u1" "b.bin" 3 2 in
  let tp := Sample.root ++ ["b.bin"] in
  exists fs',
    append_chunk Sample.resolve Sample.json_dumps Sample.manager
                 Scenario.disk_u1_partial "u1" 2 3 [Byte.x63]
    = (Ok (_public_state (set_received meta 3)), fs')
    /\ fs' !! tp = Some (File (Bytes (Scenario.ab ++ [Byte.x63])))
    /\ fs' !! _state_file Sample.manager "u1" = None
    /\ fs' !! _temp_file Sample.manager "u1" = None
    /\ (forall p, p <> tp -> p <> _state_file Sample.manager "u1" ->
                  p <> _temp_file Sample.manager "u1" ->
                  fs' !! p = Scenario.disk_u1_partial !! p)
    /\ status Sample.manager fs' "u1"
       = Raise (FileNotFoundError not_found_msg)
    /\ v_completed (_public_state (set_received meta 3)) = (0 <? 3).
Proof.
  apply (last_chunk_delivers Sample.resolve Sample.json_dumps Sample.manager
           Scenario.disk_u1_partial "u1" (Sample.meta_of "u1" "b.bin" 3 2)
           (Bytes Scenario.ab) [Byte.x63] (Sample.root ++ ["b.bin"])).
  - apply tree_shapedb_sound. vm_compute. reflexivity.
  - vm_compute. reflexivity.
  - reflexivity.
  - reflexivity.
  - vm_compute. reflexivity.
  - reflexivity.
  - reflexivity.
  - vm_compute. reflexivity.
  - vm_compute. reflexivity.
  - vm_compute. reflexivity.
  - left. vm_compute. reflexivity.
  - discriminate.
  - discriminate.
Defined.

(** ** Cancelling *)

Lemma last_segment_upload (id : string) :
  str_contains "/" id = false ->
  last_segment ("/api/upload/" +:+ id) = id.
Proof.
  intros Hc. unfold last_segment.
  change ("/api/upload/" +:+ id)
    with ("" +:+ String "/" ("api" +:+ String "/"
                               ("upload" +:+ String "/" id))).
  rewrite !split_clean_app by done. by rewrite split_clean.
Qed.

Lemma delete_state_Ok (self : UploadManager) (fs : FS) (id : string) :
  fsops.is_dir fs (_state_file self id) = false ->
  fsops.is_dir fs (_temp_file self id) = false ->
  _delete_state self fs id
  = Ok (delete (_temp_file self id) (delete (_state_file self id) fs)).
Proof.
  unfold fsops.is_dir, _delete_state. intros Hs Ht.
  pose proof (temp_is_not_state self id id) as Hne.
  assert ((if fsops.path_exists fs (_state_file self id)
           then fsops.unlink fs (_state_file self id) else Ok fs)
          = Ok (delete (_state_file self id) fs)) as ->.
  { unfold fsops.unlink.
    destruct (fs !! _state_file self id) as [[|c]|] eqn:E; [done| |].
    - by rewrite (path_exists_true _ _ _ E).
    - by rewrite (path_exists_false _ _ E), delete_id. }
  simpl. set (fs1 := delete (_state_file self id) fs).
  assert (fs1 !! _temp_file self id = fs !! _temp_file self id) as E1.
  { unfold fs1. by rewrite lookup_delete_ne. }
  unfold fsops.unlink.
  destruct (fs !! _temp_file self id) as [[|c]|] eqn:E; [done| |];
    try rewrite E in E1.
  - by rewrite (path_exists_true _ _ _ E1), E1.
  - by rewrite (path_exists_false _ _ E1), delete_id.
Qed.



(** ** Digit groups *)

Lemma uint_of_char_digit (a : ascii) (u : Decimal.uint) :
  Str.is_digit a = true -> exists u', uint_of_char a (Some u) = Some u'.
Proof.
  destruct a as [[] [] [] [] [] [] [] []]; intros H;
    try discriminate H; eexists; reflexivity.
Qed.

Lemma uint_of_string_digits (d : string) :
  all_digits d = true -> exists u, NilEmpty.uint_of_string d = Some u.
Proof.
  induction d as [|a d IH]; [by eexists|].
  cbn [all_digits]. intros [Ha Hd]%andb_true_iff.
  destruct (IH Hd) as [u Hu]. cbn [NilEmpty.uint_of_string]. rewrite Hu.
  by apply uint_of_char_digit.
Qed.

(** A group of digits that is not empty reads as a number that is not
    negative. *)
Lemma int_of_str_digits (d : string) :
  all_digits d = true -> d <> "" ->
  exists n, int_of_str d = Ok n /\ 0 <= n.
Proof.
  intros Hd Hne. destruct d as [|a d]; [done|].
  pose proof Hd as Hd'. cbn [all_digits] in Hd'.
  apply andb_true_iff in Hd' as [Ha _].
  rewrite int_of_str_head by done.
  destruct (uint_of_string_digits _ Hd) as [u Hu].
  unfold Str.to_N. rewrite Hu. simpl. eexists. split; [done|lia].
Qed.

Lemma span_digits_all (s : string) :
  all_digits (fst (Str.span_digits s)) = true.
Proof.
  induction s as [|a s IH]; [done|]. cbn [Str.span_digits].
  destruct (Str.is_digit a) eqn:Ha; [|done].
  destruct (Str.span_digits s) as [d r]. cbn [fst all_digits] in *.
  by rewrite Ha, IH.
Qed.

Lemma match_content_range_digits (h a b c : string) :
  match_content_range h = Some (a, b, c) ->
  (all_digits a = true /\ a <> "")
  /\ (all_digits b = true /\ b <> "")
  /\ (all_digits c = true /\ c <> "").
Proof.
  unfold match_content_range.
  destruct (Str.drop_prefix "bytes " h) as [r0|]; [|done].
  cbn [mbind option_bind].
  pose proof (span_digits_all r0) as Ha.
  destruct (Str.span_digits r0) as [a' r1].
  destruct (Str.drop_prefix "-" r1) as [r2|]; [|done].
  cbn [mbind option_bind].
  pose proof (span_digits_all r2) as Hb.
  destruct (Str.span_digits r2) as [b' r3].
  destruct (Str.drop_prefix "/" r3) as [r4|]; [|done].
  cbn [mbind option_bind].
  pose proof (span_digits_all r4) as Hc.
  destruct (Str.span_digits r4) as [c' r5]. cbn [fst] in *.
  destruct (String.eqb_spec a' ""); [done|].
  destruct (String.eqb_spec b' ""); [done|].
  destruct (String.eqb_spec c' ""); [done|]. simpl.
  by intros [= <- <- <-].
Qed.



(** ** The sessions on disk *)

Lemma dict_set_keys {V} (k : string) (v : V) (d : list (string * V)) :
  map fst (dict_set k v d)
  = if bool_decide (k ∈ map fst d) then map fst d else map fst d ++ [k].
Proof.
  induction d as [|[k' v'] d IH]; [done|]. simpl.
  destruct (String.eqb_spec k' k) as [->|Hne].
  - simpl. rewrite bool_decide_eq_true_2; [done|left].
  - simpl. rewrite IH.
    destruct (bool_decide (k ∈ map fst d)) eqn:E.
    + apply bool_decide_eq_true in E.
      rewrite bool_decide_eq_true_2; [done|by right].
    + apply bool_decide_eq_false in E.
      rewrite bool_decide_eq_false_2; [done|].
      intros [?|?]%elem_of_cons; [by subst|done].
Qed.

Lemma dict_set_NoDup {V} (k : string) (v : V) (d : list (string * V)) :
  NoDup (map fst d) -> NoDup (map fst (dict_set k v d)).
Proof.
  intros H. rewrite dict_set_keys.
  destruct (bool_decide (k ∈ map fst d)) eqn:E; [done|].
  apply bool_decide_eq_false in E.
  apply NoDup_app. split; [done|]. split; [|apply NoDup_singleton].
  intros x Hx ->%list_elem_of_singleton. done.
Qed.

Lemma scan_NoDup (entries : list (Path * Node)) (d0 d : list (string * Meta)) :
  scan_sessions entries d0 = Ok d -> NoDup (map fst d0) -> NoDup (map fst d).
Proof.
  revert d0. induction entries as [|[p [|[data|m0]]] entries IH];
    intros d0 Hscan Hnd; simpl in Hscan.
  - by inversion Hscan; subst.
  - done.
  - by eapply IH.
  - eapply IH; [done|]. by apply dict_set_NoDup.
Qed.


Lemma no_json_dirb_sound (self : UploadManager) (fs : FS) :
  no_json_dirb self fs = true ->
  forall n, Str.endswith ".json" n = true ->
            fs !! (_upload_dir self ++ [n]) <> Some Dir.
Proof.
  unfold no_json_dirb. rewrite forallb_forall. intros H n Hn Hp.
  specialize (H (_upload_dir self ++ [n], Dir)). simpl in H.
  enough (false = true) by done. apply H.
  apply list_elem_of_In, glob_json_elem. split; [done|]. by exists n.
Qed.


(** ** The header of a chunk *)

Lemma match_content_range_request (start end_ total : Z) :
  0 <= start -> 0 <= end_ -> 0 <= total ->
  match_content_range (content_range start end_ total)
  = Some (Str.of_Z start, Str.of_Z end_, Str.of_Z total).
Proof.
  intros Hs He Ht. unfold match_content_range, content_range.
  rewrite drop_prefix_app. cbn [mbind option_bind].
  rewrite (of_Z_nonneg start Hs), (of_Z_nonneg end_ He),
    (of_Z_nonneg total Ht).
  unfold Str.of_N at 1. rewrite span_digits_uint by done.
  rewrite drop_prefix_app. cbn [mbind option_bind].
  unfold Str.of_N at 1. rewrite span_digits_uint by done.
  rewrite drop_prefix_app. cbn [mbind option_bind].
  unfold Str.of_N at 1.
  rewrite <- (string_app_nil_r (NilEmpty.string_of_uint (N.to_uint (Z.to_N total)))).
  rewrite span_digits_uint by done.
  fold (Str.of_N (Z.to_N start)) (Str.of_N (Z.to_N end_))
    (Str.of_N (Z.to_N total)).
  destruct (String.eqb_spec (Str.of_N (Z.to_N start)) "") as [E|_];
    [by apply of_N_nonempty in E|].
  destruct (String.eqb_spec (Str.of_N (Z.to_N end_)) "") as [E|_];
    [by apply of_N_nonempty in E|].
  destruct (String.eqb_spec (Str.of_N (Z.to_N total)) "") as [E|_];
    [by apply of_N_nonempty in E|].
  done.
Qed.

Lemma content_range_nonempty (start end_ total : Z) :
  exists x h, content_range start end_ total = String x h.
Proof. by eexists _, _. Qed.

Section ChunkRequests.

Variable resolve : Path -> Result Path.
Variable json_dumps : Meta -> bytes.
Variable config : ServerConfig.
Variable uploads : UploadManager.

Lemma do_PUT_client_range (fs : FS) (id : string)
    (start end_ total : Z) (rfile : bytes) :
  read_only config = false ->
  str_contains "/" id = false ->
  0 <= start -> 0 <= end_ -> 0 <= total ->
  do_PUT resolve json_dumps config uploads fs ("/api/upload/" +:+ id)
         (end_ - start + 1) (Some (content_range start end_ total)) rfile
  = match append_chunk resolve json_dumps uploads fs id start (end_ + 1)
                       (rfile_read rfile (end_ - start + 1)) with
    | (Ok meta, fs') => answer fs' [send_json HTTPStatus.OK (PSession meta)]
    | (Raise e, fs') =>
        match except_PUT e with
        | Some (status, message) => answer fs' [send_error status message]
        | None => escapes fs' e
        end
    end.
Proof.
  intros Hrw Hid Hs He Ht. unfold do_PUT, _require_write.
  rewrite startswith_app, Hrw, last_segment_upload by done. simpl negb.
  cbv iota.
  destruct (content_range_nonempty start end_ total) as (x & h & E).
  pose proof (match_content_range_request start end_ total Hs He Ht) as Hm.
  rewrite E in *. rewrite Hm.
  rewrite !int_of_str_of_Z by done. by rewrite Z.eqb_refl.
Qed.


(** A PUT with such a header for a session that is not on disk is
    answered 404, and nothing is written. *)
Theorem put_to_unknown_session (fs : FS) (id : string)
    (start end_ total : Z) (rfile : bytes) :
  read_only config = false ->
  str_contains "/" id = false ->
  0 <= start -> 0 <= end_ -> 0 <= total ->
  fs !! _state_file uploads id = None ->
  do_PUT resolve json_dumps config uploads fs ("/api/upload/" +:+ id)
         (end_ - start + 1) (Some (content_range start end_ total)) rfile
  = answer fs [send_error HTTPStatus.NOT_FOUND not_found_msg].
Proof.
  intros Hrw Hid Hs He Ht Hnone. unfold do_PUT, _require_write.
  rewrite startswith_app, Hrw, last_segment_upload by done. simpl negb.
  cbv iota.
  destruct (content_range_nonempty start end_ total) as (x & h & E).
  pose proof (match_content_range_request start end_ total Hs He Ht) as Hm.
  rewrite E in *. rewrite Hm.
  rewrite !int_of_str_of_Z by done. rewrite Z.eqb_refl. simpl negb. cbv iota.
  unfold append_chunk, _load_state. by rewrite Hnone.
Qed.

End ChunkRequests.


Lemma put_to_unknown_session_witness :
  do_PUT Sample.resolve Sample.json_dumps (Sample.config false) Sample.manager
         Sample.disk ("/api/upload/" +:+ "nobody") (1 - 0 + 1)
         (Some (content_range 0 1 3)) Scenario.ab
  = answer Sample.disk [send_error HTTPStatus.NOT_FOUND not_found_msg].
Proof.
  apply (put_to_unknown_session Sample.resolve Sample.json_dumps
           (Sample.config false) Sample.manager Sample.disk "nobody" 0 1 3
           Scenario.ab); (reflexivity || lia).
Defined.

(** ** Making directories *)

Lemma mkdir_from_spec (todo made : list string) (fs : FS) :
  (forall k, (0 < k <= length todo)%nat ->
             fsops.is_file fs (made ++ take k todo) = false) ->
  exists fs',
    fsops.mkdir_from fs made todo = Ok fs'
    /\ (forall k, (0 < k <= length todo)%nat ->
                  fs' !! (made ++ take k todo) = Some Dir)
    /\ (forall p node, fs !! p = Some node -> fs' !! p = Some node)
    /\ (forall p, fs !! p = None -> fs' !! p <> None ->
                  exists k, (0 < k <= length todo)%nat
                            /\ p = made ++ take k todo).
Proof.
  revert made fs. induction todo as [|x todo IH]; intros made fs Hfree.
  - exists fs. split; [done|]. split; [simpl; lia|]. split; [done|].
    intros p Hp Hp'. by rewrite Hp in Hp'.
  - pose proof (Hfree 1%nat ltac:(simpl; lia)) as H1.
    change (take 1 (x :: todo)) with [x] in H1.
    assert (forall k, made ++ take (S k) (x :: todo)
                      = (made ++ [x]) ++ take k todo) as Hshift.
    { intros k. by rewrite <- app_assoc. }
    simpl. unfold fsops.is_file in H1.
    destruct (fs !! (made ++ [x])) as [[|c]|] eqn:Hq; [|done|].
    + destruct (IH (made ++ [x]) fs) as (fs' & Hrun & Ha & Hb & Hc).
      { intros k Hk. rewrite <- Hshift. apply Hfree. simpl. lia. }
      exists fs'. split; [done|]. split; [|split; [done|]].
      * intros [|[|k]] Hk; [lia| |].
        -- change (take 1 (x :: todo)) with [x]. by apply Hb.
        -- rewrite Hshift. apply Ha. simpl in Hk. lia.
      * intros p Hp Hp'. destruct (Hc p Hp Hp') as (k & Hk & ->).
        exists (S k). split; [simpl; lia|]. by rewrite Hshift.
    + set (fs1 := <[made ++ [x] := Dir]> fs).
      assert (forall k, (0 < k <= length todo)%nat ->
                        made ++ [x] <> (made ++ [x]) ++ take k todo) as Hne.
      { intros k Hk E. apply (f_equal length) in E.
        rewrite !length_app, length_take in E. simpl in E. lia. }
      destruct (IH (made ++ [x]) fs1) as (fs' & Hrun & Ha & Hb & Hc).
      { intros k Hk. unfold fsops.is_file, fs1.
        rewrite lookup_insert_ne by (by apply Hne).
        rewrite <- Hshift. apply Hfree. simpl. lia. }
      exists fs'. split; [done|]. split; [|split].
      * intros [|[|k]] Hk; [lia| |].
        -- change (take 1 (x :: todo)) with [x]. apply Hb.
           unfold fs1. by rewrite lookup_insert_eq.
        -- rewrite Hshift. apply Ha. simpl in Hk. lia.
      * intros p node Hp. apply Hb. unfold fs1.
        rewrite lookup_insert_ne; [done|]. intros <-. congruence.
      * intros p Hp Hp'.
        destruct (decide (p = made ++ [x])) as [->|Hpq].
        { exists 1%nat. split; [simpl; lia|done]. }
        destruct (Hc p) as (k & Hk & ->); [|done|].
        { unfold fs1. by rewrite lookup_insert_ne. }
        exists (S k). split; [simpl; lia|]. by rewrite Hshift.
Qed.

Lemma mkdir_from_onto_file (todo made : list string) (x : string) (fs : FS)
    (c : Content) :
  (forall k, (0 < k <= length todo)%nat ->
             fs !! (made ++ take k todo) = Some Dir) ->
  fs !! (made ++ todo ++ [x]) = Some (File c) ->
  fsops.mkdir_from fs made (todo ++ [x])
  = Raise (FileExistsError "File exists").
Proof.
  revert made. induction todo as [|y todo IH]; intros made Hdirs Hfile.
  - simpl in *. by rewrite Hfile.
  - pose proof (Hdirs 1%nat ltac:(simpl; lia)) as H1.
    change (take 1 (y :: todo)) with [y] in H1.
    simpl. rewrite H1. apply IH.
    + intros k Hk. rewrite <- app_assoc. apply (Hdirs (S k)). simpl. lia.
    + by rewrite <- app_assoc.
Qed.

Section Directories.

Variable resolve : Path -> Result Path.
Variable json_dumps : Meta -> bytes.
Variable zip_encode : list ZipEntry -> bytes.
Variable config : ServerConfig.
Variable uploads : UploadManager.


(** X12. Asking to make a directory where a regular file already is
    gets no answer at all: on a tree-shaped disk [mkdir] raises
    [FileExistsError], which no [except] clause of the endpoint
    catches, and the disk stays as it was. *)
Theorem mkdir_onto_file_is_unanswered (fs : FS) (uuid : string) (now : Z)
    (fields : gmap string JValue) (rel : string) (tp : Path) (c : Content) :
  read_only config = false ->
  fields !! "path" = Some (JStr rel) ->
  _safe_join resolve (share_root config) rel = Ok tp ->
  tp <> [] ->
  tree_shaped fs ->
  fs !! tp = Some (File c) ->
  exists message,
    do_POST resolve json_dumps zip_encode config uploads fs uuid now
            "/api/mkdir" (JsonObject fields)
    = escapes fs (FileExistsError message).
Proof.
  intros Hrw Hpath Hjoin Hne Hts Htp.
  destruct (Hts _ _ Htp) as [Habove Hanchor].
  destruct (exists_last Hne) as (front & x & ->).
  exists "File exists".
  unfold do_POST, post_mkdir, _require_write. rewrite Hrw. simpl.
  unfold getitem. rewrite Hpath. simpl. rewrite Hjoin. simpl.
  unfold fsops.mkdir_parents. rewrite (mkdir_from_onto_file front [] x fs c).
  - done.
  - intros k Hk. simpl.
    destruct (drop k front ++ [x]) as [|w rest] eqn:Hrest.
    { by destruct (drop k front). }
    apply (Habove (take k front) w rest).
    + rewrite <- Hrest, app_assoc. by rewrite take_drop.
    + intros E. apply (f_equal length) in E. rewrite length_take in E.
      simpl in E. lia.
  - done.
Qed.

End Directories.


Lemma mkdir_onto_file_is_unanswered_witness :
  exists message,
    do_POST Sample.resolve Sample.json_dumps Sample.zip_encode
            (Sample.config false) Sample.manager Sample.disk "u9" 7
            "/api/mkdir" (JsonObject {[ "path" := JStr "a.txt" ]})
    = escapes Sample.disk (FileExistsError message).
Proof.
  apply (mkdir_onto_file_is_unanswered Sample.resolve Sample.json_dumps
           Sample.zip_encode (Sample.config false) Sample.manager Sample.disk
           "u9" 7 {[ "path" := JStr "a.txt" ]} "a.txt"
           (Sample.root ++ ["a.txt"]) (Bytes Sample.hello)).
  - reflexivity.
  - vm_compute. reflexivity.
  - vm_compute. reflexivity.
  - discriminate.
  - apply tree_shapedb_sound. vm_compute. reflexivity.
  - vm_compute. reflexivity.
Defined.

(** ** Deleting and moving *)

Lemma is_under_refl (p : Path) : is_under p p = true.
Proof.
  unfold is_under. rewrite <- (app_nil_r p) at 1. by rewrite relative_to_app.
Qed.

Lemma is_under_app (dir rest : Path) : is_under dir (dir ++ rest) = true.
Proof. unfold is_under. by rewrite relative_to_app. Qed.

Lemma is_under_true (dir p : Path) :
  is_under dir p = true -> exists rest, p = dir ++ rest.
Proof.
  unfold is_under.
  destruct (pathlib.relative_to p dir) as [rest|] eqn:E; [|done].
  intros _. exists rest. by apply relative_to_Ok.
Qed.

Lemma rmtree_lookup (fs : FS) (dir p : Path) :
  rmtree fs dir !! p = if is_under dir p then None else fs !! p.
Proof.
  unfold rmtree. destruct (is_under dir p) eqn:E.
  - apply map_lookup_filter_None. right. intros x _. simpl. by rewrite E.
  - destruct (fs !! p) as [x|] eqn:Hp.
    + by apply map_lookup_filter_Some.
    + apply map_lookup_filter_None. by left.
Qed.

Section DeleteAndMove.

Variable resolve : Path -> Result Path.
Variable json_dumps : Meta -> bytes.
Variable zip_encode : list ZipEntry -> bytes.
Variable config : ServerConfig.
Variable uploads : UploadManager.




(** X16. A request body without the key an endpoint reads first is
    answered 400 with the key's name, and the disk is left alone; an
    empty body counts as an object without keys. *)
Theorem post_without_its_key (fs : FS) (uuid : string) (now : Z)
    (path key : string) (body : RequestBody) :
  (path, key) ∈ [("/api/upload/session", "path"); ("/api/mkdir", "path");
                 ("/api/delete", "path"); ("/api/move", "source");
                 ("/api/zip", "paths")] ->
  path = "/api/zip" \/ read_only config = false ->
  body = NoBody \/ (exists fields, body = JsonObject fields
                                   /\ fields !! key = None) ->
  do_POST resolve json_dumps zip_encode config uploads fs uuid now path body
  = answer fs [send_error HTTPStatus.BAD_REQUEST ("'" +:+ key +:+ "'")].
Proof.
  intros Hin Hrw Hbody.
  assert (exists fields, _read_json body = Ok fields /\ fields !! key = None)
    as (fields & Hread & Hkey).
  { destruct Hbody as [->|(fields & -> & Hk)]; [|by exists fields].
    exists ∅. by split. }
  repeat (apply elem_of_cons in Hin as [[= -> ->]|Hin]);
    [| | | | |by apply not_elem_of_nil in Hin];
    unfold do_POST, post_upload_session, post_mkdir, post_delete, post_move,
      post_zip, _require_write; simpl;
    try (destruct Hrw as [Hrw|Hrw]; [discriminate Hrw|rewrite Hrw; simpl]);
    rewrite Hread; simpl; unfold getitem; by rewrite Hkey.
Qed.

End DeleteAndMove.




Lemma post_without_its_key_witness :
  do_POST Sample.resolve Sample.json_dumps Sample.zip_encode
          (Sample.config false) Sample.manager Sample.disk "u9" 7
          "/api/move" NoBody
  = answer Sample.disk
           [send_error HTTPStatus.BAD_REQUEST ("'" +:+ "source" +:+ "'")].
Proof.
  apply (post_without_its_key Sample.resolve Sample.json_dumps
           Sample.zip_encode (Sample.config false) Sample.manager Sample.disk
           "u9" 7 "/api/move" "source" NoBody).
  - set_solver.
  - by right.
  - by left.
Defined.

(** ** Downloads *)

Lemma send_loop_writes (fuel : nat) (data : bytes) (pos : nat)
    (remaining : Z) (sent : list WireEvent) :
  send_loop fuel data pos remaining = Some sent ->
  forallb is_write sent = true.
Proof.
  revert pos remaining sent.
  induction fuel as [|fuel IH]; intros pos remaining sent; simpl.
  - destruct (remaining <=? 0); [|done]. by intros [= <-].
  - destruct (remaining <=? 0); [by intros [= <-]|].
    destruct (take _ (drop pos data)) as [|b got] eqn:Hgot;
      [by intros [= <-]|].
    destruct (send_loop fuel data _ _) as [rest|] eqn:Hrest; [|done].
    simpl. intros [= <-]. simpl. by eapply IH.
Qed.

Section Downloads.

Variable resolve : Path -> Result Path.
Variable json_dumps : Meta -> bytes.
Variable guess_type : string -> option string.
Variable config : ServerConfig.

(** What [_send_file] puts on the wire once the range is settled. *)
Lemma send_file_selected (fs : FS) (rel_path : string) (file_path : Path)
    (c : Content) (range_header : option string) (start end_ : Z)
    (status : HTTPStatus.t) :
  let data := file_bytes json_dumps c in
  let N := Z.of_nat (length data) in
  _safe_join resolve (share_root config) rel_path = Ok file_path ->
  fs !! file_path = Some (File c) ->
  select_range N range_header = Ok (start, end_, status, false) ->
  exists sent,
    _send_file resolve json_dumps guess_type config fs range_header rel_path
    = Ok (([send_response status;
            send_header "Content-Type"
                        (default "application/octet-stream"
                                 (guess_type (pathlib.name file_path)));
            send_header "Accept-Ranges" "bytes";
            send_header "Content-Length" (Str.of_Z (end_ - start + 1))]
           ++ (if HTTPStatus.eqb status HTTPStatus.PARTIAL_CONTENT
               then [send_header "Content-Range"
                                 (content_range start end_ N)]
               else [])
           ++ [end_headers]) ++ sent)
    /\ body_of sent = take (Z.to_nat (end_ - start + 1))
                           (drop (Z.to_nat start) data)
    /\ forallb is_write sent = true.
Proof.
  intros data N Hjoin Hfile Hsel.
  unfold _send_file. rewrite Hjoin. cbn [bind]. rewrite Hfile.
  fold data N. rewrite Hsel. cbn [bind].
  destruct (send_loop_body (Z.to_nat (end_ - start + 1)) data
              (Z.to_nat start) (end_ - start + 1)) as (sent & Hsent & Hbody);
    [lia|].
  rewrite Hsent. exists sent. split; [done|]. split; [done|].
  by eapply send_loop_writes.
Qed.

(** X17. A download without a [Range] header, with an empty one, or
    with one that is not of the form [bytes=...-...], is answered 200
    with the length of the file, no [Content-Range], and the whole file
    as the body, written after the headers. *)
Theorem download_without_range (fs : FS) (rel_path : string)
    (file_path : Path) (c : Content) (range_header : option string) :
  let data := file_bytes json_dumps c in
  _safe_join resolve (share_root config) rel_path = Ok file_path ->
  fs !! file_path = Some (File c) ->
  range_header = None \/ range_header = Some ""
  \/ (exists h, range_header = Some h /\ match_range h = None) ->
  exists sent,
    _send_file resolve json_dumps guess_type config fs range_header rel_path
    = Ok ([send_response HTTPStatus.OK;
           send_header "Content-Type"
                       (default "application/octet-stream"
                                (guess_type (pathlib.name file_path)));
           send_header "Accept-Ranges" "bytes";
           send_header "Content-Length" (Str.of_Z (Z.of_nat (length data)));
           end_headers] ++ sent)
    /\ body_of sent = data
    /\ forallb is_write sent = true.
Proof.
  intros data Hjoin Hfile Hrange.
  destruct (send_file_selected fs rel_path file_path c range_header 0
              (Z.of_nat (length data) - 1) HTTPStatus.OK Hjoin Hfile)
    as (sent & Hrun & Hbody & Hw).
  { unfold select_range.
    destruct Hrange as [->|[->|(h & -> & Hm)]]; [done|done|].
    rewrite Hm. by destruct (h =? "")%string. }
  exists sent. split; [|split; [|done]].
  - rewrite Hrun. fold data.
    by replace (Z.of_nat (length data) - 1 - 0 + 1)
      with (Z.of_nat (length data)) by lia.
  - rewrite Hbody. fold data. simpl drop.
    apply take_ge. lia.
Qed.


(** X19. A range whose end lies before its start (the start inside the
    file) is not refused: it is answered 206 with a [Content-Length]
    that is zero or negative and no body at all. *)
Theorem reversed_range_sends_nothing (fs : FS) (rel_path : string)
    (file_path : Path) (c : Content) (start e : Z) :
  let data := file_bytes json_dumps c in
  let N := Z.of_nat (length data) in
  _safe_join resolve (share_root config) rel_path = Ok file_path ->
  fs !! file_path = Some (File c) ->
  0 <= e < start -> start < N ->
  _send_file resolve json_dumps guess_type config fs
             (Some (range_request start (Some e))) rel_path
  = Ok [send_response HTTPStatus.PARTIAL_CONTENT;
        send_header "Content-Type"
                    (default "application/octet-stream"
                             (guess_type (pathlib.name file_path)));
        send_header "Accept-Ranges" "bytes";
        send_header "Content-Length" (Str.of_Z (e - start + 1));
        send_header "Content-Range" (content_range start e N);
        end_headers]
  /\ e - start + 1 <= 0.
Proof.
  intros data N Hjoin Hfile He Hstart. split; [|lia].
  unfold _send_file. rewrite Hjoin. cbn [bind]. rewrite Hfile. fold data N.
  rewrite select_range_request by (simpl; lia).
  cbn [default from_option id].
  destruct (Z.leb_spec N start); [lia|].
  destruct (Z.leb_spec N e); [lia|]. cbn [bind].
  replace (Z.to_nat (e - start + 1)) with 0%nat by lia.
  cbn [send_loop]. destruct (Z.leb_spec (e - start + 1) 0); [done|lia].
Qed.

End Downloads.

Lemma span_digits_stop (s : string) :
  stops_digits s -> Str.span_digits s = ("", s).
Proof. destruct s as [|a s]; [done|]. simpl. by intros ->. Qed.

Lemma match_range_suffix (k : Z) :
  0 <= k -> match_range (suffix_range_request k) = Some ("", Str.of_Z k).
Proof.
  intros Hk. unfold match_range, suffix_range_request.
  change ("bytes=-" +:+ Str.of_Z k) with ("bytes=" +:+ "-" +:+ Str.of_Z k).
  rewrite drop_prefix_app. cbn [mbind option_bind].
  rewrite span_digits_stop by done.
  rewrite drop_prefix_app. cbn [mbind option_bind].
  rewrite (of_Z_nonneg k Hk). unfold Str.of_N at 1.
  rewrite <- (string_app_nil_r (NilEmpty.string_of_uint _)).
  by rewrite span_digits_uint.
Qed.


Lemma download_without_range_witness :
  exists sent,
    _send_file Sample.resolve Sample.json_dumps Sample.guess_type
               (Sample.config true) Sample.disk (Some "items=0-1") "a.txt"
    = Ok ([send_response HTTPStatus.OK;
           send_header "Content-Type"
                       (default "application/octet-stream"
                                (Sample.guess_type
                                   (pathlib.name (Sample.root ++ ["a.txt"]))));
           send_header "Accept-Ranges" "bytes";
           send_header "Content-Length"
                       (Str.of_Z (Z.of_nat (length Sample.hello)));
           end_headers] ++ sent)
    /\ body_of sent = Sample.hello
    /\ forallb is_write sent = true.
Proof.
  apply (download_without_range Sample.resolve Sample.json_dumps
           Sample.guess_type (Sample.config true) Sample.disk "a.txt"
           (Sample.root ++ ["a.txt"]) (Bytes Sample.hello)
           (Some "items=0-1")).
  - vm_compute. reflexivity.
  - vm_compute. reflexivity.
  - right. right. exists "items=0-1". split; reflexivity.
Defined.


Lemma reversed_range_sends_nothing_witness :
  _send_file Sample.resolve Sample.json_dumps Sample.guess_type
             (Sample.config true) Sample.disk
             (Some (range_request 3 (Some 1))) "a.txt"
  = Ok [send_response HTTPStatus.PARTIAL_CONTENT;
        send_header "Content-Type"
                    (default "application/octet-stream"
                             (Sample.guess_type
                                (pathlib.name (Sample.root ++ ["a.txt"]))));
        send_header "Accept-Ranges" "bytes";
        send_header "Content-Length" (Str.of_Z (1 - 3 + 1));
        send_header "Content-Range"
                    (content_range 3 1 (Z.of_nat (length Sample.hello)));
        end_headers]
  /\ 1 - 3 + 1 <= 0.
Proof.
  apply (reversed_range_sends_nothing Sample.resolve Sample.json_dumps
           Sample.guess_type (Sample.config true) Sample.disk "a.txt"
           (Sample.root ++ ["a.txt"]) (Bytes Sample.hello) 3 1).
  - vm_compute. reflexivity.
  - vm_compute. reflexivity.
  - lia.
  - simpl. lia.
Defined.


(** The request for the last two bytes of [hello] is answered with its
    first three. *)
Example suffix_range_run :
  body_of <$> (match _send_file Sample.resolve Sample.json_dumps
                                Sample.guess_type (Sample.config true)
                                Sample.disk (Some "bytes=-2") "a.txt" with
               | Ok trace => Some trace
               | Raise _ => None
               end)
  = Some [Byte.x68; Byte.x65; Byte.x6c].
Proof. vm_compute. reflexivity. Qed.

(** ** Sorting *)

Section Insertion.

Context {A : Type} (lt : A -> A -> bool).

Hypothesis lt_asym : forall a b, lt a b = true -> lt b a = false.
Hypothesis le_trans :
  forall a b c, lt b a = false -> lt c b = false -> lt c a = false.

Lemma insert_by_perm (x : A) (l : list A) : insert_by lt x l ≡ₚ x :: l.
Proof.
  induction l as [|y l IH]; [done|]. simpl.
  destruct (lt y x); [|done]. rewrite IH. apply Permutation_swap.
Qed.

Lemma sorted_perm (l : list A) : sorted lt l ≡ₚ l.
Proof.
  induction l as [|x l IH]; [done|].
  unfold sorted in *. simpl. by rewrite insert_by_perm, IH.
Qed.

Lemma insert_by_sorted (x : A) (l : list A) :
  StronglySorted (fun a b => lt b a = false) l ->
  StronglySorted (fun a b => lt b a = false) (insert_by lt x l).
Proof.
  induction 1 as [|y l Hl IH Hy]; simpl.
  - repeat constructor.
  - destruct (lt y x) eqn:E.
    + constructor; [done|]. rewrite insert_by_perm.
      constructor; [by apply lt_asym|done].
    + constructor; [by constructor|]. constructor; [done|].
      eapply Forall_impl; [exact Hy|]. intros z Hz. by eapply le_trans.
Qed.

Lemma sorted_sorted (l : list A) :
  StronglySorted (fun a b => lt b a = false) (sorted lt l).
Proof.
  induction l as [|x l IH]; [constructor|].
  unfold sorted in *. simpl. by apply insert_by_sorted.
Qed.

End Insertion.

Lemma strongly_sorted_filter {A} (R : A -> A -> Prop) (f : A -> bool)
    (l : list A) :
  StronglySorted R l -> StronglySorted R (List.filter f l).
Proof.
  induction 1 as [|x l Hl IH Hx]; [constructor|]. simpl.
  destruct (f x); [|done]. constructor; [done|].
  apply Forall_forall. intros y Hy%list_elem_of_In%filter_In.
  destruct Hy as [Hy _]. rewrite Forall_forall in Hx. apply Hx.
  by apply list_elem_of_In.
Qed.

Lemma strongly_sorted_map {A B} (R : A -> A -> Prop) (S : B -> B -> Prop)
    (g : A -> B) (l : list A) :
  (forall a b, R a b -> S (g a) (g b)) ->
  StronglySorted R l -> StronglySorted S (map g l).
Proof.
  intros HRS. induction 1 as [|x l Hl IH Hx]; [constructor|]. simpl.
  constructor; [done|]. apply Forall_map.
  eapply Forall_impl; [exact Hx|]. intros y. apply HRS.
Qed.

Lemma strongly_sorted_lookup {A} (R : A -> A -> Prop) (l : list A)
    (i j : nat) (a b : A) :
  StronglySorted R l -> (i < j)%nat ->
  l !! i = Some a -> l !! j = Some b -> R a b.
Proof.
  intros Hs. revert i j. induction Hs as [|x l Hl IH Hx]; intros i j Hij Hi Hj.
  - done.
  - destruct j as [|j]; [lia|]. destruct i as [|i].
    + simpl in Hi. inversion Hi; subst. rewrite Forall_forall in Hx.
      apply Hx. by eapply list_elem_of_lookup_2.
    + simpl in *. apply (IH i j); [lia|done|done].
Qed.

(** ** The order of names *)

Lemma ascii_compare_trans_lt (x y z : ascii) :
  Ascii.compare x y = Lt -> Ascii.compare y z = Lt -> Ascii.compare x z = Lt.
Proof.
  unfold Ascii.compare. rewrite !N.compare_lt_iff. lia.
Qed.

Lemma string_le_trans (a b c : string) :
  String.compare a b <> Gt -> String.compare b c <> Gt ->
  String.compare a c <> Gt.
Proof.
  revert b c. induction a as [|x a IH]; intros [|y b] [|z c]; simpl;
    try done.
  destruct (Ascii.compare x y) eqn:Exy; [| |done].
  - apply Ascii.compare_eq_iff in Exy as ->.
    destruct (Ascii.compare y z) eqn:Eyz; [apply IH|done|done].
  - intros _. destruct (Ascii.compare y z) eqn:Eyz; [| |done].
    + apply Ascii.compare_eq_iff in Eyz as ->. by rewrite Exy.
    + by rewrite (ascii_compare_trans_lt _ _ _ Exy Eyz).
Qed.

Lemma ltb_false (a b : string) :
  String.ltb b a = false <-> String.compare a b <> Gt.
Proof.
  unfold String.ltb. rewrite (String.compare_antisym b a).
  destruct (String.compare a b); simpl; split; congruence.
Qed.

Lemma string_ltb_asym (a b : string) :
  String.ltb a b = true -> String.ltb b a = false.
Proof.
  unfold String.ltb. rewrite (String.compare_antisym a b).
  by destruct (String.compare b a).
Qed.

Lemma string_ltb_le_trans (a b c : string) :
  String.ltb b a = false -> String.ltb c b = false -> String.ltb c a = false.
Proof. rewrite !ltb_false. apply string_le_trans. Qed.

Lemma key_lt_asym (a b : bool * string) :
  key_lt a b = true -> key_lt b a = false.
Proof.
  destruct a as [[] s], b as [[] t]; unfold key_lt; simpl; try done;
    intros H; by rewrite (string_ltb_asym _ _ H).
Qed.

Lemma key_le_trans (a b c : bool * string) :
  key_lt b a = false -> key_lt c b = false -> key_lt c a = false.
Proof.
  destruct a as [[] s], b as [[] t], c as [[] u]; unfold key_lt; simpl;
    try done; apply string_ltb_le_trans.
Qed.

(** ** Listing a directory *)

Lemma map_is_fmap {A B} (f : A -> B) (l : list A) : map f l = f <$> l.
Proof. induction l as [|x l IH]; [done|]. simpl. by rewrite IH. Qed.

Lemma listdir_names_NoDup (fs : FS) (dir : Path) :
  NoDup (map fst (pypath.listdir fs dir)).
Proof.
  unfold pypath.listdir.
  pose proof (NoDup_fst_map_to_list fs) as Hnd.
  rewrite <- map_is_fmap in Hnd.
  induction (map_to_list fs) as [|[k v] l IH]; [constructor|].
  simpl in Hnd. apply NoDup_cons in Hnd as [Hk Hnd]. simpl.
  destruct (pathlib.relative_to k dir) as [[|n [|??]]|] eqn:E;
    try (by apply IH).
  simpl. apply NoDup_cons. split; [|by apply IH].
  intros Hin. apply Hk.
  apply list_elem_of_In, in_map_iff in Hin as ([n' node] & Hn & Hin).
  simpl in Hn. subst n'.
  apply list_elem_of_In, list_elem_of_omap in Hin as ([k' v'] & Hin & Hf).
  simpl in Hf.
  destruct (pathlib.relative_to k' dir) as [[|m [|??]]|] eqn:E'; try done.
  inversion Hf; subst.
  apply relative_to_Ok in E, E'. subst.
  apply list_elem_of_In, in_map_iff. exists (dir ++ [n], node).
  split; [done|]. by apply list_elem_of_In.
Qed.

Lemma NoDup_fst_filter {A B} (f : A * B -> bool) (l : list (A * B)) :
  NoDup (map fst l) -> NoDup (map fst (List.filter f l)).
Proof.
  induction l as [|x l IH]; [done|]. simpl.
  intros [Hx Hl]%NoDup_cons. destruct (f x); [|by apply IH].
  simpl. apply NoDup_cons. split; [|by apply IH].
  intros Hin. apply Hx.
  apply list_elem_of_In, in_map_iff in Hin as (y & Hy & Hin).
  apply filter_In in Hin as [Hin _].
  apply list_elem_of_In, in_map_iff. by exists y.
Qed.

Lemma listed_name (path : Path) (json_dumps : Meta -> bytes)
    (dir_size : Path -> Z) (modified_of : Path -> string)
    (l : list (string * Node)) :
  map le_name (map (listed json_dumps dir_size modified_of path) l)
  = map fst l.
Proof. induction l as [|x l IH]; [done|]. simpl. by rewrite IH. Qed.

Section ListingFacts.

Variable resolve : Path -> Result Path.
Variable json_dumps : Meta -> bytes.
Variable dir_size : Path -> Z.
Variable modified_of : Path -> string.
Variable config : ServerConfig.

(** The entries a listing shows, before they are turned into records. *)
Lemma list_directory_Ok (fs : FS) (rel_path : string) (path : Path) :
  _safe_join resolve (share_root config) rel_path = Ok path ->
  fs !! path = Some Dir ->
  exists shown,
    _list_directory resolve json_dumps dir_size modified_of config fs rel_path
    = Ok {| listing_path :=
              (let stripped := Str.strip "/" rel_path in
               if (stripped =? "")%string then "/" else stripped);
            listing_entries :=
              map (listed json_dumps dir_size modified_of path) shown |}
    /\ shown = List.filter (fun e => negb (Str.startswith "." (fst e)))
                           (sorted entry_lt (pypath.listdir fs path)).
Proof.
  intros Hjoin Hdir. eexists. split; [|reflexivity].
  unfold _list_directory. rewrite Hjoin. cbn [bind].
  rewrite (path_exists_true _ _ _ Hdir). unfold fsops.is_dir.
  by rewrite Hdir.
Qed.

(** X21. The listing of a directory shows exactly its entries whose
    names do not begin with a dot, each once, and for each the kind
    and the size of the entry on disk. *)
Theorem listing_shows_the_visible_entries (fs : FS) (rel_path : string)
    (path : Path) :
  _safe_join resolve (share_root config) rel_path = Ok path ->
  fs !! path = Some Dir ->
  exists l,
    _list_directory resolve json_dumps dir_size modified_of config fs rel_path
    = Ok l
    /\ (forall n, n ∈ map le_name (listing_entries l)
                  <-> is_Some (fs !! (path ++ [n]))
                      /\ Str.startswith "." n = false)
    /\ NoDup (map le_name (listing_entries l))
    /\ (forall e, e ∈ listing_entries l ->
          exists node,
            fs !! (path ++ [le_name e]) = Some node
            /\ le_type e = match node with Dir => "dir" | File _ => "file" end
            /\ le_size e = st_size json_dumps dir_size
                                   (path ++ [le_name e]) node).
Proof.
  intros Hjoin Hdir.
  destruct (list_directory_Ok fs rel_path path Hjoin Hdir)
    as (shown & Hrun & Hshown).
  eexists. split; [exact Hrun|]. cbn [listing_entries].
  assert (forall n node,
             (n, node) ∈ shown
             <-> fs !! (path ++ [n]) = Some node
                 /\ Str.startswith "." n = false) as Hin.
  { intros n node. rewrite Hshown, list_elem_of_In, filter_In.
    rewrite <- list_elem_of_In, (sorted_perm entry_lt), listdir_elem.
    simpl. by rewrite negb_true_iff. }
  split; [|split].
  - intros n. rewrite listed_name. split.
    + intros ([n' node] & <- & H)%list_elem_of_In%in_map_iff.
      apply list_elem_of_In, Hin in H as [H1 H2]. simpl. eauto.
    + intros [[node Hn] Hv]. apply list_elem_of_In, in_map_iff.
      exists (n, node). split; [done|]. by apply list_elem_of_In, Hin.
  - rewrite listed_name, Hshown. apply NoDup_fst_filter.
    rewrite map_is_fmap, (sorted_perm entry_lt), <- map_is_fmap.
    apply listdir_names_NoDup.
  - intros e ([n node] & <- & H)%list_elem_of_In%in_map_iff.
    apply list_elem_of_In, Hin in H as [H1 H2]. exists node.
    by destruct node.
Qed.


End ListingFacts.

Lemma listing_shows_the_visible_entries_witness :
  exists l,
    _list_directory Sample.resolve Sample.json_dumps Scenario.dir_size
                    Scenario.modified_of (Sample.config true)
                    Scenario.disk_mixed "/"
    = Ok l
    /\ (forall n, n ∈ map le_name (listing_entries l)
                  <-> is_Some (Scenario.disk_mixed !! (Sample.root ++ [n]))
                      /\ Str.startswith "." n = false)
    /\ NoDup (map le_name (listing_entries l))
    /\ (forall e, e ∈ listing_entries l ->
          exists node,
            Scenario.disk_mixed !! (Sample.root ++ [le_name e]) = Some node
            /\ le_type e = match node with Dir => "dir" | File _ => "file" end
            /\ le_size e = st_size Sample.json_dumps Scenario.dir_size
                                   (Sample.root ++ [le_name e]) node).
Proof.
  apply (listing_shows_the_visible_entries Sample.resolve Sample.json_dumps
           Scenario.dir_size Scenario.modified_of (Sample.config true)
           Scenario.disk_mixed "/" Sample.root).
  - vm_compute. reflexivity.
  - vm_compute. reflexivity.
Defined.


(** Folders first, then files, capitals and small letters alike; the
    hidden file is left out. *)
Example listing_run :
  (map le_name ∘ listing_entries)
    <$> (match _list_directory Sample.resolve Sample.json_dumps
                               Scenario.dir_size Scenario.modified_of
                               (Sample.config true) Scenario.disk_mixed "/"
         with
         | Ok l => Some l
         | Raise _ => None
         end)
  = Some ["docs"; "Zeta"; "a.txt"; "B.txt"].
Proof. vm_compute. reflexivity. Qed.

(** ** GET requests *)

Lemma safe_join_under (resolve : Path -> Result Path) (root : Path)
    (relative : string) (p : Path) :
  _safe_join resolve root relative = Ok p -> is_under root p = true.
Proof.
  unfold _safe_join, is_under.
  destruct (match resolve _ with
            | Raise (FileNotFoundError _) => Ok _
            | r => r
            end) as [r|]; [|done]. cbn [bind].
  destruct (pathlib.relative_to r root) eqn:E.
  - intros [= <-]. by rewrite E.
  - by destruct (is_ValueError e).
Qed.

Lemma name_child (dir : Path) (n : string) :
  n <> "/" -> pathlib.name (dir ++ [n]) = n.
Proof.
  intros Hn. unfold pathlib.name.
  destruct dir as [|d dir]; simpl.
  - by destruct (String.eqb_spec n "/").
  - destruct (dir ++ [n]) as [|x l] eqn:E; [by destruct dir|].
    rewrite <- E. change (d :: dir ++ [n]) with ((d :: dir) ++ [n]).
    by rewrite last_snoc.
Qed.

Lemma take_drop_infix {A} (n k : nat) (l : list A) :
  exists a b, l = a ++ take n (drop k l) ++ b.
Proof.
  exists (take k l), (drop n (drop k l)). by rewrite !take_drop.
Qed.

Lemma send_loop_infix (fuel : nat) (data : bytes) (pos : nat)
    (remaining : Z) (sent : list WireEvent) (d : bytes) :
  send_loop fuel data pos remaining = Some sent ->
  wfile_write d ∈ sent ->
  exists a b, data = a ++ d ++ b.
Proof.
  revert pos remaining sent.
  induction fuel as [|fuel IH]; intros pos remaining sent; simpl.
  - destruct (remaining <=? 0); [|done]. intros [= <-] H.
    by apply not_elem_of_nil in H.
  - destruct (remaining <=? 0).
    { intros [= <-] H. by apply not_elem_of_nil in H. }
    destruct (take _ (drop pos data)) as [|b got] eqn:Hgot.
    { intros [= <-] H. by apply not_elem_of_nil in H. }
    destruct (send_loop fuel data _ _) as [rest|] eqn:Hrest; [|done].
    simpl. intros [= <-] [[= ->]|H]%elem_of_cons.
    + rewrite <- Hgot. apply take_drop_infix.
    + by eapply IH.
Qed.

Section GetFacts.

Variable resolve : Path -> Result Path.
Variable json_dumps : Meta -> bytes.
Variable guess_type : string -> option string.
Variable unquote : string -> string.
Variable dir_size : Path -> Z.
Variable modified_of : Path -> string.
Variable config : ServerConfig.
Variable uploads : UploadManager.

Abbreviation GET :=
  (do_GET resolve json_dumps guess_type unquote dir_size modified_of config
          uploads).

Lemma get_files (fs : FS) (p q : string) (rh : option string) :
  GET fs ("/files/" +:+ p) q rh
  = helper (_send_file resolve json_dumps guess_type config fs rh
                       (unquote p)).
Proof. reflexivity. Qed.

Lemma get_static (fs : FS) (p q : string) (rh : option string) :
  GET fs ("/static/" +:+ p) q rh
  = helper (_serve_static resolve json_dumps guess_type config fs p).
Proof. reflexivity. Qed.

(** What a listing request that cannot be served is answered
    with: 403 when the path escapes the share root, 404 when nothing
    is at the path, and 404 when a regular file is. *)
Theorem listing_failures_are_answered (fs : FS) (rel : string)
    (rh : option string) :
  match _safe_join resolve (share_root config) rel with
  | Ok path =>
      match fs !! path with
      | None =>
          GET fs "/api/list" rel rh
          = Replied [on_wire (send_error HTTPStatus.NOT_FOUND
                                         "Path does not exist")]
      | Some (File _) =>
          GET fs "/api/list" rel rh
          = Replied [on_wire (send_error HTTPStatus.NOT_FOUND
                                         "Path is not a directory")]
      | Some Dir =>
          exists l, GET fs "/api/list" rel rh
                    = Replied [send_json_get HTTPStatus.OK (GListing l)]
      end
  | Raise (PermissionError m) =>
      GET fs "/api/list" rel rh
      = Replied [on_wire (send_error HTTPStatus.FORBIDDEN m)]
  | Raise _ => True
  end.
Proof.
  unfold do_GET. simpl. unfold _list_directory.
  destruct (_safe_join resolve (share_root config) rel) as [path|e] eqn:Hj.
  - cbn [bind]. unfold fsops.is_dir.
    destruct (fs !! path) as [[|c]|] eqn:Hp.
    + rewrite (path_exists_true _ _ _ Hp). simpl. by eexists.
    + by rewrite (path_exists_true _ _ _ Hp).
    + by rewrite (path_exists_false _ _ Hp).
  - by destruct e.
Qed.

(** X23. A download or static request whose path escapes its root is
    not answered at all: [PermissionError] leaves the handler, no
    status and no byte is sent (only the listing endpoint turns it into
    a 403). *)
Theorem escaping_download_is_unanswered (fs : FS) (p q m : string)
    (rh : option string) :
  (_safe_join resolve (share_root config) (unquote p)
   = Raise (PermissionError m) ->
   GET fs ("/files/" +:+ p) q rh = Raised (PermissionError m))
  /\ (_safe_join resolve (static_dir config) p = Raise (PermissionError m) ->
      GET fs ("/static/" +:+ p) q rh = Raised (PermissionError m)).
Proof.
  split; intros Hj.
  - rewrite get_files. unfold _send_file. by rewrite Hj.
  - rewrite get_static. unfold _serve_static. by rewrite Hj.
Qed.



End GetFacts.

(** A download that reaches above the share root, and the same path
    asked of the listing endpoint. *)
Example escaping_download_run :
  do_GET Sample.resolve Sample.json_dumps Sample.guess_type Scenario.unquote
         Scenario.dir_size Scenario.modified_of (Sample.config true)
         Sample.manager Sample.disk "/files/../../etc/passwd" "" None
  = Raised (PermissionError escape_msg)
  /\ do_GET Sample.resolve Sample.json_dumps Sample.guess_type
            Scenario.unquote Scenario.dir_size Scenario.modified_of
            (Sample.config true) Sample.manager Sample.disk "/api/list"
            "../../etc" None
     = Replied [on_wire (send_error HTTPStatus.FORBIDDEN escape_msg)].
Proof. vm_compute. split; reflexivity. Qed.



(** ** Start-up *)

Lemma mkdir_from_Ok_dirs (todo made : list string) (fs fs' : FS) :
  fsops.mkdir_from fs made todo = Ok fs' ->
  forall k, (0 < k <= length todo)%nat ->
            fs' !! (made ++ take k todo) = Some Dir.
Proof.
  revert made fs. induction todo as [|x todo IH]; intros made fs Hrun k Hk.
  - simpl in Hk. lia.
  - simpl in Hrun.
    assert (exists fs1, fsops.mkdir_from fs1 (made ++ [x]) todo = Ok fs'
                        /\ fs1 !! (made ++ [x]) = Some Dir) as (fs1 & H1 & Hq).
    { destruct (fs !! (made ++ [x])) as [[|c]|] eqn:E.
      - by exists fs.
      - by destruct todo.
      - eexists. split; [exact Hrun|]. by rewrite lookup_insert_eq. }
    destruct k as [|[|k]]; [lia| |].
    + change (take 1 (x :: todo)) with [x].
      destruct (mkdir_from_lookup _ _ _ _ H1 (made ++ [x])) as [->|[E _]];
        [done|congruence].
    + change (made ++ take (S (S k)) (x :: todo))
        with (made ++ x :: take (S k) todo).
      rewrite (cons_middle x made), app_assoc.
      apply (IH _ _ H1). simpl in Hk. lia.
Qed.

Lemma mkdir_parents_Ok (fs fs' : FS) (p : Path) :
  fsops.mkdir_parents fs p = Ok fs' ->
  (p <> [] -> fs' !! p = Some Dir)
  /\ (forall q node, fs !! q = Some node -> fs' !! q = Some node).
Proof.
  intros Hrun. split.
  - intros Hne. pose proof (mkdir_from_Ok_dirs _ _ _ _ Hrun (length p)) as H.
    rewrite firstn_all in H. apply H. destruct p; [done|simpl; lia].
  - intros q node Hq.
    destruct (mkdir_from_lookup _ _ _ _ Hrun q) as [->|[E _]];
      [done|congruence].
Qed.

(** X26. When start-up gets as far as listening: the server is
    read-only unless [--read-write] was given ([--read-only] changes
    nothing), uploads may overwrite only with [--allow-overwrite], the
    share root was an existing directory and still is, the static
    directory existed, and the state directory and its [uploads]
    directory are there, with every earlier entry of the disk kept. *)
Theorem start_up_leaves_a_usable_store (resolve : Path -> Result Path)
    (expanduser : Path -> Result Path) (fs fs' : FS) (args : Namespace)
    (config : ServerConfig) (uploads : UploadManager) :
  start resolve expanduser fs args = Ok (Some (config, uploads, fs')) ->
  read_only config = negb (arg_read_write args)
  /\ overwrite config = arg_allow_overwrite args
  /\ uploads = uploads_of config
  /\ fsops.is_dir fs (share_root config) = true
  /\ fsops.is_dir fs' (share_root config) = true
  /\ fsops.path_exists fs (static_dir config) = true
  /\ (state_dir config <> [] -> fs' !! state_dir config = Some Dir)
  /\ fs' !! _upload_dir uploads = Some Dir
  /\ (forall p node, fs !! p = Some node -> fs' !! p = Some node).
Proof.
  unfold start, _parse_args.
  destruct (p <- expanduser _ ;; resolve p) as [sr|]; [|done]. cbn [bind].
  destruct (fsops.path_exists fs sr) eqn:Hex; [|done].
  destruct (fsops.is_dir fs sr) eqn:Hsr; [|done]. simpl.
  destruct (p <- expanduser _ ;; resolve p) as [sd|]; [|done]. cbn [bind].
  destruct (fsops.path_exists fs sd) eqn:Hsd; [|done]. simpl.
  destruct (p <- expanduser _ ;; resolve p) as [st|]; [|done]. cbn [bind].
  destruct (fsops.mkdir_parents fs st) as [fs1|] eqn:Hmk; [|done].
  cbn [bind]. unfold UploadManager_init. cbn [state_dir share_root overwrite].
  destruct (fsops.mkdir_parents fs1 (st ++ ["uploads"])) as [fs2|] eqn:Hmk2;
    [|done].
  cbn [bind fst snd]. intros [= <- <- <-].
  destruct (mkdir_parents_Ok _ _ _ Hmk) as [Hst Hkeep1].
  destruct (mkdir_parents_Ok _ _ _ Hmk2) as [Hup Hkeep2].
  cbn [read_only overwrite share_root static_dir state_dir _upload_dir].
  split; [by destruct (arg_read_write args), (arg_read_only args)|].
  split; [done|]. split; [done|]. split; [done|].
  split; [|split; [done|split; [|split]]].
  - unfold fsops.is_dir in *.
    destruct (fs !! sr) as [[|c]|] eqn:E; try done.
    by rewrite (Hkeep2 _ _ (Hkeep1 _ _ E)).
  - intros Hne. by apply Hkeep2, Hst.
  - apply Hup. by destruct st.
  - intros p node Hp. by apply Hkeep2, Hkeep1.
Qed.

Lemma start_up_leaves_a_usable_store_witness :
  let config := Sample.config false in
  let uploads := Sample.manager in
  let fs := Scenario.disk_static in
  read_only config = negb (arg_read_write Scenario.args)
  /\ overwrite config = arg_allow_overwrite Scenario.args
  /\ uploads = uploads_of config
  /\ fsops.is_dir fs (share_root config) = true
  /\ fsops.is_dir fs (share_root config) = true
  /\ fsops.path_exists fs (static_dir config) = true
  /\ (state_dir config <> [] -> fs !! state_dir config = Some Dir)
  /\ fs !! _upload_dir uploads = Some Dir
  /\ (forall p node, fs !! p = Some node -> fs !! p = Some node).
Proof.
  apply (start_up_leaves_a_usable_store Sample.resolve Scenario.expanduser
           Scenario.disk_static Scenario.disk_static Scenario.args
           (Sample.config false) Sample.manager).
  reflexivity.
Defined.

(** ** The client: downloads *)

Lemma copy_loop_all (chunk_size : Z) (body : bytes) (fuel pos : nat) :
  chunk_size <> 0 ->
  (length body - pos < fuel)%nat ->
  copy_loop chunk_size fuel body pos = Some (drop pos body).
Proof.
  intros Hcs. revert pos. induction fuel as [|fuel IH]; intros pos Hfuel.
  - lia.
  - cbn [copy_loop]. unfold fp_read.
    destruct (drop pos body) as [|b rest] eqn:Hd.
    { by destruct (chunk_size <? 0); [|rewrite take_nil]. }
    assert (pos < length body)%nat as Hpos.
    { apply (f_equal length) in Hd. rewrite length_drop in Hd.
      simpl in Hd. lia. }
    set (chunk := if chunk_size <? 0 then b :: rest
                  else take (Z.to_nat chunk_size) (b :: rest)).
    assert (exists b' chunk', chunk = b' :: chunk') as (b' & chunk' & Hc).
    { unfold chunk. destruct (Z.ltb_spec chunk_size 0); [by eexists _, _|].
      destruct (Z.to_nat chunk_size) as [|n] eqn:E; [lia|].
      by eexists _, _. }
    assert (chunk ++ drop (length chunk) (b :: rest) = b :: rest) as Hsplit.
    { unfold chunk. destruct (chunk_size <? 0).
      - by rewrite drop_all, app_nil_r.
      - rewrite <- (take_length_take (Z.to_nat chunk_size)) at 1.
        by rewrite take_drop. }
    fold chunk. rewrite Hc, <- Hc.
    rewrite IH.
    + simpl. rewrite <- drop_drop, Hd. by rewrite Hsplit.
    + rewrite Hc. simpl. lia.
Qed.

Lemma status_of_response (status : HTTPStatus.t) (rest : list WireEvent) :
  status_of (send_response status :: rest) = Some status.
Proof. reflexivity. Qed.

Section DownloadFacts.

Variable chunk_size : Z.
Variable resolve : Path -> Result Path.
Variable json_dumps : Meta -> bytes.
Variable guess_type : string -> option string.
Variable local_dir_size : Path -> Z.
Variable config : ServerConfig.

Abbreviation fetch :=
  (request_file resolve json_dumps guess_type config).

(** What the server answers to the requests [download] makes. *)
Lemma request_file_answers (server : FS) (remote : string) (file_path : Path)
    (c : Content) :
  let data := file_bytes json_dumps c in
  _safe_join resolve (share_root config) remote = Ok file_path ->
  server !! file_path = Some (File c) ->
  fetch server remote None = Response 200 data
  /\ forall k : nat,
       (0 < k)%nat ->
       fetch server remote (Some ("bytes=" +:+ Str.of_Z (Z.of_nat k) +:+ "-"))
       = if (k <? length data)%nat then Response 206 (drop k data)
         else HTTPError 416.
Proof.
  intros data Hjoin Hfile. split.
  - destruct (send_file_selected resolve json_dumps guess_type config server
                remote file_path c None 0 (Z.of_nat (length data) - 1)
                HTTPStatus.OK Hjoin Hfile eq_refl)
      as (sent & Hrun & Hbody & _).
    unfold request_file. rewrite Hrun. unfold urlopen_bytes.
    cbn [app]. rewrite status_of_response. simpl is_2xx. cbv iota.
    simpl HTTPStatus.code. f_equal. simpl body_of. rewrite Hbody.
    fold data. simpl drop. apply take_ge. lia.
  - intros k Hk.
    replace ("bytes=" +:+ Str.of_Z (Z.of_nat k) +:+ "-")
      with (range_request (Z.of_nat k) None)
      by (unfold range_request; by rewrite string_app_nil_r).
    destruct (Nat.ltb_spec k (length data)) as [Hlt|Hge].
    + destruct (send_file_selected resolve json_dumps guess_type config
                  server remote file_path c
                  (Some (range_request (Z.of_nat k) None)) (Z.of_nat k)
                  (Z.of_nat (length data) - 1) HTTPStatus.PARTIAL_CONTENT
                  Hjoin Hfile)
        as (sent & Hrun & Hbody & _).
      { fold data. rewrite select_range_request by (simpl; lia).
        cbn [default from_option id].
        destruct (Z.leb_spec (Z.of_nat (length data)) (Z.of_nat k)); [lia|].
        destruct (Z.leb_spec (Z.of_nat (length data))
                             (Z.of_nat (length data) - 1)); [lia|done]. }
      unfold request_file. rewrite Hrun. unfold urlopen_bytes.
      cbn [app]. rewrite status_of_response. simpl is_2xx. cbv iota.
      simpl HTTPStatus.code. f_equal. simpl body_of. rewrite Hbody.
      fold data. rewrite Nat2Z.id. apply take_ge. rewrite length_drop. lia.
    + unfold request_file, _send_file. rewrite Hjoin. cbn [bind].
      rewrite Hfile. fold data.
      rewrite select_range_request by (simpl; lia).
      destruct (Z.leb_spec (Z.of_nat (length data)) (Z.of_nat k)); [|lia].
      done.
Qed.



End DownloadFacts.



(** ** The client: uploads *)

Lemma session_request_fields (remote : string) (N : Z) (resume flag : bool) :
  exists fields,
    session_request remote N resume flag = JsonObject fields
    /\ fields !! "path" = Some (JStr remote)
    /\ fields !! "size" = Some (JInt N)
    /\ fields !! "resume" = Some (JBool resume)
    /\ fields !! "overwrite" = Some (JBool flag).
Proof.
  eexists. split; [reflexivity|].
  repeat split; by simplify_map_eq.
Qed.

Section UploadFacts.

Variable chunk_size : Z.
Variable resolve : Path -> Result Path.
Variable json_dumps : Meta -> bytes.
Variable zip_encode : list ZipEntry -> bytes.
Variable config : ServerConfig.
Variable uploads : UploadManager.

Hypothesis writable : read_only config = false.

(** One PUT of the client, as the server reads it. *)
Lemma put_chunk (fs : FS) (id : string) (offset N : Z) (to_send : bytes) :
  str_contains "/" id = false ->
  0 <= offset -> 0 <= N -> to_send <> [] ->
  do_PUT resolve json_dumps config uploads fs ("/api/upload/" +:+ id)
         (Z.of_nat (length to_send))
         (Some ("bytes " +:+ Str.of_Z offset +:+ "-"
                +:+ Str.of_Z (offset + Z.of_nat (length to_send) - 1) +:+ "/"
                +:+ Str.of_Z N))
         to_send
  = match append_chunk resolve json_dumps uploads fs id offset
                       (offset + Z.of_nat (length to_send)) to_send with
    | (Ok meta, fs') => answer fs' [send_json HTTPStatus.OK (PSession meta)]
    | (Raise e, fs') =>
        match except_PUT e with
        | Some (status, message) => answer fs' [send_error status message]
        | None => escapes fs' e
        end
    end.
Proof.
  intros Hid Ho HN Hne.
  set (len := Z.of_nat (length to_send)).
  assert (0 < len) as Hlen by (unfold len; destruct to_send; [done|simpl; lia]).
  pose proof (do_PUT_client_range resolve json_dumps config uploads fs id
                offset (offset + len - 1) N to_send writable Hid Ho
                ltac:(lia) HN) as H.
  replace (offset + len - 1 - offset + 1) with len in H by lia.
  replace (offset + len - 1 + 1) with (offset + len) in H by lia.
  assert (rfile_read to_send len = to_send) as Hread.
  { unfold rfile_read. destruct (Z.ltb_spec len 0); [done|].
    apply take_ge. unfold len. lia. }
  rewrite Hread in H. exact H.
Qed.

Lemma start_upload_fresh (fs : FS) (uuid : string) (now : Z)
    (remote : string) (N : Z) (resume flag : bool) (tp : Path) :
  let meta := fresh_meta uploads uuid now remote N flag in
  _upload_dir uploads <> [] ->
  fs !! _upload_dir uploads = Some Dir ->
  _safe_join resolve (_share_root uploads) remote = Ok tp ->
  fsops.is_dir fs tp = false ->
  fs !! _state_file uploads uuid = None ->
  fs !! _temp_file uploads uuid = None ->
  (resume = true ->
   (forall n, Str.endswith ".json" n = true ->
              fs !! (_upload_dir uploads ++ [n]) <> Some Dir)
   /\ forall p m, fs !! p = Some (File (Json m)) ->
                  session_matches remote N m = false) ->
  start_upload resolve json_dumps zip_encode config uploads fs uuid now
               remote N resume flag
  = (Response 201 (PSession (_public_state meta)),
     <[_temp_file uploads uuid := File (Bytes [])]>
       (<[_state_file uploads uuid := File (Json meta)]> fs)).
Proof.
  intros meta Hne Hdir Hjoin Hnd Hs Ht Hres.
  destruct (create_session_fresh resolve uploads fs uuid now remote N resume
              (Some flag) tp Hne Hdir Hjoin Hnd Hs Ht Hres) as [Hc _].
  destruct (session_request_fields remote N resume flag)
    as (fields & Hreq & Hp & Hsz & Hr & Ho).
  unfold start_upload. rewrite Hreq.
  unfold do_POST, post_upload_session, _require_write. rewrite writable.
  simpl. unfold getitem. rewrite Hp, Hsz, Hr, Ho. simpl.
  simpl in Hc. by rewrite Hc.
Qed.

Section Loop.

Variable fs0 : FS.
Variable uuid remote : string.
Variable now : Z.
Variable data : bytes.
Variable flag : bool.
Variable tp : Path.

Let N : Z := Z.of_nat (length data).
Let state : Path := _state_file uploads uuid.
Let temp : Path := _temp_file uploads uuid.
Let meta_at (k : nat) : Meta :=
  set_received (fresh_meta uploads uuid now remote N flag) (Z.of_nat k).

Hypothesis positive_chunks : 0 < chunk_size.
Hypothesis plain_token : str_contains "/" uuid = false.
Hypothesis target : _safe_join resolve (_share_root uploads) remote = Ok tp.
Hypothesis way :
  forall j, (0 < j <= length (pathlib.parent tp))%nat ->
            fs0 !! take j (pathlib.parent tp) = Some Dir.
Hypothesis folder : fs0 !! pathlib.parent tp = Some Dir.
Hypothesis no_folder : fsops.is_dir fs0 tp = false.
Hypothesis free : fs0 !! tp = None \/ flag = true.
Hypothesis apart1 : tp <> state.
Hypothesis apart2 : tp <> temp.
Hypothesis fresh1 : fs0 !! state = None.
Hypothesis fresh2 : fs0 !! temp = None.

(** From any point of the transfer the loop carries it to the end. *)
Lemma upload_loop_delivers (fuel k : nat) (fs : FS) :
  (k < length data)%nat ->
  (length data - k <= fuel)%nat ->
  fs !! state = Some (File (Json (meta_at k))) ->
  fs !! temp = Some (File (Bytes (take k data))) ->
  (forall p, p <> state -> p <> temp -> fs !! p = fs0 !! p) ->
  exists fs',
    upload_loop chunk_size resolve json_dumps config uploads fuel fs data
                uuid N k (Z.of_nat k)
    = (Done tt, fs')
    /\ fs' !! tp = Some (File (Bytes data))
    /\ fs' !! state = None
    /\ fs' !! temp = None
    /\ (forall p, p <> tp -> p <> state -> p <> temp -> fs' !! p = fs0 !! p).
Proof.
  revert k fs. induction fuel as [|fuel IH]; intros k fs Hk Hfuel Hst Htmp Hrest.
  { lia. }
  cbn [upload_loop].
  destruct (Z.leb_spec N (Z.of_nat k)) as [Hle|_]; [unfold N in Hle; lia|].
  set (n := Z.min chunk_size (N - Z.of_nat k)).
  assert (0 < n <= N - Z.of_nat k) as Hn by (unfold n, N; lia).
  unfold fp_read. destruct (Z.ltb_spec n 0) as [|_]; [lia|].
  set (m := Z.to_nat n).
  assert (0 < m /\ k + m <= length data)%nat as [Hm1 Hm2]
    by (unfold m, N in *; lia).
  remember (take m (drop k data)) as to_send eqn:Hsend.
  assert (length to_send = m) as Hlen.
  { rewrite Hsend, length_take, length_drop. lia. }
  destruct to_send as [|b rest]; [simpl in Hlen; lia|].
  set (to_send := b :: rest) in *.
  rewrite put_chunk; [|done|lia|unfold N; lia|done].
  assert (_load_state uploads fs uuid = Ok (meta_at k)) as Hload
    by (by apply load_state_Ok).
  assert (take k data ++ to_send = take (k + m) data) as Hgrow.
  { rewrite Hsend. apply take_take_drop. }
  assert (length (take k data) = k) as Hlenk
    by (rewrite length_take; lia).
  destruct (decide (k + m < length data)%nat) as [Hmore|Hlast].
  - (* not the last chunk *)
    destruct (append_chunk_extends resolve json_dumps uploads fs uuid
                (meta_at k) (Bytes (take k data)) to_send Hload Htmp)
      as (Hrun & _).
    { cbn [received meta_at set_received file_bytes]. by rewrite Hlenk. }
    { cbn [received total_size meta_at set_received fresh_meta].
      rewrite Hlen. unfold N. lia. }
    cbn [received meta_at set_received] in Hrun.
    rewrite Hrun. cbn [file_bytes] in *.
    rewrite Hlen, Hgrow, <- Nat2Z.inj_add in *.
    unfold urlopen_json. cbn [raised wire answer disk].
    change (is_2xx HTTPStatus.OK) with true. cbv iota. cbn [v_received _public_state set_received received].
    apply IH.
    + done.
    + lia.
    + by rewrite lookup_insert_eq.
    + rewrite lookup_insert_ne
        by (intros E; symmetry in E; by apply temp_is_not_state in E).
      by rewrite lookup_insert_eq.
    + intros p H1 H2. cbn [temp_file meta_at set_received fresh_meta].
      rewrite !lookup_insert_ne by done. by apply Hrest.
  - (* the last chunk *)
    assert (k + m = length data)%nat as Hend by lia.
    destruct (append_chunk_last resolve json_dumps uploads fs uuid
                (meta_at k) (Bytes (take k data)) to_send tp)
      as (fs' & Hrun & Htp & Hs' & Ht' & Hother & _).
    { intros j Hj. rewrite Hrest; [by apply way| |];
        intros E; rewrite <- E in *; rewrite way in *; done. }
    { done. }
    { done. }
    { done. }
    { done. }
    { cbn [received meta_at set_received file_bytes]. by rewrite Hlenk. }
    { cbn [received total_size meta_at set_received fresh_meta].
      rewrite Hlen. unfold N. lia. }
    { done. }
    { rewrite Hrest; [done| |]; intros E; rewrite <- E in *; congruence. }
    { unfold fsops.is_dir in *. by rewrite Hrest. }
    { destruct free as [Hnone| ->]; [left|by right]. by rewrite Hrest. }
    { done. }
    { done. }
    cbn [received total_size meta_at set_received fresh_meta] in Hrun.
    replace (Z.of_nat k + Z.of_nat (length to_send)) with N
      by (rewrite Hlen; unfold N; lia).
    rewrite Hrun. cbn [file_bytes] in Htp. rewrite Hgrow, Hend in Htp.
    rewrite firstn_all in Htp.
    unfold urlopen_json. cbn [raised wire answer disk].
    change (is_2xx HTTPStatus.OK) with true. cbv iota.
    cbn [v_received _public_state set_received received total_size fresh_meta
         meta_at].
    exists fs'. split.
    { destruct fuel; cbn [upload_loop]; by rewrite Z.leb_refl. }
    split; [done|]. split; [done|]. split; [done|].
    intros p H1 H2 H3. rewrite Hother by done. by apply Hrest.
Qed.

End Loop.

End UploadFacts.




